(** * ESP32 BMP280 + MPU6050 sensor monitor: calibration, persistence,
      telemetry composition and display arbitration

    A shallow embedding of the firmware sketch (the version with persistent
    calibration, LCD and IR alert) and the proofs of its specified
    properties.

    - C [float] is IEEE 754 binary32 and C [double] is binary64, both with
      round-to-nearest-even, given by the executable operations of
      [SpecFloat] at precisions 24 and 53.
    - The global variables, the peripherals (MPU6050, BMP280, Preferences,
      LCD, clock) and the HTTP response are the fields of one [State] record
      that every procedure threads explicitly.
    - The Preferences namespace store is a finite map from (namespace, key)
      to a typed value, together with the log of the calls made on it. *)

From stdpp Require Import gmap strings list fin_maps.
From Stdlib Require Import ZArith Lia Bool.
From Stdlib Require Import Floats.SpecFloat.

Local Open Scope Z_scope.

(** ** IEEE 754 arithmetic of the target *)

Module F32.
Definition prec : Z := 24.
Definition emax : Z := 128.
Definition of_Z (n : Z) : spec_float := binary_normalize prec emax n 0 false.
Definition add := SFadd prec emax.
Definition sub := SFsub prec emax.
Definition mul := SFmul prec emax.
Definition div := SFdiv prec emax.
Definition sqrt := SFsqrt prec emax.
Definition neg := SFopp.
Definition abs := SFabs.
Definition ltb := SFltb.
Definition valid := valid_binary prec emax.
(** A decimal literal [num/den] with both parts below 2^24: the division
    of two exact values rounds once, like the compiler's conversion. *)
Definition lit (num : Z) (den : positive) : spec_float :=
  div (of_Z num) (of_Z (Zpos den)).
End F32.

Module F64.
Definition prec : Z := 53.
Definition emax : Z := 1024.
Definition of_Z (n : Z) : spec_float := binary_normalize prec emax n 0 false.
Definition add := SFadd prec emax.
Definition div := SFdiv prec emax.
Definition valid := valid_binary prec emax.
End F64.

(** C [float] and [double] values. *)
Definition float : Type := spec_float.
Definition double : Type := spec_float.

(** Conversion of a finite value to the format [(prec, emax)]. *)
Definition convert (prec emax : Z) (x : spec_float) : spec_float :=
  match x with
  | S754_finite s m e => binary_normalize prec emax (cond_Zopp s (Zpos m)) e s
  | _ => x
  end.

(** Implicit promotion [float -> double] (exact) and the cast [(float)d]. *)
Definition f2d (x : float) : double := convert F64.prec F64.emax x.
Definition d2f (x : double) : float := convert F32.prec F32.emax x.

(** [unsigned int -> double], as in [sAx / samples]. *)
Definition u2d (n : N) : double := F64.of_Z (Z.of_N n).

Definition f0 : float := S754_zero false.      (* 0.0f *)
Definition f1 : float := F32.of_Z 1.           (* 1.0f *)
Definition fhalf : float := F32.lit 5 10.      (* 0.5f *)
Definition f100 : float := F32.of_Z 100.       (* 100.0F *)
Definition f180 : float := F32.of_Z 180.       (* 180.0f *)
Definition d0 : double := S754_zero false.     (* double s = 0 *)

(** [#define PI 3.1415926535897932384626433832795] of Arduino.h, a [double]
    literal: the nearest binary64 value 0x400921FB54442D18. *)
Definition PI : double := S754_finite false 7074237752028440 (-51).

(** [#define SEALEVELPRESSURE_HPA 1013.25F] *)
Definition SEALEVELPRESSURE_HPA : float := F32.lit 101325 100.

Definition LCD_UPDATE_MS : Z := 1000.
Definition IR_PIN : Z := 27.


(** ** Notions used to reason about rounding *)

Module Fl.
(** [mrs] holds the quotient [N / D], and is flagged exact when [D]
    divides [N]. *)
Definition holds (N D : Z) (mrs : shr_record) : Prop :=
  shr_m mrs = N / D /\ (N mod D = 0 -> shr_r mrs = false /\ shr_s mrs = false).

(** Zero or a valid finite number. *)
Definition finite_valid (prec emax : Z) (x : spec_float) : bool :=
  match x with
  | S754_zero _ => true
  | S754_finite _ m e => bounded prec emax m e
  | _ => false
  end.

(** The magnitude in units of [2^emin]. *)
Definition mag (prec emax : Z) (x : spec_float) : Z :=
  match x with
  | S754_finite _ m e => Zpos m * 2 ^ (e - emin prec emax)
  | _ => 0
  end.

(** A valid number (zero or finite) of magnitude at most [B] units. *)
Definition within (prec emax : Z) (B : Z) (x : spec_float) : Prop :=
  finite_valid prec emax x = true /\ mag prec emax x <= B.

(** The same, with the bound given as [mB * 2^eB]. *)
Definition below (prec emax : Z) (mB eB : Z) (r : spec_float) : Prop :=
  match r with
  | S754_zero _ => True
  | S754_finite _ m e =>
      bounded prec emax m e = true /\
      Zpos m * 2 ^ (e - emin prec emax) <= mB * 2 ^ (eB - emin prec emax)
  | _ => False
  end.

(** [B] units of [2^emin] is the magnitude of a normal number. *)
Definition representable (prec emax : Z) (B : Z) : Prop :=
  exists mB eB, 2 ^ (prec - 1) <= mB < 2 ^ prec /\
                emin prec emax <= eB <= emax - prec /\
                B = mB * 2 ^ (eB - emin prec emax).

(** The normal form of a positive integer below [2^prec]. *)
Definition int_float (prec : Z) (n : Z) : spec_float :=
  match n with
  | Z.pos p =>
      S754_finite false (Z.to_pos (n * 2 ^ (prec - Zdigits2 n))) (Zdigits2 n - prec)
  | _ => S754_zero false
  end.
End Fl.

(** ** Peripherals *)

(** What the MPU6050_light getters return after one [update()]: raw
    acceleration in g, angular rate in deg/s, and the fused yaw angle. *)
Record MpuData := {
  getAccX : float; getAccY : float; getAccZ : float;
  getGyroX : float; getGyroY : float; getGyroZ : float;
  getAngleZ : float
}.

(** The driver object: the values of the last [update()], and the
    measurements still to come ([mpu_feed k] is what the k-th update reads). *)
Record MPU6050 := {
  mpu_now : MpuData;
  mpu_feed : nat -> MpuData;
  mpu_updates : nat
}.

(** One BMP280 measurement: temperature (C), pressure (Pa) and the altitude
    the driver derives for a given sea-level pressure. *)
Record BmpData := {
  readTemperature : float;
  readPressure : float;
  readAltitude : float -> float
}.

Record BMP280 := {
  bmp_feed : nat -> BmpData;
  bmp_reads : nat
}.

(** Preferences (NVS): typed values under (namespace, key). *)
Inductive pval :=
| PFloat (v : float)
| PBool (b : bool).

(** The calls made on the Preferences object, in order; a getter is logged
    with the value it returned. *)
Inductive prefs_call :=
| PrefsBegin (ns : string) (readOnly : bool)
| PutFloat (key : string) (v : float)
| PutBool (key : string) (b : bool)
| GetBool (key : string) (ret : bool)
| GetFloat (key : string) (ret : float)
| PrefsEnd.

Record Preferences := {
  nvs : gmap (string * string) pval;
  opened : option (string * bool);     (* namespace, readOnly *)
  calls : list prefs_call
}.

(** What a render procedure puts on the 16x2 LCD; each procedure rewrites
    both lines, recorded as one write of the screen it draws. *)
Inductive lcd_write :=
| BootScreen
| ClearScreen
| IrAlertScreen
| SensorScreen (temperature altitude angleX angleY : float).

Inductive level := LOW | HIGH.

Definition level_eqb (a b : level) : bool :=
  match a, b with
  | LOW, LOW | HIGH, HIGH => true
  | _, _ => false
  end.

Record Request := {
  uri : string;
  hasAuthorization : bool;
  credentialsOk : bool
}.

Inductive Response :=
| Send (code : Z) (content_type body : string)
| RequestAuthentication.

Record WebServer := {
  client : Request;
  sent : list Response
}.

(** ** Program state *)

(** The six calibration offsets (globals [accOffX] .. [gyrOffZ]). *)
Record Offsets := {
  accOffX : float; accOffY : float; accOffZ : float;
  gyrOffX : float; gyrOffY : float; gyrOffZ : float
}.

Record State := {
  bmp_ok : bool;
  lcd_last : Z;
  offsets : Offsets;
  offsetsLoaded : bool;
  lastIrActive : bool;
  irActive : bool;
  mpu : MPU6050;
  bmp : BMP280;
  prefs : Preferences;
  lcd : list lcd_write;
  server : WebServer;
  clock : Z                            (* milliseconds since boot *)
}.

Definition set_bmp_ok (v : bool) (st : State) : State :=
  {| bmp_ok := v; lcd_last := lcd_last st; offsets := offsets st;
     offsetsLoaded := offsetsLoaded st; lastIrActive := lastIrActive st;
     irActive := irActive st; mpu := mpu st; bmp := bmp st; prefs := prefs st;
     lcd := lcd st; server := server st; clock := clock st |}.

Definition set_lcd_last (v : Z) (st : State) : State :=
  {| bmp_ok := bmp_ok st; lcd_last := v; offsets := offsets st;
     offsetsLoaded := offsetsLoaded st; lastIrActive := lastIrActive st;
     irActive := irActive st; mpu := mpu st; bmp := bmp st; prefs := prefs st;
     lcd := lcd st; server := server st; clock := clock st |}.

Definition set_offsets (v : Offsets) (st : State) : State :=
  {| bmp_ok := bmp_ok st; lcd_last := lcd_last st; offsets := v;
     offsetsLoaded := offsetsLoaded st; lastIrActive := lastIrActive st;
     irActive := irActive st; mpu := mpu st; bmp := bmp st; prefs := prefs st;
     lcd := lcd st; server := server st; clock := clock st |}.

Definition set_offsetsLoaded (v : bool) (st : State) : State :=
  {| bmp_ok := bmp_ok st; lcd_last := lcd_last st; offsets := offsets st;
     offsetsLoaded := v; lastIrActive := lastIrActive st;
     irActive := irActive st; mpu := mpu st; bmp := bmp st; prefs := prefs st;
     lcd := lcd st; server := server st; clock := clock st |}.

Definition set_lastIrActive (v : bool) (st : State) : State :=
  {| bmp_ok := bmp_ok st; lcd_last := lcd_last st; offsets := offsets st;
     offsetsLoaded := offsetsLoaded st; lastIrActive := v;
     irActive := irActive st; mpu := mpu st; bmp := bmp st; prefs := prefs st;
     lcd := lcd st; server := server st; clock := clock st |}.

Definition set_irActive (v : bool) (st : State) : State :=
  {| bmp_ok := bmp_ok st; lcd_last := lcd_last st; offsets := offsets st;
     offsetsLoaded := offsetsLoaded st; lastIrActive := lastIrActive st;
     irActive := v; mpu := mpu st; bmp := bmp st; prefs := prefs st;
     lcd := lcd st; server := server st; clock := clock st |}.

Definition set_mpu (v : MPU6050) (st : State) : State :=
  {| bmp_ok := bmp_ok st; lcd_last := lcd_last st; offsets := offsets st;
     offsetsLoaded := offsetsLoaded st; lastIrActive := lastIrActive st;
     irActive := irActive st; mpu := v; bmp := bmp st; prefs := prefs st;
     lcd := lcd st; server := server st; clock := clock st |}.

Definition set_bmp (v : BMP280) (st : State) : State :=
  {| bmp_ok := bmp_ok st; lcd_last := lcd_last st; offsets := offsets st;
     offsetsLoaded := offsetsLoaded st; lastIrActive := lastIrActive st;
     irActive := irActive st; mpu := mpu st; bmp := v; prefs := prefs st;
     lcd := lcd st; server := server st; clock := clock st |}.

Definition set_prefs (v : Preferences) (st : State) : State :=
  {| bmp_ok := bmp_ok st; lcd_last := lcd_last st; offsets := offsets st;
     offsetsLoaded := offsetsLoaded st; lastIrActive := lastIrActive st;
     irActive := irActive st; mpu := mpu st; bmp := bmp st; prefs := v;
     lcd := lcd st; server := server st; clock := clock st |}.

Definition set_lcd (v : list lcd_write) (st : State) : State :=
  {| bmp_ok := bmp_ok st; lcd_last := lcd_last st; offsets := offsets st;
     offsetsLoaded := offsetsLoaded st; lastIrActive := lastIrActive st;
     irActive := irActive st; mpu := mpu st; bmp := bmp st; prefs := prefs st;
     lcd := v; server := server st; clock := clock st |}.

Definition set_server (v : WebServer) (st : State) : State :=
  {| bmp_ok := bmp_ok st; lcd_last := lcd_last st; offsets := offsets st;
     offsetsLoaded := offsetsLoaded st; lastIrActive := lastIrActive st;
     irActive := irActive st; mpu := mpu st; bmp := bmp st; prefs := prefs st;
     lcd := lcd st; server := v; clock := clock st |}.

Definition set_clock (v : Z) (st : State) : State :=
  {| bmp_ok := bmp_ok st; lcd_last := lcd_last st; offsets := offsets st;
     offsetsLoaded := offsetsLoaded st; lastIrActive := lastIrActive st;
     irActive := irActive st; mpu := mpu st; bmp := bmp st; prefs := prefs st;
     lcd := lcd st; server := server st; clock := v |}.

(** ** Primitive operations of the runtime and the drivers *)

(** [millis()]: the clock as an [unsigned long] (32 bits on the ESP32). *)
Definition millis (st : State) : Z := clock st mod 2 ^ 32.

(** [delay(ms)]. The clock advances by the waits of the sketch only: the
    time that the calls to the drivers, the store and the server take is
    not modelled. A duration read off [clock] is therefore the sum of the
    waits, a lower bound on the time that passes on the device. *)
Definition delay (ms : Z) (st : State) : State := set_clock (clock st + ms) st.

(** [mpu.update()]: fetch the next measurement. *)
Definition mpu_update (st : State) : State :=
  let m := mpu st in
  set_mpu {| mpu_now := mpu_feed m (mpu_updates m);
             mpu_feed := mpu_feed m;
             mpu_updates := S (mpu_updates m) |} st.

(** One round of BMP280 reads ([readTemperature], [readPressure],
    [readAltitude]). *)
Definition bmp_read (st : State) : BmpData * State :=
  let b := bmp st in
  (bmp_feed b (bmp_reads b),
   set_bmp {| bmp_feed := bmp_feed b; bmp_reads := S (bmp_reads b) |} st).

Definition prefs_log (c : prefs_call) (p : Preferences) : Preferences :=
  {| nvs := nvs p; opened := opened p; calls := calls p ++ [c] |}.

(** [prefs.begin(ns, readOnly)] *)
Definition prefs_begin (ns : string) (readOnly : bool) (st : State) : State :=
  let p := prefs st in
  set_prefs {| nvs := nvs p; opened := Some (ns, readOnly);
               calls := calls p ++ [PrefsBegin ns readOnly] |} st.

(** [prefs.end()] *)
Definition prefs_end (st : State) : State :=
  let p := prefs st in
  set_prefs {| nvs := nvs p; opened := None; calls := calls p ++ [PrefsEnd] |} st.

(** A put stores the value when a namespace is open for writing. *)
Definition prefs_put (key : string) (v : pval) (c : prefs_call) (st : State) : State :=
  let p := prefs st in
  let store :=
    match opened p with
    | Some (ns, false) => <[(ns, key) := v]> (nvs p)
    | _ => nvs p
    end in
  set_prefs {| nvs := store; opened := opened p; calls := calls p ++ [c] |} st.

Definition prefs_putFloat (key : string) (v : float) : State -> State :=
  prefs_put key (PFloat v) (PutFloat key v).

Definition prefs_putBool (key : string) (b : bool) : State -> State :=
  prefs_put key (PBool b) (PutBool key b).

(** A get returns the stored value of the asked type, else the default. *)
Definition prefs_getBool (key : string) (dflt : bool) (st : State) : bool * State :=
  let p := prefs st in
  let r :=
    match opened p with
    | Some (ns, _) =>
        match nvs p !! (ns, key) with
        | Some (PBool b) => b
        | _ => dflt
        end
    | None => dflt
    end in
  (r, set_prefs (prefs_log (GetBool key r) p) st).

Definition prefs_getFloat (key : string) (dflt : float) (st : State) : float * State :=
  let p := prefs st in
  let r :=
    match opened p with
    | Some (ns, _) =>
        match nvs p !! (ns, key) with
        | Some (PFloat v) => v
        | _ => dflt
        end
    | None => dflt
    end in
  (r, set_prefs (prefs_log (GetFloat key r) p) st).

(** [server.send(code, type, body)] and [server.requestAuthentication()] *)
Definition server_send (r : Response) (st : State) : State :=
  let s := server st in
  set_server {| client := client s; sent := sent s ++ [r] |} st.

Definition lcd_draw (w : lcd_write) (st : State) : State :=
  set_lcd (lcd st ++ [w]) st.

(** ** The sketch *)

(** Built-in calibration offsets (the initial values of the globals). *)
Definition default_offsets : Offsets :=
  {| accOffX := F32.lit 130075 1000000;
     accOffY := F32.lit (-1063) 1000000;
     accOffZ := F32.lit (-53148) 1000000;
     gyrOffX := F32.lit 34171 10000;
     gyrOffY := F32.lit 36740 10000;
     gyrOffZ := F32.lit 36400 10000 |}.

(** [saveOffsetsToPrefs] *)
Definition saveOffsetsToPrefs (st : State) : State :=
  let st := prefs_begin "mpu" false st in
  let st := prefs_putFloat "ax" (accOffX (offsets st)) st in
  let st := prefs_putFloat "ay" (accOffY (offsets st)) st in
  let st := prefs_putFloat "az" (accOffZ (offsets st)) st in
  let st := prefs_putFloat "gx" (gyrOffX (offsets st)) st in
  let st := prefs_putFloat "gy" (gyrOffY (offsets st)) st in
  let st := prefs_putFloat "gz" (gyrOffZ (offsets st)) st in
  let st := prefs_putBool "ok" true st in
  prefs_end st.

(** [loadOffsetsFromPrefs] *)
Definition loadOffsetsFromPrefs (st : State) : State :=
  let st := prefs_begin "mpu" true st in
  let '(ok, st) := prefs_getBool "ok" false st in
  let st :=
    if ok then
      let '(ax, st) := prefs_getFloat "ax" (accOffX (offsets st)) st in
      let '(ay, st) := prefs_getFloat "ay" (accOffY (offsets st)) st in
      let '(az, st) := prefs_getFloat "az" (accOffZ (offsets st)) st in
      let '(gx, st) := prefs_getFloat "gx" (gyrOffX (offsets st)) st in
      let '(gy, st) := prefs_getFloat "gy" (gyrOffY (offsets st)) st in
      let '(gz, st) := prefs_getFloat "gz" (gyrOffZ (offsets st)) st in
      let st := set_offsets {| accOffX := ax; accOffY := ay; accOffZ := az;
                               gyrOffX := gx; gyrOffY := gy; gyrOffZ := gz |} st in
      set_offsetsLoaded true st
    else st in
  prefs_end st.

(** The six running sums of [doAveragingCalibration]. *)
Record Sums := {
  sAx : double; sAy : double; sAz : double;
  sGx : double; sGy : double; sGz : double
}.

Definition zero_sums : Sums :=
  {| sAx := d0; sAy := d0; sAz := d0; sGx := d0; sGy := d0; sGz := d0 |}.

(** One pass of the sampling loop body: update, read, accumulate, wait. *)
Definition accumulate (s : Sums) (d : MpuData) : Sums :=
  {| sAx := F64.add (sAx s) (f2d (getAccX d));
     sAy := F64.add (sAy s) (f2d (getAccY d));
     sAz := F64.add (sAz s) (f2d (getAccZ d));
     sGx := F64.add (sGx s) (f2d (getGyroX d));
     sGy := F64.add (sGy s) (f2d (getGyroY d));
     sGz := F64.add (sGz s) (f2d (getGyroZ d)) |}.

(** [for (unsigned int i = 0; i < samples; ++i) { ... }] with [n] passes
    left. *)
Fixpoint sampling_loop (n : nat) (sampleDelayMs : Z) (s : Sums) (st : State)
  : Sums * State :=
  match n with
  | O => (s, st)
  | S n' =>
      let st := mpu_update st in
      let s := accumulate s (mpu_now (mpu st)) in
      let st := delay sampleDelayMs st in
      sampling_loop n' sampleDelayMs s st
  end.

(** [doAveragingCalibration]. The six reference parameters [out_*] are
    returned: the routine assigns each of them exactly once, before the
    sanity check, and reads none. *)
Definition doAveragingCalibration (samples : N) (sampleDelayMs : Z) (st : State)
  : bool * Offsets * State :=
  let st := delay 200 st in
  let '(s, st) := sampling_loop (N.to_nat samples) sampleDelayMs zero_sums st in
  let meanAx := d2f (F64.div (sAx s) (u2d samples)) in
  let meanAy := d2f (F64.div (sAy s) (u2d samples)) in
  let meanAz := d2f (F64.div (sAz s) (u2d samples)) in
  let meanGx := d2f (F64.div (sGx s) (u2d samples)) in
  let meanGy := d2f (F64.div (sGy s) (u2d samples)) in
  let meanGz := d2f (F64.div (sGz s) (u2d samples)) in
  let out := {| accOffX := F32.sub meanAx f0;
                accOffY := F32.sub meanAy f0;
                accOffZ := F32.sub meanAz f1;
                gyrOffX := meanGx;
                gyrOffY := meanGy;
                gyrOffZ := meanGz |} in
  if F32.ltb (F32.abs meanAz) fhalf then (false, out, st)
  else (true, out, st).

Record SensorReading := {
  esp_ms : Z;
  temperature : float;
  pressure : float;
  altitude : float;
  angleX : float; angleY : float; angleZ : float;
  accX : float; accY : float; accZ : float
}.

(** [const bool USE_BASIC_AUTH = true] *)
Definition USE_BASIC_AUTH : bool := true.

(** [checkAuth] *)
Definition checkAuth (st : State) : bool :=
  if negb USE_BASIC_AUTH then true
  else if negb (hasAuthorization (client (server st))) then false
  else credentialsOk (client (server st)).

(** [showIrAlert] *)
Definition showIrAlert (st : State) : State := lcd_draw IrAlertScreen st.

(** [updateLCD] *)
Definition updateLCD (s : SensorReading) (st : State) : State :=
  lcd_draw (SensorScreen (temperature s) (altitude s) (angleX s) (angleY s)) st.

(** The double-quote character of the JSON bodies. *)
Definition dq : string := String (Ascii.ascii_of_nat 34) EmptyString.

(** ["\"name\":"] *)
Definition jkey (name : string) : string := dq +:+ name +:+ dq +:+ ":".

(** One sample of the IR input pin and the HTTP request, if any, that
    [server.handleClient()] finds pending in one pass of [loop]. *)
Record Tick := {
  digitalRead : level;
  pending : option Request
}.

(** What [setup] finds: whether [bmp.begin] succeeds, how many times the
    Wi-Fi status is polled before it reports a connection, and the level of
    the IR pin. *)
Record Boot := {
  bmp_begin : bool;
  wifi_polls : nat;
  boot_pin : level
}.

(** The state at power-on: the globals at their initial values, the store
    as the flash holds it, nothing drawn or sent. *)
Definition power_on (flash : gmap (string * string) pval)
    (mpu_in : nat -> MpuData) (bmp_in : nat -> BmpData) : State :=
  {| bmp_ok := false; lcd_last := 0; offsets := default_offsets;
     offsetsLoaded := false; lastIrActive := false; irActive := false;
     mpu := {| mpu_now := {| getAccX := f0; getAccY := f0; getAccZ := f0;
                             getGyroX := f0; getGyroY := f0; getGyroZ := f0;
                             getAngleZ := f0 |};
               mpu_feed := mpu_in; mpu_updates := O |};
     bmp := {| bmp_feed := bmp_in; bmp_reads := O |};
     prefs := {| nvs := flash; opened := None; calls := [] |};
     lcd := [];
     server := {| client := {| uri := ""; hasAuthorization := false;
                               credentialsOk := false |};
                  sent := [] |};
     clock := 0 |}.

Section Sketch.
(** libm's [atan2] on [float], the page served at [/] and Arduino's
    [String(unsigned long)] and [String(float, decimalPlaces)]. *)
Variable atan2 : float -> float -> float.
Variable html : string.
Variable String_ul : Z -> string.
Variable String_f : float -> Z -> string.

(** [x * 180.0f / PI]: the product in [float], the quotient in [double],
    stored to a [float]. *)
Definition degrees (x : float) : float :=
  d2f (F64.div (f2d (F32.mul x f180)) PI).

(** [readSensors] *)
Definition readSensors (st : State) : SensorReading * State :=
  let ms := millis st in
  let '(t, p, a, st) :=
    if bmp_ok st then
      let '(b, st) := bmp_read st in
      (readTemperature b, F32.div (readPressure b) f100,
       readAltitude b SEALEVELPRESSURE_HPA, st)
    else (f0, f0, f0, st) in
  let st := mpu_update st in
  let rawAx := getAccX (mpu_now (mpu st)) in
  let rawAy := getAccY (mpu_now (mpu st)) in
  let rawAz := getAccZ (mpu_now (mpu st)) in
  let corrAx := F32.sub rawAx (accOffX (offsets st)) in
  let corrAy := F32.sub rawAy (accOffY (offsets st)) in
  let corrAz := F32.sub rawAz (accOffZ (offsets st)) in
  let aX := degrees (atan2 corrAy corrAz) in
  let aY := degrees (atan2 (F32.neg corrAx)
              (F32.sqrt (F32.add (F32.mul corrAy corrAy) (F32.mul corrAz corrAz)))) in
  let aZ := getAngleZ (mpu_now (mpu st)) in
  ({| esp_ms := ms; temperature := t; pressure := p; altitude := a;
      angleX := aX; angleY := aY; angleZ := aZ;
      accX := corrAx; accY := corrAy; accZ := corrAz |}, st).

(** [handleRoot] *)
Definition handleRoot (st : State) : State :=
  if negb (checkAuth st) then server_send RequestAuthentication st
  else server_send (Send 200 "text/html" html) st.

(** [handleData] *)
Definition handleData (st : State) : State :=
  if negb (checkAuth st) then server_send RequestAuthentication st
  else
    let '(r, st) := readSensors st in
    let json := "{" in
    let json := json +:+ jkey "ESP_ms" +:+ String_ul (esp_ms r) +:+ "," in
    let json := json +:+ jkey "Temperature_C" +:+ String_f (temperature r) 2 +:+ "," in
    let json := json +:+ jkey "Pressure_hPa" +:+ String_f (pressure r) 2 +:+ "," in
    let json := json +:+ jkey "Altitude_m" +:+ String_f (altitude r) 2 +:+ "," in
    let json := json +:+ jkey "AngleX" +:+ String_f (angleX r) 2 +:+ "," in
    let json := json +:+ jkey "AngleY" +:+ String_f (angleY r) 2 +:+ "," in
    let json := json +:+ jkey "AngleZ" +:+ String_f (angleZ r) 2 +:+ "," in
    let json := json +:+ jkey "AccX_g" +:+ String_f (accX r) 3 +:+ "," in
    let json := json +:+ jkey "AccY_g" +:+ String_f (accY r) 3 +:+ "," in
    let json := json +:+ jkey "AccZ_g" +:+ String_f (accZ r) 3 in
    let json := json +:+ "}" in
    server_send (Send 200 "application/json" json) st.

(** [handleCalibrate] *)
Definition handleCalibrate (st : State) : State :=
  if negb (checkAuth st) then server_send RequestAuthentication st
  else
    let samples := 800%N in
    let sampDelayMs := 3 in
    let '(ok, new_off, st) := doAveragingCalibration samples sampDelayMs st in
    if negb ok then
      server_send (Send 200 "application/json" ("{" +:+ jkey "ok" +:+ "false}")) st
    else
      let st := set_offsets new_off st in
      let st := saveOffsetsToPrefs st in
      let json := "{" in
      let json := json +:+ jkey "ok" +:+ "true," in
      let json := json +:+ jkey "accOffX" +:+ String_f (accOffX (offsets st)) 6 +:+ "," in
      let json := json +:+ jkey "accOffY" +:+ String_f (accOffY (offsets st)) 6 +:+ "," in
      let json := json +:+ jkey "accOffZ" +:+ String_f (accOffZ (offsets st)) 6 +:+ "," in
      let json := json +:+ jkey "gyrOffX" +:+ String_f (gyrOffX (offsets st)) 4 +:+ "," in
      let json := json +:+ jkey "gyrOffY" +:+ String_f (gyrOffY (offsets st)) 4 +:+ "," in
      let json := json +:+ jkey "gyrOffZ" +:+ String_f (gyrOffZ (offsets st)) 4 in
      let json := json +:+ "}" in
      server_send (Send 200 "application/json" json) st.

(** [restoreNormalDisplay] *)
Definition restoreNormalDisplay (st : State) : State :=
  let '(s, st) := readSensors st in
  lcd_draw (SensorScreen (temperature s) (altitude s) (angleX s) (angleY s)) st.

(** [server.handleClient()] with the routes registered in [setup]; an
    unregistered path gets the library's 404. *)
Definition handleClient (req : option Request) (st : State) : State :=
  match req with
  | None => st
  | Some r =>
      let st := set_server {| client := r; sent := sent (server st) |} st in
      if String.eqb (uri r) "/" then handleRoot st
      else if String.eqb (uri r) "/data" then handleData st
      else if String.eqb (uri r) "/calibrate" then handleCalibrate st
      else server_send (Send 404 "text/plain" "Not found") st
  end.

(** [setup]. Serial output is not modelled; [while (!Serial)] does not
    wait on the ESP32, whose UART is ready at once. *)
Definition setup (b : Boot) (st : State) : State :=
  let st := delay 50 st in
  let st := set_bmp_ok (bmp_begin b) st in
  let st := mpu_update st in             (* mpu.begin() ends with update() *)
  let st := loadOffsetsFromPrefs st in
  let st := delay 50 st in
  let st := lcd_draw BootScreen st in
  let st := delay 700 st in
  let st := lcd_draw ClearScreen st in
  let st := delay (250 * Z.of_nat (Nat.min (wifi_polls b) 40)) st in
  let st := set_lastIrActive (level_eqb (boot_pin b) LOW) st in
  if lastIrActive st then showIrAlert st else restoreNormalDisplay st.

(** [loop] *)
Definition loop (t : Tick) (st : State) : State :=
  let st := mpu_update st in
  let st := set_irActive (level_eqb (digitalRead t) LOW) st in
  let st :=
    if negb (Bool.eqb (irActive st) (lastIrActive st)) then
      let st := if irActive st then showIrAlert st else restoreNormalDisplay st in
      set_lastIrActive (irActive st) st
    else st in
  let st := handleClient (pending t) st in
  let st :=
    if negb (irActive st) && (LCD_UPDATE_MS <? (millis st - lcd_last st) mod 2 ^ 32) then
      let '(s, st) := readSensors st in
      let st := updateLCD s st in
      set_lcd_last (millis st) st
    else st in
  delay 20 st.
End Sketch.

(** ** Notions of the specification *)

(** The measurements that the next [n] updates of the MPU6050 read. *)
Definition window (n : nat) (st : State) : list MpuData :=
  map (fun i => mpu_feed (mpu st) (mpu_updates (mpu st) + i)%nat) (seq 0 n).

(** The arithmetic mean of one channel as the calibration procedure is
    specified to compute it: a running sum in the wider precision, divided
    by the number of samples, stored as a [float]. *)
Definition add_sample (a : double) (x : float) : double := F64.add a (f2d x).

Definition mean (xs : list float) : float :=
  d2f (F64.div (fold_left add_sample xs d0) (u2d (N.of_nat (length xs)))).

(** The comparison [x == y] of two floats. *)
Definition feq (x y : float) : Prop := SFeqb x y = true.

(** A sample that reads exactly (0, 0, +1) g. *)
Definition level_sample (d : MpuData) : Prop :=
  feq (getAccX d) f0 /\ feq (getAccY d) f0 /\ feq (getAccZ d) f1.

(** The result of a calibration run: the flag and the six offsets. *)
Definition calibration_ok (r : bool * Offsets * State) : bool := fst (fst r).
Definition calibration_out (r : bool * Offsets * State) : Offsets := snd (fst r).
Definition calibration_state (r : bool * Offsets * State) : State := snd r.

(** The largest magnitude below 0.5 that a [float] takes, (2^24 - 1) * 2^-25,
    in units of the least positive [float] (2^-149) and of the least
    positive [double] (2^-1074). *)
Definition under_half32 : Z := (2 ^ 24 - 1) * 2 ^ 124.
Definition under_half64 : Z := (2 ^ 24 - 1) * 2 ^ 1049.

(** A [float] reading of magnitude below 0.5 (a number, not NaN or
    infinite). *)
Definition reads_under_half (x : float) : Prop :=
  F32.valid x = true /\ F32.ltb (F32.abs x) fhalf = true.

(** Everything but the MPU6050 and the clock is as before. *)
Definition same_globals (st st' : State) : Prop :=
  bmp_ok st' = bmp_ok st /\ lcd_last st' = lcd_last st /\
  offsets st' = offsets st /\ offsetsLoaded st' = offsetsLoaded st /\
  lastIrActive st' = lastIrActive st /\ irActive st' = irActive st /\
  bmp st' = bmp st /\ prefs st' = prefs st /\ lcd st' = lcd st /\
  server st' = server st.

(** The six offsets with the gyroscope part replaced. *)
Definition with_gyro_offsets (gx gy gz : float) (o : Offsets) : Offsets :=
  {| accOffX := accOffX o; accOffY := accOffY o; accOffZ := accOffZ o;
     gyrOffX := gx; gyrOffY := gy; gyrOffZ := gz |}.

(** A BMP280 that is present and measures zero on every quantity. *)
Definition zero_air : BmpData :=
  {| readTemperature := f0; readPressure := f0; readAltitude := fun _ => f0 |}.

(** The state with the BMP280 marked present and measuring zeros. *)
Definition with_zero_bmp (st : State) : State :=
  set_bmp_ok true
    (set_bmp {| bmp_feed := fun _ => zero_air; bmp_reads := bmp_reads (bmp st) |} st).

(** The presence marker of the stored offsets is absent or false. *)
Definition marker_unset (store : gmap (string * string) pval) : Prop :=
  store !! ("mpu", "ok") = None \/ store !! ("mpu", "ok") = Some (PBool false).

(** The alert input of a pass of [loop]: the IR pin reads LOW. *)
Definition alert (t : Tick) : bool := level_eqb (digitalRead t) LOW.

(** A pass of [loop] that samples the alert input as [asserted] and finds
    the request [req] pending. *)
Definition tick (asserted : bool) (req : option Request) : Tick :=
  {| digitalRead := if asserted then LOW else HIGH; pending := req |}.



(** The two display stages of [loop]: the reaction to a change of the alert
    input, and the periodic refresh. *)
Definition edge_stage (atan2 : float -> float -> float) (st : State) : State :=
  if negb (Bool.eqb (irActive st) (lastIrActive st)) then
    let st := if irActive st then showIrAlert st else restoreNormalDisplay atan2 st in
    set_lastIrActive (irActive st) st
  else st.

Definition refresh_due (st : State) : bool :=
  negb (irActive st) && (LCD_UPDATE_MS <? (millis st - lcd_last st) mod 2 ^ 32).

Definition refresh_stage (atan2 : float -> float -> float) (st : State) : State :=
  if refresh_due st then
    let '(s, st) := readSensors atan2 st in
    let st := updateLCD s st in
    set_lcd_last (millis st) st
  else st.

(** What [getBool("ok", false)] returns on a store, in namespace ["mpu"]. *)
Definition marker_value (store : gmap (string * string) pval) : bool :=
  match store !! ("mpu", "ok") with
  | Some (PBool b) => b
  | _ => false
  end.

(** Only the sensors have been read: every global, the store, the display,
    the server and the clock are as before. *)
Definition sensors_moved (st st' : State) : Prop :=
  bmp_ok st' = bmp_ok st /\ lcd_last st' = lcd_last st /\
  offsets st' = offsets st /\ offsetsLoaded st' = offsetsLoaded st /\
  lastIrActive st' = lastIrActive st /\ irActive st' = irActive st /\
  prefs st' = prefs st /\ lcd st' = lcd st /\ server st' = server st /\
  clock st' = clock st.

(** What [getFloat(key, dflt)] returns on a store, in namespace ["mpu"]. *)
Definition stored_float (store : gmap (string * string) pval) (key : string)
    (dflt : float) : float :=
  match store !! ("mpu", key) with
  | Some (PFloat v) => v
  | _ => dflt
  end.

(** The calls that an operation added to the Preferences log. *)
Definition new_calls (before after : State) : list prefs_call :=
  drop (length (calls (prefs before))) (calls (prefs after)).

(** ** Concrete inputs *)

(** A sensor at rest and level: every measurement reads (0, 0, 1) g and a
    small constant angular rate. *)
Definition flat_sample : MpuData :=
  {| getAccX := f0; getAccY := f0; getAccZ := f1;
     getGyroX := F32.lit 3 10; getGyroY := F32.lit 3 10; getGyroZ := F32.lit 3 10;
     getAngleZ := f0 |}.

Definition still_air : BmpData :=
  {| readTemperature := F32.lit 215 10;
     readPressure := F32.of_Z 101325;
     readAltitude := fun _ => f0 |}.

(** A unit at power-on with an empty flash and a level, resting sensor. *)
Definition flat_unit : State :=
  power_on ∅ (fun _ => flat_sample) (fun _ => still_air).

(** The same unit lying on its side: gravity falls on the X axis. *)
Definition side_sample : MpuData :=
  {| getAccX := f1; getAccY := f0; getAccZ := f0;
     getGyroX := F32.lit 3 10; getGyroY := F32.lit 3 10; getGyroZ := F32.lit 3 10;
     getAngleZ := f0 |}.

(** An authenticated request for [path]. *)
Definition authorized (path : string) : Request :=
  {| uri := path; hasAuthorization := true; credentialsOk := true |}.

(** The unit on its side, serving an authenticated [/calibrate]. *)
Definition side_unit : State :=
  set_server {| client := authorized "/calibrate"; sent := [] |}
    (power_on ∅ (fun _ => side_sample) (fun _ => still_air)).

(** The level unit, serving an authenticated [/calibrate]. *)
Definition level_unit : State :=
  set_server {| client := authorized "/calibrate"; sent := [] |} flat_unit.

(** Stand-ins for the library functions that the sketch is parametric in,
    used to run it on concrete inputs: [atan2] on the arguments for which
    the C standard fixes the result (a zero over a positive number is that
    zero) and NaN elsewhere, and formatters that print a mark. *)
Definition atan2_axis (y x : float) : float :=
  match y, x with
  | S754_zero s, S754_finite false _ _ => S754_zero s
  | _, _ => S754_nan
  end.

Definition String_f_mark (x : float) (decimals : Z) : string := "#".
Definition String_ul_mark (n : Z) : string := "#".

(** The body [{"ok":false}] of a refused calibration. *)
Definition json_not_ok : string := "{" +:+ jkey "ok" +:+ "false}".

(** The level unit started with the BMP280 present, the Wi-Fi connecting at
    the second poll and the IR input not asserted. *)
Definition quiet_boot : Boot :=
  {| bmp_begin := true; wifi_polls := 2; boot_pin := HIGH |}.

Definition booted_unit : State := setup atan2_axis quiet_boot flat_unit.

(** ** Notions for the behaviour of the whole sketch *)

(** The credentials that [checkAuth] accepts: the request carries an
    [Authorization] header and [server.authenticate] passes. *)
Definition authenticated (r : Request) : bool :=
  hasAuthorization r && credentialsOk r.


(** A pending request that makes [handleCalibrate] run a calibration. *)
Definition calibrates (req : option Request) : bool :=
  match req with
  | Some r => String.eqb (uri r) "/calibrate" && authenticated r
  | None => false
  end.


(** The calibration in force, the store and the clock are as before. *)
Definition undisturbed (st st' : State) : Prop :=
  offsets st' = offsets st /\ offsetsLoaded st' = offsetsLoaded st /\
  prefs st' = prefs st /\ clock st' = clock st.

(** The body of the response to a successful [/calibrate]. *)
Definition json_offsets (String_f : float -> Z -> string) (o : Offsets) : string :=
  let json := "{" in
  let json := json +:+ jkey "ok" +:+ "true," in
  let json := json +:+ jkey "accOffX" +:+ String_f (accOffX o) 6 +:+ "," in
  let json := json +:+ jkey "accOffY" +:+ String_f (accOffY o) 6 +:+ "," in
  let json := json +:+ jkey "accOffZ" +:+ String_f (accOffZ o) 6 +:+ "," in
  let json := json +:+ jkey "gyrOffX" +:+ String_f (gyrOffX o) 4 +:+ "," in
  let json := json +:+ jkey "gyrOffY" +:+ String_f (gyrOffY o) 4 +:+ "," in
  let json := json +:+ jkey "gyrOffZ" +:+ String_f (gyrOffZ o) 4 in
  json +:+ "}".

(** The seven keys that the sketch keeps in the namespace ["mpu"]. *)
Definition offset_keys : list string := ["ax"; "ay"; "az"; "gx"; "gy"; "gz"; "ok"].

Section Passes.
Variable atan2 : float -> float -> float.
Variable html : string.
Variable String_ul : Z -> string.
Variable String_f : float -> Z -> string.

(** The passes of [loop] that the Arduino runtime makes after [setup], one
    for each sample of the inputs. *)
Fixpoint run (ts : list Tick) (st : State) : State :=
  match ts with
  | [] => st
  | t :: ts' => run ts' (loop atan2 html String_ul String_f t st)
  end.
End Passes.


(** A request with a header whose credentials are wrong. *)
Definition intruder (path : string) : Request :=
  {| uri := path; hasAuthorization := true; credentialsOk := false |}.

(** A pass of [loop] that finds a request pending. *)
Definition has_request (t : Tick) : bool :=
  match pending t with Some _ => true | None => false end.


(** A measurement whose Z acceleration is not a number. *)
Definition faulty_sample : MpuData :=
  {| getAccX := f0; getAccY := f0; getAccZ := S754_nan;
     getGyroX := f0; getGyroY := f0; getGyroZ := f0; getAngleZ := f0 |}.

(** The level unit with one faulty measurement, the sixth, serving an
    authenticated [/calibrate]. *)
Definition glitch_unit : State :=
  set_server {| client := authorized "/calibrate"; sent := [] |}
    (power_on ∅ (fun k => if Nat.eqb k 5 then faulty_sample else flat_sample)
       (fun _ => still_air)).

(** ** Magnitudes of readings *)

(** A normal [float]: a number in normal form whose mantissa has all of
    its 24 bits (any finite [float] from 2^-126 up, in magnitude). *)
Definition normal32 (b : float) : bool :=
  match b with
  | S754_finite _ m e => bounded F32.prec F32.emax m e && (2 ^ 23 <=? Zpos m)
  | _ => false
  end.

(** [x] is a number, zero or finite, and [|x| <= |b|]. *)
Definition abs_le (x b : float) : Prop :=
  F32.valid x = true /\ SFleb (F32.abs x) (F32.abs b) = true.

(** The magnitude of a [float] in units of 2^-149, the least positive
    [float]. *)
Definition mag32 (x : float) : Z := Fl.mag F32.prec F32.emax x.

(** Every channel of a measurement is within [b]. *)
Definition sample_within (b : float) (d : MpuData) : Prop :=
  abs_le (getAccX d) b /\ abs_le (getAccY d) b /\ abs_le (getAccZ d) b /\
  abs_le (getGyroX d) b /\ abs_le (getGyroY d) b /\ abs_le (getGyroZ d) b.

(** ** Exact results *)

(** The normal form, at precision [prec], of [n * 2^e] with sign [s], for
    a positive [n] below [2^prec]. *)
Definition scaled (prec : Z) (s : bool) (n e : Z) : spec_float :=
  S754_finite s (Z.to_pos (n * 2 ^ (prec - Zdigits2 n))) (e - (prec - Zdigits2 n)).

(** A number: a zero or a valid finite [float]. *)
Definition number (x : float) : Prop := Fl.finite_valid F32.prec F32.emax x = true.

(** [d] reads as [c] does on the six channels that the calibration
    averages. *)
Definition same_reading (c d : MpuData) : Prop :=
  getAccX d = getAccX c /\ getAccY d = getAccY c /\ getAccZ d = getAccZ c /\
  getGyroX d = getGyroX c /\ getGyroY d = getGyroY c /\ getGyroZ d = getGyroZ c.

(** The six channels of [c] are numbers. *)
Definition numeric_sample (c : MpuData) : Prop :=
  number (getAccX c) /\ number (getAccY c) /\ number (getAccZ c) /\
  number (getGyroX c) /\ number (getGyroY c) /\ number (getGyroZ c).

(** [2.0f] *)
Definition f2 : float := F32.of_Z 2.

(** A sensor at rest with a bias on every channel: it reads
    (0.13, -0.001063, 0.95) g and (3.4171, 3.674, 3.64) deg/s. *)
Definition biased_sample : MpuData :=
  {| getAccX := F32.lit 13 100; getAccY := F32.lit (-1063) 1000000;
     getAccZ := F32.lit 95 100;
     getGyroX := F32.lit 34171 10000; getGyroY := F32.lit 36740 10000;
     getGyroZ := F32.lit 36400 10000; getAngleZ := f0 |}.

(** A unit with that sensor, serving an authenticated [/calibrate]. *)
Definition biased_unit : State :=
  set_server {| client := authorized "/calibrate"; sent := [] |}
    (power_on ∅ (fun _ => biased_sample) (fun _ => still_air)).

(** A zero of either sign as +0, every other value as it is. *)
Definition unsigned_zero (x : float) : float :=
  match x with
  | S754_zero _ => f0
  | _ => x
  end.

(** ** The characters on the display *)

(** The render procedures at the level of characters. The HD44780 behind
    [lcd] keeps 40 cells for each of its two lines, of which the glass shows
    the first 16; a write stores a character at the cursor and moves the
    cursor on, passing from the end of a line to the start of the other.
    [snprintf] into a [char[17]] keeps the first 16 characters of the
    formatted text. The conversions ["T:%4.1fC A:%5.1fm"] and
    ["X:%5.1f Y:%5.1f"] of the two floats are parameters. *)
Module Lcd16x2.
Record Glass := {
  line0 : list Ascii.ascii;
  line1 : list Ascii.ascii;
  on_line1 : bool;
  column : nat
}.

(** [lcd.setCursor(col, row)] *)
Definition setCursor (col : nat) (row1 : bool) (g : Glass) : Glass :=
  {| line0 := line0 g; line1 := line1 g; on_line1 := row1; column := col |}.

(** [lcd.print(char)] *)
Definition write (ch : Ascii.ascii) (g : Glass) : Glass :=
  let l0 := if on_line1 g then line0 g else <[column g := ch]> (line0 g) in
  let l1 := if on_line1 g then <[column g := ch]> (line1 g) else line1 g in
  if Nat.eqb (S (column g)) 40
  then {| line0 := l0; line1 := l1; on_line1 := negb (on_line1 g); column := 0 |}
  else {| line0 := l0; line1 := l1; on_line1 := on_line1 g; column := S (column g) |}.

(** [lcd.print] of a string *)
Fixpoint print (s : list Ascii.ascii) (g : Glass) : Glass :=
  match s with
  | [] => g
  | ch :: s' => print s' (write ch g)
  end.

Definition space : Ascii.ascii := Ascii.ascii_of_nat 32.

(** [for (int i = len; i < 16; ++i) lcd.print(' ')] *)
Definition fill (len : nat) (g : Glass) : Glass := print (repeat space (16 - len)) g.

(** [snprintf(buf, sizeof(buf), ...)] with [char buf[17]]: what the buffer
    holds of the formatted text. *)
Definition snprintf17 (formatted : list Ascii.ascii) : list Ascii.ascii := take 16 formatted.

(** The conversion ["%-16s"]: the string, padded on the right to 16. *)
Definition left16 (s : list Ascii.ascii) : list Ascii.ascii := s ++ repeat space (16 - length s).

Definition chars (s : string) : list Ascii.ascii := String.list_ascii_of_string s.

(** [showIrAlert] *)
Definition showIrAlert (g : Glass) : Glass :=
  let l0 := chars "IR Triggered" in
  let l1 := chars "Alert !!!" in
  let g := setCursor 0 false g in
  let buf := snprintf17 (left16 l0) in
  let g := print buf g in
  let g := setCursor 0 true g in
  let buf := snprintf17 (left16 l1) in
  print buf g.

Section Formats.
Variable fmt_T_A : float -> float -> list Ascii.ascii.
Variable fmt_X_Y : float -> float -> list Ascii.ascii.

(** [updateLCD] *)
Definition updateLCD (s : SensorReading) (g : Glass) : Glass :=
  let text1 := snprintf17 (fmt_T_A (temperature s) (altitude s)) in
  let text2 := snprintf17 (fmt_X_Y (angleX s) (angleY s)) in
  let g := setCursor 0 false g in
  let g := print text1 g in
  let len1 := length text1 in
  let g := fill len1 g in
  let g := setCursor 0 true g in
  let g := print text2 g in
  let len2 := length text2 in
  fill len2 g.

(** [restoreNormalDisplay], after its [readSensors]: the same writes. *)
Definition restoreNormalDisplay (s : SensorReading) (g : Glass) : Glass :=
  let text1 := snprintf17 (fmt_T_A (temperature s) (altitude s)) in
  let text2 := snprintf17 (fmt_X_Y (angleX s) (angleY s)) in
  let g := setCursor 0 false g in
  let g := print text1 g in
  let len1 := length text1 in
  let g := fill len1 g in
  let g := setCursor 0 true g in
  let g := print text2 g in
  let len2 := length text2 in
  fill len2 g.
End Formats.

(** A formatted text as it appears on a line of the glass: cut to 16
    characters and padded with spaces. *)
Definition row_text (formatted : list Ascii.ascii) : list Ascii.ascii :=
  left16 (snprintf17 formatted).

(** What the glass shows: the first 16 cells of each line. *)
Definition visible (g : Glass) : list Ascii.ascii * list Ascii.ascii :=
  (take 16 (line0 g), take 16 (line1 g)).

(** A display memory of two lines of 40 cells. *)
Definition well_formed (g : Glass) : Prop :=
  length (line0 g) = 40%nat /\ length (line1 g) = 40%nat.

(** The memory after [lcd.clear()]: all spaces, cursor home. *)
Definition cleared : Glass :=
  {| line0 := repeat space 40; line1 := repeat space 40; on_line1 := false; column := 0 |}.

(** Stand-ins for the two conversions, used to run the procedures. *)
Definition fmt_T_A_mark (t a : float) : list Ascii.ascii := chars "T:21.5C A:  0.0m".
Definition fmt_X_Y_mark (x y : float) : list Ascii.ascii := chars "X:  0.0 Y:  0.0".
End Lcd16x2.

(** ** The serial logger *)

(** The sketch "ESP32 BMP280 + MPU6050 Serial CSV Logger": [loop] and
    [printHeaderIfNeeded]. A line of the CSV output is the header or a row
    of ten values, whose decimal rendering is not modelled. *)
Module CsvLogger.
Record MpuData := {
  getAngleX : float; getAngleY : float; getAngleZ : float;
  getAccX : float; getAccY : float; getAccZ : float
}.

Inductive Line :=
| Header
| Row (now : Z) (temperature pressure : float) (angleX angleY angleZ : float)
      (accX accY accZ : float) (altitude : float).

Record State := {
  lastSample : Z;
  headerPrinted : bool;
  bmp_ok : bool;
  mpu_now : MpuData;
  mpu_feed : nat -> MpuData;
  mpu_updates : nat;
  bmp : BMP280;
  serial : list Line;
  clock : Z
}.

Definition SAMPLE_INTERVAL_MS : Z := 1000.

Definition millis (st : State) : Z := clock st mod 2 ^ 32.

(** [mpu.update()] *)
Definition mpu_update (st : State) : State :=
  {| lastSample := lastSample st; headerPrinted := headerPrinted st; bmp_ok := bmp_ok st;
     mpu_now := mpu_feed st (mpu_updates st); mpu_feed := mpu_feed st;
     mpu_updates := S (mpu_updates st);
     bmp := bmp st; serial := serial st; clock := clock st |}.

Definition set_lastSample (v : Z) (st : State) : State :=
  {| lastSample := v; headerPrinted := headerPrinted st; bmp_ok := bmp_ok st;
     mpu_now := mpu_now st; mpu_feed := mpu_feed st; mpu_updates := mpu_updates st;
     bmp := bmp st; serial := serial st; clock := clock st |}.

Definition println (l : Line) (st : State) : State :=
  {| lastSample := lastSample st; headerPrinted := headerPrinted st; bmp_ok := bmp_ok st;
     mpu_now := mpu_now st; mpu_feed := mpu_feed st; mpu_updates := mpu_updates st;
     bmp := bmp st; serial := serial st ++ [l]; clock := clock st |}.

Definition set_headerPrinted (v : bool) (st : State) : State :=
  {| lastSample := lastSample st; headerPrinted := v; bmp_ok := bmp_ok st;
     mpu_now := mpu_now st; mpu_feed := mpu_feed st; mpu_updates := mpu_updates st;
     bmp := bmp st; serial := serial st; clock := clock st |}.

(** One round of BMP280 reads. *)
Definition bmp_read (st : State) : BmpData * State :=
  let b := bmp st in
  (bmp_feed b (bmp_reads b),
   {| lastSample := lastSample st; headerPrinted := headerPrinted st; bmp_ok := bmp_ok st;
      mpu_now := mpu_now st; mpu_feed := mpu_feed st; mpu_updates := mpu_updates st;
      bmp := {| bmp_feed := bmp_feed b; bmp_reads := S (bmp_reads b) |};
      serial := serial st; clock := clock st |}).

Definition delay (ms : Z) (st : State) : State :=
  {| lastSample := lastSample st; headerPrinted := headerPrinted st; bmp_ok := bmp_ok st;
     mpu_now := mpu_now st; mpu_feed := mpu_feed st; mpu_updates := mpu_updates st;
     bmp := bmp st; serial := serial st; clock := clock st + ms |}.

(** [printHeaderIfNeeded] *)
Definition printHeaderIfNeeded (st : State) : State :=
  if negb (headerPrinted st) then
    let st := println Header st in
    set_headerPrinted true st
  else st.

(** [loop] *)
Definition loop (st : State) : State :=
  let now := millis st in
  let st := mpu_update st in
  let st :=
    if SAMPLE_INTERVAL_MS <=? (now - lastSample st) mod 2 ^ 32 then
      let st := set_lastSample now st in
      let st := printHeaderIfNeeded st in
      let '(temperature, pressure, altitude, st) :=
        if bmp_ok st then
          let '(b, st) := bmp_read st in
          (readTemperature b, F32.div (readPressure b) f100,
           readAltitude b SEALEVELPRESSURE_HPA, st)
        else (f0, f0, f0, st) in
      let m := mpu_now st in
      println (Row now temperature pressure (getAngleX m) (getAngleY m) (getAngleZ m)
                 (getAccX m) (getAccY m) (getAccZ m) altitude) st
    else st in
  delay 5 st.






(** The logger started at 300 ms on a level sensor at rest. *)
Definition level : MpuData :=
  {| getAngleX := f0; getAngleY := f0; getAngleZ := f0;
     getAccX := f0; getAccY := f0; getAccZ := f1 |}.

End CsvLogger.
(** * Facts about IEEE 754 rounding *)

Lemma digits2_pos_bounds (p : positive) :
  2 ^ (Zpos (digits2_pos p) - 1) <= Zpos p < 2 ^ Zpos (digits2_pos p).
Proof.
  induction p as [p IH | p IH |]; cbn [digits2_pos].
  - rewrite Pos2Z.inj_succ.
    replace (Z.succ (Z.pos (digits2_pos p)) - 1) with (Z.succ (Z.pos (digits2_pos p) - 1)) by lia.
    rewrite !Z.pow_succ_r by lia. lia.
  - rewrite Pos2Z.inj_succ.
    replace (Z.succ (Z.pos (digits2_pos p)) - 1) with (Z.succ (Z.pos (digits2_pos p) - 1)) by lia.
    rewrite !Z.pow_succ_r by lia. lia.
  - cbn. lia.
Qed.

Lemma Zdigits2_bounds (m : Z) :
  0 < m -> 2 ^ (Zdigits2 m - 1) <= m < 2 ^ Zdigits2 m.
Proof.
  destruct m as [|p|p]; try lia. intros _. apply digits2_pos_bounds.
Qed.

Lemma Zdigits2_nonneg (m : Z) : 0 <= Zdigits2 m.
Proof. destruct m; cbn; lia. Qed.

Lemma Zdigits2_pos (m : Z) : 0 < m -> 0 < Zdigits2 m.
Proof. destruct m; cbn; lia. Qed.

(** The number of binary digits is determined by the enclosing powers. *)
Lemma Zdigits2_unique (m d : Z) :
  2 ^ (d - 1) <= m < 2 ^ d -> 0 < m -> 0 < d -> Zdigits2 m = d.
Proof.
  intros [Hlo Hhi] Hm Hd.
  pose proof (Zdigits2_bounds m Hm) as [Hlo' Hhi'].
  pose proof (Zdigits2_pos m Hm) as Hdp.
  destruct (Z.lt_trichotomy (Zdigits2 m) d) as [Hlt | [Heq | Hgt]]; [| exact Heq |].
  - exfalso.
    assert (2 ^ Zdigits2 m <= 2 ^ (d - 1)) by (apply Z.pow_le_mono_r; lia). lia.
  - exfalso.
    assert (2 ^ d <= 2 ^ (Zdigits2 m - 1)) by (apply Z.pow_le_mono_r; lia). lia.
Qed.

Lemma Zdigits2_le (m k : Z) : 0 <= m < 2 ^ k -> 0 <= k -> Zdigits2 m <= k.
Proof.
  intros [Hm Hlt] Hk.
  destruct (Z.eq_dec m 0) as [-> | Hne]; [cbn; lia |].
  pose proof (Zdigits2_bounds m ltac:(lia)) as [Hlo _].
  destruct (Z_le_gt_dec (Zdigits2 m) k) as [H | H]; [exact H | exfalso].
  assert (2 ^ k <= 2 ^ (Zdigits2 m - 1)) by (apply Z.pow_le_mono_r; lia). lia.
Qed.

Lemma Zdigits2_ge (m k : Z) : 2 ^ (k - 1) <= m -> 0 < k -> k <= Zdigits2 m.
Proof.
  intros Hlo Hk.
  assert (0 < m) by (pose proof (Z.pow_pos_nonneg 2 (k - 1)); lia).
  pose proof (Zdigits2_bounds m ltac:(lia)) as [_ Hhi].
  destruct (Z_le_gt_dec k (Zdigits2 m)) as [H' | H']; [exact H' | exfalso].
  assert (2 ^ Zdigits2 m <= 2 ^ (k - 1)) by (apply Z.pow_le_mono_r; [lia | lia]). lia.
Qed.

Lemma Zdigits2_mul_pow2 (m j : Z) :
  0 < m -> 0 <= j -> Zdigits2 (m * 2 ^ j) = Zdigits2 m + j.
Proof.
  intros Hm Hj.
  pose proof (Zdigits2_bounds m Hm) as [Hlo Hhi].
  pose proof (Zdigits2_pos m Hm).
  assert (0 < 2 ^ j) by (apply Z.pow_pos_nonneg; lia).
  apply Zdigits2_unique; [| nia | lia].
  replace (Zdigits2 m + j - 1) with (Zdigits2 m - 1 + j) by lia.
  rewrite !Z.pow_add_r by lia. nia.
Qed.

Lemma Zdigits2_mono (a b : Z) : 0 <= a <= b -> Zdigits2 a <= Zdigits2 b.
Proof.
  intros [Ha Hab].
  destruct (Z.eq_dec a 0) as [-> | Hne]; [apply Zdigits2_nonneg |].
  pose proof (Zdigits2_bounds a ltac:(lia)) as [Hlo _].
  apply Zdigits2_ge; [lia | apply Zdigits2_pos; lia].
Qed.

(** [iter_pos] is plain iteration. *)
Lemma iter_pos_nat {A} (f : A -> A) (p : positive) (x : A) :
  iter_pos f p x = Nat.iter (Pos.to_nat p) f x.
Proof.
  revert x; induction p as [p IH | p IH |]; intros x; cbn [iter_pos].
  - rewrite !IH, Pos2Nat.inj_xI.
    replace (S (2 * Pos.to_nat p)) with (Pos.to_nat p + S (Pos.to_nat p))%nat by lia.
    rewrite Nat.iter_add. f_equal. now rewrite Nat.iter_succ_r.
  - rewrite !IH, Pos2Nat.inj_xO.
    replace (2 * Pos.to_nat p)%nat with (Pos.to_nat p + Pos.to_nat p)%nat by lia.
    now rewrite Nat.iter_add.
  - reflexivity.
Qed.

Lemma Pos_iter_xO (p : positive) (n : positive) :
  Zpos (Pos.iter xO p n) = Zpos p * 2 ^ Zpos n.
Proof.
  revert p. induction n as [| n IH] using Pos.peano_ind; intros p.
  - cbn. lia.
  - rewrite Pos.iter_succ, Pos2Z.inj_succ, Z.pow_succ_r by lia.
    rewrite Pos2Z.inj_xO, IH. lia.
Qed.

(** ** Right shifts with round and sticky bits *)

Lemma shr_1_spec (mrs : shr_record) :
  0 <= shr_m mrs ->
  shr_m (shr_1 mrs) = shr_m mrs / 2 /\
  shr_r (shr_1 mrs) = Z.odd (shr_m mrs) /\
  shr_s (shr_1 mrs) = shr_r mrs || shr_s mrs.
Proof.
  destruct mrs as [m r s]; cbn [shr_m shr_r shr_s]; intros Hm.
  destruct m as [| [p | p |] | p]; try lia; cbn [shr_1 shr_m shr_r shr_s].
  - repeat split; reflexivity.
  - repeat split; try reflexivity.
    rewrite Pos2Z.inj_xI. apply Z.div_unique with (r := 1); lia.
  - repeat split; try reflexivity.
    rewrite Pos2Z.inj_xO. apply Z.div_unique with (r := 0); lia.
  - repeat split; reflexivity.
Qed.

Lemma holds_shr_1 (N D : Z) (mrs : shr_record) :
  0 <= N -> 0 < D -> Fl.holds N D mrs -> Fl.holds N (D * 2) (shr_1 mrs).
Proof.
  intros HN HD [Hm Hex].
  assert (0 <= shr_m mrs) by (rewrite Hm; apply Z.div_pos; lia).
  destruct (shr_1_spec mrs) as (H1 & H2 & H3); [assumption |].
  split.
  - rewrite H1, Hm, Z.div_div by lia. reflexivity.
  - intros Hmod. rewrite H2, H3.
    assert (HND : N mod D = 0).
    { apply Z.mod_divide in Hmod; [| lia]. apply Z.mod_divide; [lia |].
      destruct Hmod as [k Hk]. exists (k * 2). lia. }
    destruct (Hex HND) as [-> ->]. split; [| reflexivity].
    rewrite Hm.
    apply Z.mod_divide in Hmod; [| lia]. destruct Hmod as [k Hk].
    replace (N / D) with (2 * k).
    + rewrite Z.odd_mul. reflexivity.
    + apply Z.div_unique with (r := 0); lia.
Qed.

Lemma holds_iter (n : nat) (N D : Z) (mrs : shr_record) :
  0 <= N -> 0 < D -> Fl.holds N D mrs ->
  Fl.holds N (D * 2 ^ Z.of_nat n) (Nat.iter n shr_1 mrs).
Proof.
  intros HN HD H. induction n as [| n IH].
  - cbn [Nat.iter]. change (2 ^ Z.of_nat 0) with 1. now rewrite Z.mul_1_r.
  - cbn [Nat.iter]. rewrite Nat2Z.inj_succ, Z.pow_succ_r by lia.
    replace (D * (2 * 2 ^ Z.of_nat n)) with (D * 2 ^ Z.of_nat n * 2) by lia.
    apply holds_shr_1; [lia | | exact IH].
    assert (0 < 2 ^ Z.of_nat n) by (apply Z.pow_pos_nonneg; lia). nia.
Qed.

(** [shr] by [n] places: the exponent moves by [max n 0]. *)
Lemma holds_shr (N D : Z) (mrs : shr_record) (e n : Z) :
  0 <= N -> 0 < D -> Fl.holds N D mrs ->
  Fl.holds N (D * 2 ^ Z.max n 0) (fst (shr mrs e n)) /\
  snd (shr mrs e n) = e + Z.max n 0.
Proof.
  intros HN HD H. destruct n as [| p | p]; cbn [shr fst snd].
  - rewrite Z.max_id. change (2 ^ 0) with 1. rewrite Z.mul_1_r, Z.add_0_r. auto.
  - rewrite Z.max_l by lia. split; [| reflexivity].
    rewrite iter_pos_nat, <- (positive_nat_Z p). now apply holds_iter.
  - rewrite Z.max_r by lia. change (2 ^ 0) with 1. rewrite Z.mul_1_r, Z.add_0_r. auto.
Qed.

Lemma holds_of_loc (N D m : Z) (l : location) :
  m = N / D -> (N mod D = 0 -> l = loc_Exact) ->
  Fl.holds N D (shr_record_of_loc m l).
Proof.
  intros Hm Hl. split.
  - destruct l as [| []]; exact Hm.
  - intros H. rewrite (Hl H). split; reflexivity.
Qed.

Lemma round_nearest_even_bounds (mrs : shr_record) :
  let m' := round_nearest_even (shr_m mrs) (loc_of_shr_record mrs) in
  shr_m mrs <= m' <= shr_m mrs + 1 /\
  (shr_r mrs = false /\ shr_s mrs = false -> m' = shr_m mrs).
Proof.
  destruct mrs as [m [] []]; cbn; repeat split; try lia;
    try (destruct (Z.even m); lia); intros [? ?]; congruence.
Qed.

(** ** Rounding never crosses a representable bound *)

Section RoundBound.
Variables prec emax : Z.
Hypothesis Hprec : 1 < prec.
Hypothesis Hemax : prec < emax.

Local Abbreviation emin := (emin prec emax).
Local Abbreviation fexp := (fexp prec emax).
Local Abbreviation below := (Fl.below prec emax).
Local Abbreviation finite_valid := (Fl.finite_valid prec emax).
Local Abbreviation mag := (Fl.mag prec emax).
Local Abbreviation within := (Fl.within prec emax).
Local Abbreviation representable := (Fl.representable prec emax).
Local Abbreviation int_float := (Fl.int_float prec).

Lemma pow2_pos (k : Z) : 0 <= k -> 0 < 2 ^ k.
Proof. intros; apply Z.pow_pos_nonneg; lia. Qed.

Lemma pow2_split (a b : Z) : 0 <= b <= a -> 2 ^ a = 2 ^ (a - b) * 2 ^ b.
Proof. intros. rewrite <- Z.pow_add_r by lia. f_equal. lia. Qed.

Lemma pow2_lt_inv (a b : Z) : 0 <= a -> 2 ^ a < 2 ^ b -> a < b.
Proof.
  intros Ha H. destruct (Z_lt_le_dec a b) as [|Hle]; [assumption | exfalso].
  destruct (Z_lt_le_dec b 0).
  - rewrite (Z.pow_neg_r 2 b) in H by lia. pose proof (pow2_pos a Ha). lia.
  - assert (2 ^ b <= 2 ^ a) by (apply Z.pow_le_mono_r; lia). lia.
Qed.

Lemma binary_round_aux_below (sx : bool) (N D mx ex : Z) (lx : location)
    (mB eB lo : Z) :
  0 <= N -> 0 < D -> mx = N / D -> (N mod D = 0 -> lx = loc_Exact) ->
  ex <= fexp (Zdigits2 mx + ex) ->
  2 ^ (prec - 1) <= mB < 2 ^ prec -> emin <= eB <= emax - prec ->
  lo <= ex -> lo <= eB ->
  N * 2 ^ (ex - lo) <= D * mB * 2 ^ (eB - lo) ->
  below mB eB (binary_round_aux prec emax sx mx ex lx).
Proof.
  intros HN HD Hmx Hlx Hex [HmB1 HmB2] [HeB1 HeB2] Hlo1 Hlo2 Hle.
  assert (Hmx0 : 0 <= mx) by (subst mx; apply Z.div_pos; lia).
  set (dq := Zdigits2 mx) in *.
  set (t := fexp (dq + ex)) in *.
  assert (Ht_emin : emin <= t) by (unfold t, SpecFloat.fexp; lia).
  assert (Ht_dq : dq + ex - prec <= t) by (unfold t, SpecFloat.fexp; lia).
  (* the quotient does not exceed the bound *)
  assert (HmxD : mx * D <= N).
  { subst mx. pose proof (Z.mul_div_le N D HD). lia. }
  assert (Hmxle : mx * 2 ^ (ex - lo) <= mB * 2 ^ (eB - lo)).
  { assert (0 < 2 ^ (ex - lo)) by (apply pow2_pos; lia).
    assert (mx * 2 ^ (ex - lo) * D <= mB * 2 ^ (eB - lo) * D) by nia. nia. }
  assert (Hdq_le : dq + ex <= prec + eB).
  { destruct (Z.eq_dec mx 0) as [Hz | Hnz].
    - unfold dq. rewrite Hz. cbn [Zdigits2].
      unfold t, dq, SpecFloat.fexp in Hex. rewrite Hz in Hex. cbn [Zdigits2] in Hex. lia.
    - pose proof (Zdigits2_bounds mx ltac:(lia)) as [Hd1 _]. fold dq in Hd1.
      pose proof (Zdigits2_pos mx ltac:(lia)) as Hd0. fold dq in Hd0.
      assert (H1 : 2 ^ (dq - 1 + (ex - lo)) < 2 ^ (prec + (eB - lo))).
      { rewrite !Z.pow_add_r by lia.
        assert (0 < 2 ^ (ex - lo)) by (apply pow2_pos; lia).
        assert (0 < 2 ^ (eB - lo)) by (apply pow2_pos; lia).
        nia. }
      apply pow2_lt_inv in H1; lia. }
  assert (Ht_eB : t <= eB) by (unfold t, SpecFloat.fexp; lia).
  (* first shift *)
  unfold binary_round_aux, shr_fexp. fold dq. fold t.
  pose proof (holds_shr N D (shr_record_of_loc mx lx) ex (t - ex) HN HD
                (holds_of_loc N D mx lx Hmx Hlx)) as [Hh He].
  destruct (shr (shr_record_of_loc mx lx) ex (t - ex)) as [mrs' e'].
  cbn [fst snd] in Hh, He.
  rewrite Z.max_l in Hh, He by lia.
  assert (He' : e' = t) by lia. clear He. subst e'.
  set (n := t - ex) in *.
  assert (Hn : 0 <= n) by (unfold n; lia).
  assert (Hpn : 0 < 2 ^ n) by (apply pow2_pos; lia).
  destruct Hh as [Hm' Hexact].
  assert (Hm'mx : shr_m mrs' = mx / 2 ^ n).
  { rewrite Hm', Hmx, Z.div_div by lia. reflexivity. }
  assert (Hm'0 : 0 <= shr_m mrs') by (rewrite Hm'mx; apply Z.div_pos; lia).
  assert (Hm'prec : shr_m mrs' < 2 ^ prec).
  { rewrite Hm'mx. apply Z.div_lt_upper_bound; [lia |].
    destruct (Z.eq_dec mx 0) as [Hz | Hnz].
    - rewrite Hz. pose proof (pow2_pos prec ltac:(lia)). nia.
    - pose proof (Zdigits2_bounds mx ltac:(lia)) as [_ Hd2]. fold dq in Hd2.
      pose proof (Zdigits2_pos mx ltac:(lia)) as Hd0. fold dq in Hd0.
      rewrite <- Z.pow_add_r by lia.
      assert (2 ^ dq <= 2 ^ (n + prec)) by (apply Z.pow_le_mono_r; unfold n; lia).
      lia. }
  (* the bound, in units of 2^t *)
  set (B' := mB * 2 ^ (eB - t)).
  assert (HNB : N <= D * 2 ^ n * B').
  { unfold B'.
    assert (H1 : 2 ^ (eB - lo) = 2 ^ (eB - t) * 2 ^ n * 2 ^ (ex - lo)).
    { rewrite <- !Z.pow_add_r by (unfold n; lia). f_equal. unfold n. lia. }
    rewrite H1 in Hle.
    assert (0 < 2 ^ (ex - lo)) by (apply pow2_pos; lia).
    assert (N * 2 ^ (ex - lo) <= D * 2 ^ n * (mB * 2 ^ (eB - t)) * 2 ^ (ex - lo)) by lia.
    nia. }
  pose proof (round_nearest_even_bounds mrs') as [[Hr1 Hr2] Hr3].
  cbv zeta in Hr1, Hr2, Hr3.
  set (m'' := round_nearest_even (shr_m mrs') (loc_of_shr_record mrs')) in *.
  assert (Hm''B : m'' <= B').
  { assert (HDn : 0 < D * 2 ^ n) by nia.
    assert (Hq : shr_m mrs' <= B').
    { rewrite Hm'. apply Z.div_le_upper_bound; lia. }
    destruct (Z.eq_dec (shr_m mrs') B') as [Heq | Hne]; [| lia].
    assert (Hmod : N mod (D * 2 ^ n) = 0).
    { pose proof (Z.div_mod N (D * 2 ^ n) ltac:(lia)) as Hdm.
      pose proof (Z.mod_pos_bound N (D * 2 ^ n) HDn) as Hmb.
      rewrite <- Hm', Heq in Hdm. lia. }
    rewrite (Hr3 (Hexact Hmod)). lia. }
  assert (Hm''0 : 0 <= m'') by lia.
  assert (Hm''prec : m'' <= 2 ^ prec) by lia.
  (* when the exponent is above emin the mantissa is full *)
  assert (Hfull : emin < t -> 2 ^ (prec - 1) <= shr_m mrs').
  { intros Hgt.
    assert (Htq : t = dq + ex - prec) by (unfold t, SpecFloat.fexp in *; lia).
    assert (Hnq : n = dq - prec) by (unfold n; lia).
    assert (Hmxpos : 0 < mx).
    { destruct (Z.eq_dec mx 0) as [Hz | Hnz]; [| lia].
      exfalso. unfold dq in Htq. rewrite Hz in Htq. cbn [Zdigits2] in Htq. lia. }
    pose proof (Zdigits2_bounds mx Hmxpos) as [Hd1 _]. fold dq in Hd1.
    rewrite Hm'mx. apply Z.div_le_lower_bound; [lia |].
    rewrite <- Z.pow_add_r by lia.
    replace (n + (prec - 1)) with (dq - 1) by lia. exact Hd1. }
  destruct (Z.eq_dec m'' (2 ^ prec)) as [Htop | Hntop].
  - (* the mantissa carried into a new binade *)
    assert (Hdig : Zdigits2 m'' = prec + 1).
    { apply Zdigits2_unique; [| rewrite Htop; apply pow2_pos; lia | lia].
      rewrite Htop. replace (prec + 1 - 1) with prec by lia.
      rewrite Z.pow_add_r by lia. pose proof (pow2_pos prec ltac:(lia)). lia. }
    rewrite Hdig.
    assert (Hf : fexp (prec + 1 + t) - t = 1) by (unfold SpecFloat.fexp; lia).
    rewrite Hf.
    pose proof (holds_shr m'' 1 (shr_record_of_loc m'' loc_Exact) t 1 Hm''0 ltac:(lia)
                  (holds_of_loc m'' 1 m'' loc_Exact ltac:(now rewrite Z.div_1_r) ltac:(auto)))
      as [[Hh2 _] He2].
    destruct (shr (shr_record_of_loc m'' loc_Exact) t 1) as [mrs2 e2].
    cbn [fst snd] in Hh2, He2. rewrite Z.max_l in Hh2, He2 by lia.
    change (1 * 2 ^ 1) with 2 in Hh2.
    assert (Hm2 : shr_m mrs2 = 2 ^ (prec - 1)).
    { rewrite Hh2, Htop. replace prec with (prec - 1 + 1) at 1 by lia.
      rewrite Z.pow_add_r by lia. change (2 ^ 1) with 2.
      rewrite Z.div_mul by lia. reflexivity. }
    rewrite Hm2.
    pose proof (pow2_pos (prec - 1) ltac:(lia)) as Hpp.
    assert (Hp : exists p, 2 ^ (prec - 1) = Zpos p).
    { destruct (2 ^ (prec - 1)) as [| p |]; try lia. now exists p. }
    destruct Hp as [p Hp]. rewrite Hp.
    assert (HtB : t < eB).
    { assert (H1 : 2 ^ prec < 2 ^ (prec + (eB - t))).
      { rewrite Z.pow_add_r by lia. unfold B' in Hm''B.
        assert (0 < 2 ^ (eB - t)) by (apply pow2_pos; lia). nia. }
      apply pow2_lt_inv in H1; lia. }
    subst e2.
    replace (t + 1 <=? emax - prec) with true by (symmetry; apply Z.leb_le; lia).
    cbn [Fl.below]. split.
    + unfold bounded, canonical_mantissa.
      apply andb_true_iff. split; [| apply Z.leb_le; lia].
      apply Z.eqb_eq.
      assert (Hd : Zpos (digits2_pos p) = prec).
      { change (Zpos (digits2_pos p)) with (Zdigits2 (Zpos p)).
        rewrite <- Hp.
        apply Zdigits2_unique; [| lia | lia].
        split; [lia |].
        apply Z.pow_lt_mono_r; lia. }
      rewrite Hd. unfold SpecFloat.fexp. lia.
    + rewrite <- Hp.
      replace (t + 1 - emin) with (1 + (t - emin)) by lia.
      rewrite (pow2_split (eB - emin) (t - emin)) by lia.
      replace (eB - emin - (t - emin)) with (eB - t) by lia.
      rewrite Z.pow_add_r by lia. change (2 ^ 1) with 2.
      assert (0 < 2 ^ (t - emin)) by (apply pow2_pos; lia).
      assert (2 ^ (prec - 1) * 2 = 2 ^ prec).
      { replace prec with (prec - 1 + 1) at 2 by lia.
        rewrite Z.pow_add_r by lia. reflexivity. }
      unfold B' in Hm''B. nia.
  - (* no carry: the second shift does nothing *)
    assert (Hdle : Zdigits2 m'' <= prec) by (apply Zdigits2_le; lia).
    assert (Hcanon : fexp (Zdigits2 m'' + t) = t).
    { destruct (Z.eq_dec t emin) as [Hte | Hte].
      - unfold SpecFloat.fexp. lia.
      - assert (prec <= Zdigits2 m'').
        { apply Zdigits2_ge; [| lia]. specialize (Hfull ltac:(lia)). lia. }
        unfold SpecFloat.fexp. lia. }
    rewrite Hcanon, Z.sub_diag. cbn [shr shr_record_of_loc shr_m].
    destruct m'' as [| p | p] eqn:Hp; [exact I | | lia].
    replace (t <=? emax - prec) with true by (symmetry; apply Z.leb_le; lia).
    cbn [Fl.below]. split.
    + unfold bounded, canonical_mantissa.
      apply andb_true_iff. split; [| apply Z.leb_le; lia].
      apply Z.eqb_eq. exact Hcanon.
    + rewrite (pow2_split (eB - emin) (t - emin)) by lia.
      replace (eB - emin - (t - emin)) with (eB - t) by lia.
      assert (0 < 2 ^ (t - emin)) by (apply pow2_pos; lia).
      unfold B' in Hm''B. nia.
Qed.

Lemma shl_align_spec (mx : positive) (ex ex' : Z) :
  let '(mz, ez) := shl_align mx ex ex' in
  ez = Z.min ex ex' /\ Zpos mz = Zpos mx * 2 ^ (ex - ez).
Proof.
  unfold shl_align. destruct (ex' - ex) as [| d | d] eqn:Hd.
  - split; [lia |]. rewrite Z.sub_diag. cbn. lia.
  - split; [lia |]. rewrite Z.sub_diag. cbn. lia.
  - split; [lia |]. rewrite Pos_iter_xO. f_equal. f_equal. lia.
Qed.

Lemma binary_round_below (sx : bool) (mx : positive) (ex mB eB lo : Z) :
  2 ^ (prec - 1) <= mB < 2 ^ prec -> emin <= eB <= emax - prec ->
  lo <= ex -> lo <= emin ->
  Zpos mx * 2 ^ (ex - lo) <= mB * 2 ^ (eB - lo) ->
  below mB eB (binary_round prec emax sx mx ex).
Proof.
  intros HmB HeB Hlo1 Hlo2 Hle. unfold binary_round.
  pose proof (shl_align_spec mx ex (fexp (Zpos (digits2_pos mx) + ex))) as Hs.
  destruct (shl_align mx ex (fexp (Zpos (digits2_pos mx) + ex))) as [mz ez].
  destruct Hs as [Hez Hmz].
  assert (Hdz : Zdigits2 (Zpos mz) + ez = Zpos (digits2_pos mx) + ex).
  { rewrite Hmz, Zdigits2_mul_pow2 by lia. cbn [Zdigits2]. lia. }
  assert (Hmin : emin <= fexp (Zpos (digits2_pos mx) + ex))
    by (unfold SpecFloat.fexp; lia).
  apply (binary_round_aux_below sx (Zpos mz) 1 (Zpos mz) ez loc_Exact mB eB lo);
    try lia; auto.
  - now rewrite Z.div_1_r.
  - rewrite Hdz. lia.
  - rewrite Hmz, <- Z.mul_assoc, <- Z.pow_add_r by lia.
    replace (ex - ez + (ez - lo)) with (ex - lo) by lia. lia.
Qed.

Lemma bounded_inv (m : positive) (e : Z) :
  bounded prec emax m e = true ->
  emin <= e <= emax - prec /\ Zpos m < 2 ^ prec /\
  (emin < e -> 2 ^ (prec - 1) <= Zpos m).
Proof.
  unfold bounded, canonical_mantissa. intros H.
  apply andb_true_iff in H. destruct H as [H1 H2].
  apply Z.eqb_eq in H1. apply Z.leb_le in H2.
  pose proof (digits2_pos_bounds m) as [Hd1 Hd2].
  assert (Hdp : Zpos (digits2_pos m) <= prec) by (unfold SpecFloat.fexp in H1; lia).
  repeat split; try (unfold SpecFloat.fexp in H1; lia).
  - assert (2 ^ Zpos (digits2_pos m) <= 2 ^ prec) by (apply Z.pow_le_mono_r; lia). lia.
  - intros Hgt.
    assert (Zpos (digits2_pos m) = prec) by (unfold SpecFloat.fexp in H1; lia).
    replace (prec - 1) with (Zpos (digits2_pos m) - 1) by lia. exact Hd1.
Qed.

Lemma mag_nonneg (x : spec_float) : finite_valid x = true -> 0 <= mag x.
Proof.
  destruct x as [| | | s m e]; cbn [Fl.mag Fl.finite_valid]; lia.
Qed.

Lemma representable_pos (B : Z) : representable B -> 0 < B.
Proof.
  intros (mB & eB & HmB & HeB & ->).
  pose proof (pow2_pos (eB - emin) ltac:(lia)).
  pose proof (pow2_pos (prec - 1) ltac:(lia)). nia.
Qed.

Lemma below_within (mB eB : Z) (r : spec_float) :
  2 ^ (prec - 1) <= mB < 2 ^ prec -> emin <= eB <= emax - prec ->
  below mB eB r -> within (mB * 2 ^ (eB - emin)) r.
Proof.
  intros HmB HeB Hb.
  destruct r as [| | | s' m' e']; cbn [Fl.below] in Hb; try contradiction.
  - split; [reflexivity |]. cbn [Fl.mag].
    pose proof (representable_pos (mB * 2 ^ (eB - emin))
                  ltac:(exists mB, eB; auto)). lia.
  - destruct Hb. split; assumption.
Qed.

(** Rounding [m * 2^e], given with any exponent, stays within a
    representable bound on its magnitude. *)
Lemma binary_normalize_within_gen (m e B lo : Z) (sz : bool) :
  representable B -> lo <= e -> lo <= emin ->
  Z.abs m * 2 ^ (e - lo) <= B * 2 ^ (emin - lo) ->
  within B (binary_normalize prec emax m e sz).
Proof.
  intros HB He Hlo Hle. pose proof (representable_pos B HB) as HBpos.
  destruct HB as (mB & eB & HmB & HeB & ->).
  assert (Hgen : forall s p, Zpos p * 2 ^ (e - lo) <= mB * 2 ^ (eB - emin) * 2 ^ (emin - lo) ->
                 within (mB * 2 ^ (eB - emin)) (binary_round prec emax s p e)).
  { intros s p Hp. apply below_within; try assumption.
    apply (binary_round_below s p e mB eB lo HmB HeB He Hlo).
    rewrite <- Z.mul_assoc, <- Z.pow_add_r in Hp by lia.
    replace (eB - emin + (emin - lo)) with (eB - lo) in Hp by lia. exact Hp. }
  destruct m as [| p | p]; cbn [binary_normalize].
  - split; [reflexivity |]. cbn [Fl.mag]. lia.
  - apply Hgen. exact Hle.
  - apply Hgen. exact Hle.
Qed.

Lemma binary_normalize_within (m e B : Z) (sz : bool) :
  representable B -> emin <= e -> Z.abs m * 2 ^ (e - emin) <= B ->
  within B (binary_normalize prec emax m e sz).
Proof.
  intros HB He Hle. apply (binary_normalize_within_gen m e B emin); try lia; auto.
  rewrite Z.sub_diag. change (2 ^ 0) with 1. lia.
Qed.

Lemma SFadd_within (X Y B : Z) (x y : spec_float) :
  within X x -> within Y y -> representable B -> X + Y <= B ->
  within B (SFadd prec emax x y).
Proof.
  intros [Hfx Hx] [Hfy Hy] HB HXY.
  pose proof (mag_nonneg x Hfx) as Hx0. pose proof (mag_nonneg y Hfy) as Hy0.
  destruct x as [sx | sx | | sx mx ex]; try discriminate;
    destruct y as [sy | sy | | sy my ey]; try discriminate.
  - cbn [SFadd]. destruct sx, sy; split; try reflexivity; cbn [Fl.mag] in *; lia.
  - cbn [SFadd]. split; [exact Hfy | lia].
  - cbn [SFadd]. split; [exact Hfx | lia].
  - cbn [Fl.finite_valid] in Hfx, Hfy. cbn [Fl.mag] in *.
    pose proof (bounded_inv mx ex Hfx) as ([Hex1 _] & _ & _).
    pose proof (bounded_inv my ey Hfy) as ([Hey1 _] & _ & _).
    cbn [SFadd]. cbv zeta.
    set (ez := Z.min ex ey).
    pose proof (shl_align_spec mx ex ez) as Hsx.
    pose proof (shl_align_spec my ey ez) as Hsy.
    destruct (shl_align mx ex ez) as [mx' ex'], (shl_align my ey ez) as [my' ey'].
    destruct Hsx as [Hex' Hmx'], Hsy as [Hey' Hmy']. cbn [fst].
    assert (ex' = ez) by (unfold ez in *; lia).
    assert (ey' = ez) by (unfold ez in *; lia). subst ex' ey'.
    apply binary_normalize_within; [exact HB | unfold ez; lia |].
    assert (Hpz : 0 < 2 ^ (ez - emin)) by (apply pow2_pos; unfold ez; lia).
    assert (H1 : Zpos mx' * 2 ^ (ez - emin) = Zpos mx * 2 ^ (ex - emin)).
    { rewrite Hmx', <- Z.mul_assoc, <- Z.pow_add_r by (unfold ez; lia).
      f_equal. f_equal. lia. }
    assert (H2 : Zpos my' * 2 ^ (ez - emin) = Zpos my * 2 ^ (ey - emin)).
    { rewrite Hmy', <- Z.mul_assoc, <- Z.pow_add_r by (unfold ez; lia).
      f_equal. f_equal. lia. }
    assert (Habs : Z.abs (cond_Zopp sx (Zpos mx') + cond_Zopp sy (Zpos my'))
                   <= Zpos mx' + Zpos my').
    { destruct sx, sy; cbn [cond_Zopp]; lia. }
    nia.
Qed.

Lemma representable_int (c g : Z) :
  0 < c < 2 ^ prec -> emin + prec <= g <= emax - prec ->
  representable (c * 2 ^ (g - emin)).
Proof.
  intros [Hc1 Hc2] [Hg1 Hg2].
  pose proof (Zdigits2_bounds c Hc1) as [Hd1 Hd2].
  pose proof (Zdigits2_pos c Hc1) as Hd0.
  assert (Hdp : Zdigits2 c <= prec) by (apply Zdigits2_le; lia).
  set (sh := prec - Zdigits2 c).
  exists (c * 2 ^ sh), (g - sh). unfold sh. repeat split; try lia.
  - replace (prec - 1) with (Zdigits2 c - 1 + (prec - Zdigits2 c)) by lia.
    rewrite Z.pow_add_r by lia.
    pose proof (pow2_pos (prec - Zdigits2 c) ltac:(lia)). nia.
  - replace prec with (Zdigits2 c + (prec - Zdigits2 c)) at 2 by lia.
    rewrite Z.pow_add_r by lia.
    pose proof (pow2_pos (prec - Zdigits2 c) ltac:(lia)). nia.
  - rewrite <- Z.mul_assoc, <- Z.pow_add_r by lia. f_equal. f_equal. lia.
Qed.

Lemma shiftl_case (m sh : Z) :
  0 <= sh ->
  match sh with Z.pos _ => Z.shiftl m sh | 0 => m | Z.neg _ => 0 end = m * 2 ^ sh.
Proof.
  intros H. destruct sh as [| p | p]; try lia.
  rewrite Z.shiftl_mul_pow2 by lia. reflexivity.
Qed.

Lemma fexp_div_aux (d1 e1 d2 e2 dq : Z) :
  d1 + (e1 - e2 - Z.min (fexp (d1 + e1 - (d2 + e2))) (e1 - e2)) - d2 <= dq ->
  Z.min (fexp (d1 + e1 - (d2 + e2))) (e1 - e2)
  <= fexp (dq + Z.min (fexp (d1 + e1 - (d2 + e2))) (e1 - e2)).
Proof. unfold SpecFloat.fexp. lia. Qed.

Lemma new_location_exact (nb : Z) : new_location nb 0 = loc_Exact.
Proof. unfold new_location. destruct (Z.even nb); reflexivity. Qed.

(** A quotient stays within a representable bound on the exact ratio. *)
Lemma SFdiv_within (X B : Z) (x y : spec_float) :
  within X x -> finite_valid y = true -> 0 < mag y ->
  representable B -> X * 2 ^ (- emin) <= mag y * B ->
  within B (SFdiv prec emax x y).
Proof.
  intros [Hfx Hx] Hfy Hy0 HB Hle.
  pose proof (representable_pos B HB) as HBpos.
  destruct y as [sy | sy | | sy m2 e2]; try discriminate; cbn [Fl.mag] in Hy0; try lia.
  destruct x as [sx | sx | | sx m1 e1]; try discriminate.
  { cbn [SFdiv]. split; [reflexivity | cbn [Fl.mag]; lia]. }
  cbn [Fl.finite_valid] in Hfx, Hfy. cbn [Fl.mag] in Hx, Hle.
  pose proof (bounded_inv m1 e1 Hfx) as ([He1a He1b] & Hm1 & _).
  pose proof (bounded_inv m2 e2 Hfy) as ([He2a He2b] & Hm2 & _).
  destruct HB as (mB & eB & HmB & HeB & ->).
  cbn [SFdiv]. unfold SFdiv_core_binary.
  set (d1 := Zdigits2 (Zpos m1)). set (d2 := Zdigits2 (Zpos m2)).
  set (e' := Z.min (fexp (d1 + e1 - (d2 + e2))) (e1 - e2)).
  set (sh := e1 - e2 - e').
  assert (Hsh : 0 <= sh) by (unfold sh, e'; lia).
  set (m' := match sh with Z.pos _ => Z.shiftl (Zpos m1) sh | 0 => Zpos m1 | Z.neg _ => 0 end).
  assert (Hm' : m' = Zpos m1 * 2 ^ sh).
  { unfold m'. apply shiftl_case. exact Hsh. }
  clearbody m'.
  pose proof (pow2_pos sh Hsh) as Hpsh.
  assert (Hq : fst (Z.div_eucl m' (Zpos m2)) = m' / Zpos m2) by reflexivity.
  assert (Hr : snd (Z.div_eucl m' (Zpos m2)) = m' mod Zpos m2) by reflexivity.
  destruct (Z.div_eucl m' (Zpos m2)) as [q r]. cbn [fst snd] in Hq, Hr.
  pose proof (Zdigits2_bounds (Zpos m1) ltac:(lia)) as [Hd1a Hd1b]. fold d1 in Hd1a, Hd1b.
  pose proof (Zdigits2_bounds (Zpos m2) ltac:(lia)) as [Hd2a Hd2b]. fold d2 in Hd2a, Hd2b.
  pose proof (Zdigits2_pos (Zpos m1) ltac:(lia)) as Hd1p. fold d1 in Hd1p.
  pose proof (Zdigits2_pos (Zpos m2) ltac:(lia)) as Hd2p. fold d2 in Hd2p.
  set (lo := Z.min e' emin).
  assert (Hlo2 : 2 * emin <= lo).
  { unfold lo, e', SpecFloat.fexp, SpecFloat.emin in *. lia. }
  assert (Hlo1 : lo <= e') by (unfold lo; lia).
  assert (Hlo3 : lo <= eB) by (unfold lo; lia).
  assert (HN0 : 0 <= m') by nia.
  assert (Hexact : m' mod Zpos m2 = 0 -> new_location (Zpos m2) r = loc_Exact).
  { intros Hmod. rewrite Hr, Hmod. apply new_location_exact. }
  assert (Hcexp : e' <= fexp (Zdigits2 q + e')).
  { (* the quotient has enough digits for the chosen exponent *)
    assert (Hdq : d1 + sh - d2 <= Zdigits2 q).
    { destruct (Z_le_gt_dec (d1 + sh - d2) 0) as [Hle0 | Hgt0].
      - pose proof (Zdigits2_nonneg q). lia.
      - apply Zdigits2_ge; [| lia].
        rewrite Hq. apply Z.div_le_lower_bound; [lia |].
        rewrite Hm'.
        assert (H1 : 2 ^ (d1 + sh - d2 - 1) * 2 ^ d2 = 2 ^ (d1 - 1) * 2 ^ sh).
        { rewrite <- !Z.pow_add_r by lia. f_equal. lia. }
        pose proof (pow2_pos (d1 + sh - d2 - 1) ltac:(lia)).
        transitivity (2 ^ d2 * 2 ^ (d1 + sh - d2 - 1)).
        + apply Z.mul_le_mono_nonneg_r; lia.
        + rewrite Z.mul_comm, H1. apply Z.mul_le_mono_nonneg_r; lia. }
    exact (fexp_div_aux d1 e1 d2 e2 (Zdigits2 q) Hdq). }
  assert (Hbound : m' * 2 ^ (e' - lo) <= Zpos m2 * mB * 2 ^ (eB - lo)).
  { (* the bound on the ratio, brought to a common scale *)
    set (K := 2 ^ (e2 - emin) * 2 ^ (lo - 2 * emin)).
    assert (HK : 0 < K).
    { unfold K. pose proof (pow2_pos (e2 - emin) ltac:(lia)).
      pose proof (pow2_pos (lo - 2 * emin) ltac:(lia)). nia. }
    apply (Z.mul_le_mono_pos_r _ _ K HK).
    assert (Hemin : 0 <= - emin) by (unfold SpecFloat.emin; lia).
    assert (E1 : m' * 2 ^ (e' - lo) * K
                 = Zpos m1 * 2 ^ (e1 - emin) * 2 ^ (- emin) * 2 ^ (- emin)).
    { rewrite Hm'. unfold K.
      rewrite <- !Z.mul_assoc. f_equal.
      rewrite <- !Z.pow_add_r by lia. f_equal. unfold sh. lia. }
    assert (E2 : Zpos m2 * mB * 2 ^ (eB - lo) * K
                 = Zpos m2 * 2 ^ (e2 - emin) * (mB * 2 ^ (eB - emin)) * 2 ^ (- emin)).
    { unfold K.
      replace (Z.pos m2 * mB * 2 ^ (eB - lo) * (2 ^ (e2 - emin) * 2 ^ (lo - 2 * emin)))
        with (Z.pos m2 * mB * (2 ^ (eB - lo) * (2 ^ (e2 - emin) * 2 ^ (lo - 2 * emin)))) by ring.
      replace (Z.pos m2 * 2 ^ (e2 - emin) * (mB * 2 ^ (eB - emin)) * 2 ^ (- emin))
        with (Z.pos m2 * mB * (2 ^ (e2 - emin) * (2 ^ (eB - emin) * 2 ^ (- emin)))) by ring.
      f_equal. rewrite <- !Z.pow_add_r by lia. f_equal. lia. }
    rewrite E1, E2.
    pose proof (pow2_pos (- emin) Hemin).
    apply Z.mul_le_mono_nonneg_r; [lia |].
    transitivity (X * 2 ^ (- emin)); [| exact Hle].
    apply Z.mul_le_mono_nonneg_r; [lia | exact Hx]. }
  apply below_within; try assumption.
  exact (binary_round_aux_below (xorb sx sy) m' (Zpos m2) q e' (new_location (Zpos m2) r)
           mB eB lo HN0 ltac:(lia) Hq Hexact Hcexp HmB HeB Hlo1 Hlo3 Hbound).
Qed.

(** ** Exact results *)

Lemma binary_round_aux_canonical (s : bool) (m : positive) (e : Z) :
  bounded prec emax m e = true ->
  binary_round_aux prec emax s (Zpos m) e loc_Exact = S754_finite s m e.
Proof.
  intros Hb. pose proof Hb as Hb'.
  unfold bounded, canonical_mantissa in Hb'.
  apply andb_true_iff in Hb'. destruct Hb' as [Hc He].
  apply Z.eqb_eq in Hc.
  unfold binary_round_aux, shr_fexp. cbn [Zdigits2 shr_record_of_loc].
  rewrite Hc, Z.sub_diag. cbn [shr shr_m loc_of_shr_record round_nearest_even].
  cbn [Zdigits2]. rewrite Hc, Z.sub_diag. cbn [shr shr_m shr_record_of_loc].
  rewrite He. reflexivity.
Qed.

(** Rounding a value that a valid number [c * 2^g] represents returns
    that number. *)
Lemma binary_round_exact (s : bool) (p c : positive) (e g lo : Z) :
  bounded prec emax c g = true -> lo <= e -> lo <= g ->
  Zpos p * 2 ^ (e - lo) = Zpos c * 2 ^ (g - lo) ->
  binary_round prec emax s p e = S754_finite s c g.
Proof.
  intros Hb Hlo1 Hlo2 Hv. pose proof Hb as Hb'.
  unfold bounded, canonical_mantissa in Hb'.
  apply andb_true_iff in Hb'. destruct Hb' as [Hc He].
  apply Z.eqb_eq in Hc. apply Z.leb_le in He.
  assert (Hdig : Zpos (digits2_pos p) + e = Zpos (digits2_pos c) + g).
  { assert (H1 : Zdigits2 (Zpos p * 2 ^ (e - lo)) = Zdigits2 (Zpos c * 2 ^ (g - lo)))
      by (now rewrite Hv).
    rewrite !Zdigits2_mul_pow2 in H1 by lia. cbn [Zdigits2] in H1. lia. }
  unfold binary_round. rewrite Hdig, Hc.
  pose proof (shl_align_spec p e g) as Hs.
  destruct (shl_align p e g) as [mz ez]. destruct Hs as [Hez Hmz].
  destruct (Z_le_gt_dec g e) as [Hge | Hlt].
  - (* aligned by a left shift *)
    assert (ez = g) by lia. clear Hez. subst ez.
    assert (mz = c).
    { assert (H1 : Zpos mz * 2 ^ (g - lo) = Zpos c * 2 ^ (g - lo)).
      { rewrite Hmz, <- Z.mul_assoc, <- Z.pow_add_r by lia.
        replace (e - g + (g - lo)) with (e - lo) by lia. exact Hv. }
      pose proof (pow2_pos (g - lo) ltac:(lia)).
      apply Z.mul_cancel_r in H1; [| lia]. congruence. }
    subst mz. now apply binary_round_aux_canonical.
  - (* brought down by an exact right shift *)
    assert (ez = e) by lia. clear Hez. subst ez.
    assert (mz = p).
    { rewrite Z.sub_diag in Hmz. change (2 ^ 0) with 1 in Hmz. lia. }
    subst mz.
    assert (Hp : Zpos p = Zpos c * 2 ^ (g - e)).
    { assert (H1 : Zpos p * 2 ^ (e - lo) = Zpos c * 2 ^ (g - e) * 2 ^ (e - lo)).
      { rewrite Hv, <- Z.mul_assoc, <- Z.pow_add_r by lia.
        f_equal. f_equal. lia. }
      pose proof (pow2_pos (e - lo) ltac:(lia)).
      apply Z.mul_cancel_r in H1; [| lia]. exact H1. }
    unfold binary_round_aux, shr_fexp. cbn [Zdigits2].
    rewrite Hdig, Hc.
    pose proof (pow2_pos (g - e) ltac:(lia)) as Hpge.
    pose proof (holds_shr (Zpos p) 1 (shr_record_of_loc (Zpos p) loc_Exact) e (g - e)
                  ltac:(lia) ltac:(lia)
                  (holds_of_loc (Zpos p) 1 (Zpos p) loc_Exact
                     ltac:(now rewrite Z.div_1_r) ltac:(auto))) as [[Hm Hx] Hexp].
    destruct (shr (shr_record_of_loc (Zpos p) loc_Exact) e (g - e)) as [mrs e'].
    cbn [fst snd] in Hm, Hx, Hexp.
    rewrite Z.max_l in Hm, Hx, Hexp by lia. rewrite Z.mul_1_l in Hm, Hx.
    assert (e' = g) by lia. clear Hexp. subst e'.
    assert (Hmc : shr_m mrs = Zpos c).
    { rewrite Hm, Hp. apply Z.div_mul. lia. }
    assert (Hmod : Zpos p mod 2 ^ (g - e) = 0).
    { rewrite Hp. apply Z.mod_mul. lia. }
    destruct (Hx Hmod) as [Hr Hs]. clear Hm Hx.
    destruct mrs as [m r s']. cbn [shr_m shr_r shr_s] in *. subst m r s'.
    cbn [loc_of_shr_record round_nearest_even Zdigits2 shr_record_of_loc].
    rewrite Hc, Z.sub_diag. cbn [shr shr_m].
    replace (g <=? emax - prec) with true by (symmetry; apply Z.leb_le; lia).
    reflexivity.
Qed.

Lemma int_float_spec (n : Z) :
  0 < n < 2 ^ prec ->
  exists c, int_float n = S754_finite false c (Zdigits2 n - prec) /\
            Zpos c = n * 2 ^ (prec - Zdigits2 n) /\
            bounded prec emax c (Zdigits2 n - prec) = true.
Proof.
  intros [Hn1 Hn2].
  pose proof (Zdigits2_bounds n Hn1) as [Hd1 Hd2].
  pose proof (Zdigits2_pos n Hn1) as Hd0.
  assert (Hdp : Zdigits2 n <= prec) by (apply Zdigits2_le; lia).
  pose proof (pow2_pos (prec - Zdigits2 n) ltac:(lia)) as Hpp.
  exists (Z.to_pos (n * 2 ^ (prec - Zdigits2 n))).
  assert (Hc : Zpos (Z.to_pos (n * 2 ^ (prec - Zdigits2 n))) = n * 2 ^ (prec - Zdigits2 n)).
  { apply Z2Pos.id. nia. }
  repeat split.
  - destruct n; try lia. reflexivity.
  - exact Hc.
  - unfold bounded, canonical_mantissa. apply andb_true_iff. split.
    + apply Z.eqb_eq.
      change (Zpos (digits2_pos (Z.to_pos (n * 2 ^ (prec - Zdigits2 n)))))
        with (Zdigits2 (Zpos (Z.to_pos (n * 2 ^ (prec - Zdigits2 n))))).
      rewrite Hc, Zdigits2_mul_pow2 by lia.
      unfold SpecFloat.fexp, SpecFloat.emin. lia.
    + apply Z.leb_le. lia.
Qed.

Lemma binary_normalize_int (n : Z) :
  0 <= n < 2 ^ prec -> binary_normalize prec emax n 0 false = int_float n.
Proof.
  intros [Hn1 Hn2]. destruct n as [| p | p]; try lia; [reflexivity |].
  destruct (int_float_spec (Zpos p) ltac:(lia)) as (c & -> & Hc & Hb).
  cbn [binary_normalize].
  pose proof (Zdigits2_le (Zpos p) prec ltac:(lia) ltac:(lia)) as Hdp.
  apply (binary_round_exact false p c 0 _ (Zdigits2 (Zpos p) - prec)); try lia; auto.
  rewrite Z.sub_diag. change (2 ^ 0) with 1. rewrite Hc, Z.mul_1_r.
  f_equal. f_equal. lia.
Qed.

Lemma mag_int_float (n : Z) :
  0 <= n < 2 ^ prec ->
  finite_valid (int_float n) = true /\ mag (int_float n) = n * 2 ^ (- emin).
Proof.
  intros [Hn1 Hn2]. destruct (Z.eq_dec n 0) as [-> | Hne]; [split; reflexivity |].
  destruct (int_float_spec n ltac:(lia)) as (c & -> & Hc & Hb).
  split; [exact Hb |]. cbn [Fl.mag]. rewrite Hc.
  pose proof (Zdigits2_le n prec ltac:(lia) ltac:(lia)) as Hdp.
  pose proof (Zdigits2_pos n ltac:(lia)).
  rewrite <- Z.mul_assoc, <- Z.pow_add_r by (unfold SpecFloat.emin; lia).
  f_equal. f_equal. lia.
Qed.

(** Integers add exactly while the sum has at most [prec] bits. *)
Lemma SFadd_int_float (a b : Z) :
  0 <= a -> 0 <= b -> a + b < 2 ^ prec ->
  SFadd prec emax (int_float a) (int_float b) = int_float (a + b).
Proof.
  intros Ha Hb Hab.
  destruct (Z.eq_dec a 0) as [-> | Hane].
  { cbn [Fl.int_float]. destruct b as [| p | p]; try lia; [reflexivity |].
    cbn -[Zdigits2 Z.pow Z.mul]. reflexivity. }
  destruct (Z.eq_dec b 0) as [-> | Hbne].
  { rewrite Z.add_0_r. destruct a as [| p | p]; try lia.
    cbn -[Zdigits2 Z.pow Z.mul]. reflexivity. }
  destruct (int_float_spec a ltac:(lia)) as (ca & -> & Hca & Hba).
  destruct (int_float_spec b ltac:(lia)) as (cb & -> & Hcb & Hbb).
  destruct (int_float_spec (a + b) ltac:(lia)) as (c & -> & Hc & Hbc).
  pose proof (bounded_inv ca _ Hba) as ([Hea _] & _ & _).
  pose proof (bounded_inv cb _ Hbb) as ([Heb _] & _ & _).
  pose proof (bounded_inv c _ Hbc) as ([Hec _] & _ & _).
  pose proof (Zdigits2_le a prec ltac:(lia) ltac:(lia)) as Hda.
  pose proof (Zdigits2_le b prec ltac:(lia) ltac:(lia)) as Hdb.
  pose proof (Zdigits2_le (a + b) prec ltac:(lia) ltac:(lia)) as Hdc.
  cbn [SFadd cond_Zopp]. cbv zeta.
  set (ea := Zdigits2 a - prec) in *. set (eb := Zdigits2 b - prec) in *.
  set (ec := Zdigits2 (a + b) - prec) in *.
  set (ez := Z.min ea eb).
  pose proof (shl_align_spec ca ea ez) as Hsa.
  pose proof (shl_align_spec cb eb ez) as Hsb.
  destruct (shl_align ca ea ez) as [ma ea'], (shl_align cb eb ez) as [mb eb'].
  destruct Hsa as [Hea' Hma], Hsb as [Heb' Hmb]. cbn [fst].
  assert (ea' = ez) by (unfold ez in *; lia).
  assert (eb' = ez) by (unfold ez in *; lia). clear Hea' Heb'. subst ea' eb'.
  change (Z.pos ma + Z.pos mb) with (Z.pos (ma + mb)). cbn [binary_normalize].
  apply (binary_round_exact false (ma + mb) c ez ec emin); auto; try (unfold ez; lia).
  assert (Hez : emin <= ez) by (unfold ez; lia).
  rewrite Pos2Z.inj_add, Hma, Hmb, Hca, Hcb, Hc.
  rewrite Z.mul_add_distr_r.
  rewrite <- !Z.mul_assoc, <- !Z.pow_add_r by (unfold ea, eb, ec in *; lia).
  replace (prec - Zdigits2 a + (ea - ez + (ez - emin))) with (- emin) by (unfold ea; lia).
  replace (prec - Zdigits2 b + (eb - ez + (ez - emin))) with (- emin) by (unfold eb; lia).
  replace (prec - Zdigits2 (a + b) + (ec - emin)) with (- emin) by (unfold ec; lia).
  ring.
Qed.
End RoundBound.

(** * The sketch: calibration *)

Lemma window_S (n : nat) (st : State) :
  window (S n) st =
  mpu_feed (mpu st) (mpu_updates (mpu st))
  :: map (fun i => mpu_feed (mpu st) (S (mpu_updates (mpu st)) + i)%nat) (seq 0 n).
Proof.
  unfold window. cbn [seq map]. rewrite Nat.add_0_r. f_equal.
  rewrite <- seq_shift, map_map. apply map_ext. intros i. f_equal. lia.
Qed.

(** The sampling loop folds [accumulate] over the window. *)
Lemma sampling_loop_sums (n : nat) (ms : Z) (s : Sums) (st : State) :
  fst (sampling_loop n ms s st) = fold_left accumulate (window n st) s.
Proof.
  revert s st. induction n as [| n IH]; intros s st; [reflexivity |].
  cbn [sampling_loop]. rewrite IH, window_S. reflexivity.
Qed.

Lemma fold_accumulate (l : list MpuData) (s : Sums) :
  let r := fold_left accumulate l s in
  sAx r = fold_left add_sample (map getAccX l) (sAx s) /\
  sAy r = fold_left add_sample (map getAccY l) (sAy s) /\
  sAz r = fold_left add_sample (map getAccZ l) (sAz s) /\
  sGx r = fold_left add_sample (map getGyroX l) (sGx s) /\
  sGy r = fold_left add_sample (map getGyroY l) (sGy s) /\
  sGz r = fold_left add_sample (map getGyroZ l) (sGz s).
Proof.
  revert s. induction l as [| d l IH]; intros s; cbn [fold_left map].
  - repeat split.
  - apply (IH (accumulate s d)).
Qed.

(** ** Exact sums and quotients in binary64 *)

Lemma feq_f1 (x : float) : feq x f1 -> x = f1.
Proof.
  unfold feq, SFeqb. change f1 with (S754_finite false 8388608 (-23)).
  destruct x as [s | s | | s m e]; cbn [SFcompare]; try discriminate.
  - destruct s; discriminate.
  - destruct s; [discriminate |].
    destruct (Z.compare_spec e (-23)) as [-> | |]; try discriminate.
    destruct (Pos.compare_cont Eq m 8388608) eqn:Hm; try discriminate.
    apply Pos.compare_eq in Hm. now subst.
Qed.

Lemma feq_f0 (x : float) : feq x f0 -> exists s, x = S754_zero s.
Proof.
  unfold feq, SFeqb, f0.
  destruct x as [s | s | | s m e]; cbn [SFcompare]; try discriminate.
  - intros _. now exists s.
  - destruct s; discriminate.
  - destruct s; discriminate.
Qed.

Lemma F64_div_self (s : bool) (m : positive) (e : Z) :
  F64.div (S754_finite s m e) (S754_finite s m e) = f2d f1.
Proof.
  unfold F64.div. cbn [SFdiv]. unfold SFdiv_core_binary. cbv zeta.
  replace (Zdigits2 (Z.pos m) + e - (Zdigits2 (Z.pos m) + e)) with 0 by lia.
  replace (e - e) with 0 by lia.
  change (Z.min (fexp F64.prec F64.emax 0) 0) with (-53).
  change (0 - -53) with 53. cbv iota.
  rewrite Z.shiftl_mul_pow2 by lia.
  assert (Hq : fst (Z.div_eucl (Z.pos m * 2 ^ 53) (Z.pos m)) = 2 ^ 53).
  { change (fst (Z.div_eucl (Z.pos m * 2 ^ 53) (Z.pos m)))
      with ((Z.pos m * 2 ^ 53) / Z.pos m).
    rewrite Z.mul_comm. apply Z.div_mul. lia. }
  assert (Hr : snd (Z.div_eucl (Z.pos m * 2 ^ 53) (Z.pos m)) = 0).
  { change (snd (Z.div_eucl (Z.pos m * 2 ^ 53) (Z.pos m)))
      with ((Z.pos m * 2 ^ 53) mod Z.pos m).
    rewrite Z.mul_comm. apply Z.mod_mul. lia. }
  destruct (Z.div_eucl (Z.pos m * 2 ^ 53) (Z.pos m)) as [q r].
  cbn [fst snd] in Hq, Hr. subst q r.
  rewrite new_location_exact, xorb_nilpotent. reflexivity.
Qed.

Lemma F64_bounds : 1 < F64.prec /\ F64.prec < F64.emax.
Proof. unfold F64.prec, F64.emax. lia. Qed.

Lemma F32_bounds : 1 < F32.prec /\ F32.prec < F32.emax.
Proof. unfold F32.prec, F32.emax. lia. Qed.

Lemma u2d_int_float (n : N) :
  (n < 2 ^ 53)%N -> u2d n = Fl.int_float F64.prec (Z.of_N n).
Proof.
  intros Hn. unfold u2d, F64.of_Z.
  apply binary_normalize_int; try apply F64_bounds.
  change (2 ^ F64.prec) with (Z.of_N (2 ^ 53)). lia.
Qed.

(** Adding [n] readings of exactly 1.0 gives exactly [n]. *)
Lemma sum_of_ones (l : list float) (k : Z) :
  Forall (fun x => feq x f1) l -> 0 <= k -> k + Z.of_nat (length l) < 2 ^ 53 ->
  fold_left add_sample l (Fl.int_float F64.prec k)
  = Fl.int_float F64.prec (k + Z.of_nat (length l)).
Proof.
  revert k. induction l as [| x l IH]; intros k Hall Hk Hlen.
  - cbn [fold_left length]. now rewrite Z.add_0_r.
  - inversion Hall as [| ? ? Hx Hl]; subst.
    apply feq_f1 in Hx. subst x.
    cbn [fold_left length] in *. rewrite Nat2Z.inj_succ in *.
    unfold add_sample at 2.
    change (f2d f1) with (Fl.int_float F64.prec 1).
    unfold F64.add.
    rewrite SFadd_int_float; try apply F64_bounds; try lia;
      [| change (2 ^ F64.prec) with (2 ^ 53); lia].
    rewrite IH; auto; try lia. f_equal. lia.
Qed.

(** Adding readings of zero, of either sign, leaves the sum at +0. *)
Lemma sum_of_zeros (l : list float) :
  Forall (fun x => feq x f0) l -> fold_left add_sample l d0 = d0.
Proof.
  induction l as [| x l IH]; intros Hall; [reflexivity |].
  inversion Hall as [| ? ? Hx Hl]; subst.
  apply feq_f0 in Hx. destruct Hx as [s ->].
  cbn [fold_left].
  replace (add_sample d0 (S754_zero s)) with d0 by (destruct s; reflexivity).
  auto.
Qed.

(** ** What a calibration run computes *)

Lemma same_globals_refl (st : State) : same_globals st st.
Proof. repeat split. Qed.

Lemma same_globals_trans (a b c : State) :
  same_globals a b -> same_globals b c -> same_globals a c.
Proof.
  unfold same_globals. intros H1 H2.
  destruct H1 as (? & ? & ? & ? & ? & ? & ? & ? & ? & ?).
  destruct H2 as (? & ? & ? & ? & ? & ? & ? & ? & ? & ?).
  repeat split; congruence.
Qed.

Lemma sampling_loop_frame (n : nat) (ms : Z) (s : Sums) (st : State) :
  same_globals st (snd (sampling_loop n ms s st)).
Proof.
  revert s st. induction n as [| n IH]; intros s st.
  - apply same_globals_refl.
  - cbn [sampling_loop].
    eapply same_globals_trans; [| apply IH]. repeat split.
Qed.

Lemma window_delay (n : nat) (ms : Z) (st : State) :
  window n (delay ms st) = window n st.
Proof. reflexivity. Qed.

Lemma length_window (n : nat) (st : State) : length (window n st) = n.
Proof. unfold window. now rewrite length_map, length_seq. Qed.

Lemma Forall_window (P : MpuData -> Prop) (n : nat) (st : State) :
  (forall k, P (mpu_feed (mpu st) k)) -> Forall P (window n st).
Proof.
  intros H. unfold window. apply Forall_map, Forall_forall. intros i _. apply H.
Qed.

(** The offsets that a run writes to its [out_*] parameters, and its
    verdict, in terms of the channel means over the window. *)
Lemma doAveragingCalibration_result (samples : N) (ms : Z) (st : State) :
  let w := window (N.to_nat samples) st in
  let r := doAveragingCalibration samples ms st in
  calibration_out r =
    {| accOffX := F32.sub (mean (map getAccX w)) f0;
       accOffY := F32.sub (mean (map getAccY w)) f0;
       accOffZ := F32.sub (mean (map getAccZ w)) f1;
       gyrOffX := mean (map getGyroX w);
       gyrOffY := mean (map getGyroY w);
       gyrOffZ := mean (map getGyroZ w) |} /\
  calibration_ok r = negb (F32.ltb (F32.abs (mean (map getAccZ w))) fhalf) /\
  same_globals st (calibration_state r).
Proof.
  cbv zeta. unfold doAveragingCalibration.
  pose proof (sampling_loop_sums (N.to_nat samples) ms zero_sums (delay 200 st)) as Hs.
  pose proof (sampling_loop_frame (N.to_nat samples) ms zero_sums (delay 200 st)) as Hf.
  destruct (sampling_loop (N.to_nat samples) ms zero_sums (delay 200 st)) as [s st'].
  cbn [fst snd] in Hs, Hf. rewrite window_delay in Hs.
  pose proof (fold_accumulate (window (N.to_nat samples) st) zero_sums) as Hc.
  cbv zeta in Hc. rewrite <- Hs in Hc. cbn [zero_sums sAx sAy sAz sGx sGy sGz] in Hc.
  destruct Hc as (Hx & Hy & Hz & Hgx & Hgy & Hgz).
  unfold mean. rewrite !length_map, length_window, N2Nat.id.
  rewrite <- Hx, <- Hy, <- Hz, <- Hgx, <- Hgy, <- Hgz.
  destruct (F32.ltb (F32.abs (d2f (F64.div (sAz s) (u2d samples)))) fhalf);
    cbn [calibration_out calibration_ok calibration_state fst snd negb];
    (split; [reflexivity | split; [reflexivity |]]);
    (eapply same_globals_trans; [| exact Hf]); repeat split.
Qed.

(** C1 as the code has it. For a calibration run over a non-empty window
    of raw samples, the accelerometer offsets that [doAveragingCalibration]
    writes are the per-channel means of the raw accelerometer samples minus
    the expected vector (0, 0, +1) g, and the gyroscope offsets are the
    per-channel means of the raw gyroscope samples; when every sample of the
    window reads exactly (0, 0, 1) g the three accelerometer offsets are
    zero. The sample count is an [unsigned int]. *)
Theorem calibration_bias_is_mean_minus_expected
    (samples : N) (sampleDelayMs : Z) (st : State) :
  (0 < samples < 2 ^ 32)%N ->
  let w := window (N.to_nat samples) st in
  let out := calibration_out (doAveragingCalibration samples sampleDelayMs st) in
  (accOffX out = F32.sub (mean (map getAccX w)) f0 /\
   accOffY out = F32.sub (mean (map getAccY w)) f0 /\
   accOffZ out = F32.sub (mean (map getAccZ w)) f1 /\
   gyrOffX out = mean (map getGyroX w) /\
   gyrOffY out = mean (map getGyroY w) /\
   gyrOffZ out = mean (map getGyroZ w)) /\
  (Forall level_sample w ->
   accOffX out = f0 /\ accOffY out = f0 /\ accOffZ out = f0).
Proof.
  intros [Hpos Hmax]. cbv zeta.
  destruct (doAveragingCalibration_result samples sampleDelayMs st) as (Hout & _ & _).
  cbv zeta in Hout. rewrite Hout. cbn [accOffX accOffY accOffZ gyrOffX gyrOffY gyrOffZ].
  split; [repeat split |].
  intros Hall.
  set (w := window (N.to_nat samples) st) in *.
  assert (Hlen : Z.of_nat (length w) = Z.of_N samples).
  { unfold w. rewrite length_window. lia. }
  assert (Hn : N.of_nat (length w) = samples).
  { unfold w. rewrite length_window. lia. }
  assert (Hu : u2d samples = Fl.int_float F64.prec (Z.of_N samples)).
  { apply u2d_int_float. change (2 ^ 53)%N with 9007199254740992%N.
    change (2 ^ 32)%N with 4294967296%N in Hmax. lia. }
  assert (Hfin : exists m e, Fl.int_float F64.prec (Z.of_N samples) = S754_finite false m e).
  { destruct (Z.of_N samples) as [| p | p] eqn:E; try lia. cbn [Fl.int_float]. eauto. }
  destruct Hfin as (m & e & Hfin).
  assert (Hzero : forall f, Forall (fun d => feq (f d) f0) w ->
                  F32.sub (mean (map f w)) f0 = f0).
  { intros f Hf. unfold mean. rewrite length_map, Hn, Hu, Hfin.
    rewrite sum_of_zeros by (apply Forall_map; exact Hf). reflexivity. }
  repeat split.
  - apply Hzero. eapply Forall_impl; [exact Hall |]. intros d Hd. apply Hd.
  - apply Hzero. eapply Forall_impl; [exact Hall |]. intros d Hd. apply Hd.
  - unfold mean. rewrite length_map, Hn, Hu.
    change d0 with (Fl.int_float F64.prec 0).
    rewrite sum_of_ones.
    + rewrite length_map, Hlen, Z.add_0_l, Hfin, F64_div_self. reflexivity.
    + apply Forall_map. eapply Forall_impl; [exact Hall |]. intros d Hd. apply Hd.
    + lia.
    + rewrite length_map, Hlen. change (2 ^ 32)%N with 4294967296%N in Hmax.
      change (2 ^ 53) with 9007199254740992. lia.
Qed.

(** The level unit, calibrated over the 800 samples of a [/calibrate]
    request, gets zero accelerometer offsets. *)
Lemma level_unit_calibrates_to_zero :
  (0 < 800 < 2 ^ 32)%N /\
  Forall level_sample (window (N.to_nat 800) level_unit) /\
  let out := calibration_out (doAveragingCalibration 800 3 level_unit) in
  accOffX out = f0 /\ accOffY out = f0 /\ accOffZ out = f0.
Proof.
  assert (H1 : (0 < 800 < 2 ^ 32)%N) by (split; reflexivity).
  assert (H2 : Forall level_sample (window (N.to_nat 800) level_unit)).
  { apply Forall_window. intros k. repeat split. }
  split; [exact H1 |]. split; [exact H2 |].
  exact (proj2 (calibration_bias_is_mean_minus_expected 800 3 level_unit H1) H2).
Defined.

(** C1, the statement as first given fails on the empty window: with no
    sample read, every sample of the window reads (0, 0, 1) g, the means
    are 0.0 / 0 and the offsets written are NaN, not zero (and the run
    reports success). *)
Lemma empty_window_offsets_are_nan :
  Forall level_sample (window (N.to_nat 0) level_unit) /\
  calibration_out (doAveragingCalibration 0 3 level_unit)
  = {| accOffX := S754_nan; accOffY := S754_nan; accOffZ := S754_nan;
       gyrOffX := S754_nan; gyrOffY := S754_nan; gyrOffZ := S754_nan |} /\
  calibration_ok (doAveragingCalibration 0 3 level_unit) = true.
Proof. split; [constructor | split; reflexivity]. Qed.

(** ** Magnitudes below one half *)

Local Abbreviation within32 := (Fl.within F32.prec F32.emax).
Local Abbreviation within64 := (Fl.within F64.prec F64.emax).

Lemma emin32 : emin F32.prec F32.emax = -149.
Proof. reflexivity. Qed.

Lemma emin64 : emin F64.prec F64.emax = -1074.
Proof. reflexivity. Qed.

Lemma under_half_scale : under_half64 = under_half32 * 2 ^ 925.
Proof. reflexivity. Qed.

Lemma reads_under_half_within (x : float) :
  reads_under_half x -> within32 under_half32 x.
Proof.
  intros [Hv Hlt]. unfold F32.ltb, SFltb, F32.abs in Hlt.
  change fhalf with (S754_finite false 8388608 (-24)) in Hlt.
  destruct x as [s | s | | s m e]; cbn [SFabs SFcompare] in Hlt; try discriminate.
  - split; [reflexivity |]. cbn [Fl.mag]. unfold under_half32. lia.
  - unfold F32.valid in Hv. cbn [valid_binary] in Hv.
    pose proof (bounded_inv _ _ (proj1 F32_bounds) m e Hv) as ([He1 He2] & Hm & Hfull).
    rewrite emin32 in *. change (2 ^ F32.prec) with 16777216 in Hm.
    change (2 ^ (F32.prec - 1)) with 8388608 in Hfull.
    split; [exact Hv |]. cbn [Fl.mag]. rewrite emin32.
    destruct (Z.compare_spec e (-24)) as [-> | Hlt' | Hgt]; try discriminate.
    + destruct (Pos.compare_cont Eq m 8388608) eqn:Hc; try discriminate.
      apply (proj1 (Pos.compare_lt_iff _ _)), Pos2Z.pos_lt_pos in Hc.
      specialize (Hfull eq_refl). exfalso. clear - Hfull Hc. lia.
    + unfold under_half32. change (2 ^ 24 - 1) with 16777215.
      assert (2 ^ (e - -149) <= 2 ^ 124) by (apply Z.pow_le_mono_r; lia).
      assert (0 < 2 ^ (e - -149)) by (apply Z.pow_pos_nonneg; lia).
      nia.
Qed.

Lemma within_reads_under_half (x : float) :
  within32 under_half32 x -> F32.ltb (F32.abs x) fhalf = true.
Proof.
  intros [Hv Hm]. unfold F32.ltb, SFltb, F32.abs.
  change fhalf with (S754_finite false 8388608 (-24)).
  destruct x as [s | s | | s m e]; cbn [Fl.finite_valid] in Hv; try discriminate.
  - reflexivity.
  - cbn [SFabs SFcompare]. cbn [Fl.mag] in Hm. rewrite emin32 in Hm.
    pose proof (bounded_inv _ _ (proj1 F32_bounds) m e Hv) as ([He1 He2] & Hmx & Hfull).
    rewrite emin32 in *. change (2 ^ (F32.prec - 1)) with 8388608 in Hfull.
    destruct (Z.compare_spec e (-24)) as [-> | Hlt' | Hgt]; try reflexivity; exfalso.
    + specialize (Hfull eq_refl). revert Hm. unfold under_half32.
      change (2 ^ (-24 - -149)) with (2 * 2 ^ 124).
      pose proof (Z.pow_pos_nonneg 2 124 eq_refl ltac:(discriminate)) as Hp.
      clear - Hfull Hp. generalize dependent (2 ^ 124). intros P HP. nia.
    + specialize (Hfull ltac:(clear - Hgt; lia)). revert Hm. unfold under_half32.
      assert (Hle : 2 * 2 ^ 124 <= 2 ^ (e - -149)).
      { change (2 * 2 ^ 124) with (2 ^ 125). apply Z.pow_le_mono_r; clear - Hgt; lia. }
      pose proof (Z.pow_pos_nonneg 2 124 eq_refl ltac:(discriminate)) as Hp.
      clear - Hfull Hp Hle. generalize dependent (2 ^ (e - -149)).
      generalize dependent (2 ^ 124). intros P HP Q HQ. nia.
Qed.

Lemma representable_multiple (k : Z) :
  0 < k -> k * (2 ^ 24 - 1) < 2 ^ 53 ->
  Fl.representable F64.prec F64.emax (k * under_half64).
Proof.
  intros Hk Hlt.
  replace (k * under_half64) with (k * (2 ^ 24 - 1) * 2 ^ (-25 - emin F64.prec F64.emax)).
  - apply representable_int; try apply F64_bounds.
    + change (2 ^ F64.prec) with (2 ^ 53). lia.
    + rewrite emin64. unfold F64.prec, F64.emax. lia.
  - rewrite emin64. unfold under_half64. change (-25 - -1074) with 1049. ring.
Qed.

Lemma f2d_within (x : float) :
  within32 under_half32 x -> within64 under_half64 (f2d x).
Proof.
  intros [Hv Hm].
  destruct x as [s | s | | s m e]; cbn [Fl.finite_valid] in Hv; try discriminate.
  - split; [reflexivity |]. cbn. unfold under_half64. lia.
  - cbn [Fl.mag] in Hm. rewrite emin32 in Hm.
    pose proof (bounded_inv _ _ (proj1 F32_bounds) m e Hv) as ([He1 He2] & _ & _).
    rewrite emin32 in He1.
    unfold f2d, convert.
    apply binary_normalize_within; try apply F64_bounds.
    + replace under_half64 with (1 * under_half64) by lia.
      apply representable_multiple; [lia |]. change (2 ^ 53) with 9007199254740992.
      change (2 ^ 24 - 1) with 16777215. lia.
    + rewrite emin64. lia.
    + rewrite emin64, under_half_scale.
      replace (Z.abs (cond_Zopp s (Z.pos m))) with (Z.pos m) by (destruct s; cbn; lia).
      replace (e - -1074) with (e - -149 + 925) by lia.
      rewrite Z.pow_add_r by lia.
      pose proof (Z.pow_pos_nonneg 2 925 ltac:(lia) ltac:(lia)). nia.
Qed.

Lemma d2f_within (x : double) :
  within64 under_half64 x -> within32 under_half32 (d2f x).
Proof.
  intros [Hv Hm].
  destruct x as [s | s | | s m e]; cbn [Fl.finite_valid] in Hv; try discriminate.
  - split; [reflexivity |]. cbn. unfold under_half32. lia.
  - cbn [Fl.mag] in Hm. rewrite emin64 in Hm.
    pose proof (bounded_inv _ _ (proj1 F64_bounds) m e Hv) as ([He1 He2] & _ & _).
    rewrite emin64 in He1.
    unfold d2f, convert.
    apply (binary_normalize_within_gen F32.prec F32.emax (proj1 F32_bounds)
             _ e under_half32 (-1074)).
    + exists (2 ^ 24 - 1), (-25). rewrite emin32. unfold under_half32.
      repeat split; try reflexivity; unfold F32.prec, F32.emax; lia.
    + lia.
    + rewrite emin32. lia.
    + rewrite emin32. change (-149 - -1074) with 925. rewrite <- under_half_scale.
      replace (Z.abs (cond_Zopp s (Z.pos m))) with (Z.pos m) by (destruct s; cbn; lia).
      exact Hm.
Qed.

(** The running sum of [k] readings below one half stays within [k] times
    the largest such reading, as long as that multiple is a [double]. *)
Lemma sum_within (l : list float) (k : Z) (a : double) :
  Forall (within32 under_half32) l -> 0 <= k ->
  (k + Z.of_nat (length l)) * (2 ^ 24 - 1) < 2 ^ 53 ->
  within64 (k * under_half64) a ->
  within64 ((k + Z.of_nat (length l)) * under_half64) (fold_left add_sample l a).
Proof.
  revert k a. induction l as [| x l IH]; intros k a Hall Hk Hlen Ha.
  - cbn [fold_left length]. now rewrite Z.add_0_r.
  - inversion Hall as [| ? ? Hx Hl]; subst.
    cbn [fold_left length] in *. rewrite Nat2Z.inj_succ in *.
    replace (k + Z.succ (Z.of_nat (length l))) with (k + 1 + Z.of_nat (length l)) in * by lia.
    apply IH; auto; try lia.
    unfold add_sample, F64.add.
    apply (SFadd_within F64.prec F64.emax (proj1 F64_bounds)
             (k * under_half64) under_half64); auto.
    + now apply f2d_within.
    + apply representable_multiple; [lia |].
      change (2 ^ 24 - 1) with 16777215 in *. lia.
    + lia.
Qed.

(** The mean of readings that are all below one half is below one half. *)
Lemma mean_under_half (l : list float) :
  l <> [] -> Z.of_nat (length l) * (2 ^ 24 - 1) < 2 ^ 53 ->
  Forall reads_under_half l ->
  F32.ltb (F32.abs (mean l)) fhalf = true.
Proof.
  intros Hne Hlen Hall.
  apply within_reads_under_half. unfold mean. apply d2f_within.
  set (n := Z.of_nat (length l)) in *.
  assert (Hn : 0 < n) by (unfold n; destruct l; [congruence | cbn [length]; lia]).
  assert (Hsum : within64 (n * under_half64) (fold_left add_sample l d0)).
  { replace n with (0 + n) by lia. unfold n. apply sum_within; try lia.
    - eapply Forall_impl; [exact Hall |]. apply reads_under_half_within.
    - split; [reflexivity |]. cbn. lia. }
  assert (Hu : u2d (N.of_nat (length l)) = Fl.int_float F64.prec n).
  { rewrite u2d_int_float.
    - f_equal. unfold n. lia.
    - change (2 ^ 53)%N with 9007199254740992%N.
      change (2 ^ 53) with 9007199254740992 in Hlen.
      change (2 ^ 24 - 1) with 16777215 in Hlen. unfold n in Hlen. lia. }
  rewrite Hu.
  destruct (mag_int_float F64.prec F64.emax (proj1 F64_bounds) (proj2 F64_bounds) n)
    as [Hfv Hmag].
  { change (2 ^ F64.prec) with 9007199254740992.
    change (2 ^ 53) with 9007199254740992 in Hlen.
    change (2 ^ 24 - 1) with 16777215 in Hlen. lia. }
  unfold F64.div.
  apply (SFdiv_within F64.prec F64.emax (proj1 F64_bounds) (proj2 F64_bounds)
           (n * under_half64)); auto.
  - rewrite Hmag, emin64. change (- -1074) with 1074.
    pose proof (Z.pow_pos_nonneg 2 1074 ltac:(lia) ltac:(lia)). nia.
  - replace under_half64 with (1 * under_half64) by lia.
    apply representable_multiple; [lia |]. change (2 ^ 53) with 9007199254740992.
    change (2 ^ 24 - 1) with 16777215. lia.
  - rewrite Hmag. lia.
Qed.

(** * Calibration requests *)

Lemma handleCalibrate_unauthorized (String_f : float -> Z -> string) (st : State) :
  checkAuth st = false ->
  handleCalibrate String_f st = server_send RequestAuthentication st.
Proof. intros H. unfold handleCalibrate. now rewrite H. Qed.

(** The two outcomes of an authenticated [/calibrate]. *)
Lemma handleCalibrate_authorized (String_f : float -> Z -> string) (st : State) :
  checkAuth st = true ->
  let r := doAveragingCalibration 800 3 st in
  let st' := handleCalibrate String_f st in
  if calibration_ok r then
    exists body,
      st' = server_send (Send 200 "application/json" body)
              (saveOffsetsToPrefs (set_offsets (calibration_out r) (calibration_state r)))
  else
    st' = server_send (Send 200 "application/json" json_not_ok) (calibration_state r).
Proof.
  intros Hauth. cbv zeta. unfold handleCalibrate. rewrite Hauth. cbn [negb].
  destruct (doAveragingCalibration 800 3 st) as [[ok out] st1].
  cbn [calibration_ok calibration_out calibration_state fst snd].
  destruct ok; cbn [negb]; [| reflexivity].
  eexists. reflexivity.
Qed.

(** C2 as the code has it. A calibration run in which the magnitude of
    the mean accelerometer Z reading is below 0.5 g reports failure, and so
    does, in particular, every run over a non-empty window (1 to 2^29
    samples) all of whose samples read below 0.5 g in magnitude; the run
    leaves the six offset globals, [offsetsLoaded] and the store as they
    were. When the run is the one that [handleCalibrate] performs for an
    authenticated request (800 samples, 3 ms apart), the response is
    [{"ok":false}] and the handler leaves the offsets, [offsetsLoaded] and
    the store as they were. *)
Theorem low_mean_z_calibration_is_rejected
    (String_f : float -> Z -> string) (samples : N) (sampleDelayMs : Z) (st : State) :
  let w := window (N.to_nat samples) st in
  F32.ltb (F32.abs (mean (map getAccZ w))) fhalf = true \/
  ((0 < samples <= 2 ^ 29)%N /\ Forall (fun d => reads_under_half (getAccZ d)) w) ->
  let r := doAveragingCalibration samples sampleDelayMs st in
  calibration_ok r = false /\
  offsets (calibration_state r) = offsets st /\
  offsetsLoaded (calibration_state r) = offsetsLoaded st /\
  prefs (calibration_state r) = prefs st /\
  (samples = 800%N -> sampleDelayMs = 3 -> checkAuth st = true ->
   let st' := handleCalibrate String_f st in
   sent (server st') = sent (server st) ++ [Send 200 "application/json" json_not_ok] /\
   offsets st' = offsets st /\
   offsetsLoaded st' = offsetsLoaded st /\
   prefs st' = prefs st).
Proof.
  cbv zeta. intros Hlow.
  assert (Hmean : F32.ltb (F32.abs (mean (map getAccZ (window (N.to_nat samples) st))))
                    fhalf = true).
  { destruct Hlow as [H | [[Hpos Hmax] H]]; [exact H |].
    apply mean_under_half.
    - destruct (N.to_nat samples) as [| n] eqn:E; [lia |].
      rewrite window_S. discriminate.
    - rewrite length_map, length_window.
      change (2 ^ 29)%N with 536870912%N in Hmax.
      change (2 ^ 24 - 1) with 16777215. change (2 ^ 53) with 9007199254740992. lia.
    - apply Forall_map. exact H. }
  destruct (doAveragingCalibration_result samples sampleDelayMs st) as (_ & Hok & Hsame).
  cbv zeta in Hok, Hsame. rewrite Hmean in Hok. cbn [negb] in Hok.
  assert (Hrun : offsets (calibration_state (doAveragingCalibration samples sampleDelayMs st))
                 = offsets st /\
                 offsetsLoaded (calibration_state (doAveragingCalibration samples sampleDelayMs st))
                 = offsetsLoaded st /\
                 prefs (calibration_state (doAveragingCalibration samples sampleDelayMs st))
                 = prefs st /\
                 server (calibration_state (doAveragingCalibration samples sampleDelayMs st))
                 = server st).
  { destruct Hsame as (_ & _ & Hoff & Hld & _ & _ & _ & Hprefs & _ & Hsrv). auto. }
  destruct Hrun as (Hoff & Hld & Hprefs & Hsrv).
  split; [exact Hok |]. split; [exact Hoff |]. split; [exact Hld |].
  split; [exact Hprefs |].
  intros -> -> Hauth.
  pose proof (handleCalibrate_authorized String_f st Hauth) as Hh.
  cbv zeta in Hh. rewrite Hok in Hh. rewrite Hh.
  revert Hoff Hld Hprefs Hsrv. generalize (doAveragingCalibration 800 3 st).
  intros r Hoff Hld Hprefs Hsrv.
  split; [cbn [server server_send set_server sent]; now rewrite Hsrv |].
  split; [exact Hoff |]. split; [exact Hld | exact Hprefs].
Qed.

(** The unit lying on its side refuses to calibrate and keeps its offsets. *)
Lemma side_unit_calibration_is_rejected :
  ((0 < 800 <= 2 ^ 29)%N /\
   Forall (fun d => reads_under_half (getAccZ d)) (window (N.to_nat 800) side_unit)) /\
  checkAuth side_unit = true /\
  let r := doAveragingCalibration 800 3 side_unit in
  let st' := handleCalibrate String_f_mark side_unit in
  calibration_ok r = false /\
  offsets (calibration_state r) = offsets side_unit /\
  sent (server st') = sent (server side_unit) ++ [Send 200 "application/json" json_not_ok] /\
  offsets st' = offsets side_unit /\
  offsetsLoaded st' = offsetsLoaded side_unit /\
  prefs st' = prefs side_unit.
Proof.
  assert (H1 : (0 < 800 <= 2 ^ 29)%N /\
               Forall (fun d => reads_under_half (getAccZ d))
                 (window (N.to_nat 800) side_unit)).
  { split; [split; [reflexivity | discriminate] |].
    apply Forall_window. intros k. split; reflexivity. }
  assert (H2 : checkAuth side_unit = true) by reflexivity.
  split; [exact H1 |]. split; [exact H2 |].
  destruct (low_mean_z_calibration_is_rejected String_f_mark 800 3 side_unit (or_intror H1))
    as (Hok & Hoff & _ & _ & Hh).
  split; [exact Hok |]. split; [exact Hoff |].
  exact (Hh eq_refl eq_refl H2).
Defined.

(** C2, the statement as first given fails on the empty window: a run over
    no sample has every sample of its window below 0.5 g, the mean Z is
    0.0 / 0, which is not below 0.5, and the run reports success with a Z
    offset that is not a number. *)
Lemma empty_run_passes_the_orientation_check :
  Forall (fun d => reads_under_half (getAccZ d)) (window (N.to_nat 0) side_unit) /\
  calibration_ok (doAveragingCalibration 0 3 side_unit) = true /\
  accOffZ (calibration_out (doAveragingCalibration 0 3 side_unit)) = S754_nan.
Proof. split; [constructor | split; reflexivity]. Qed.

(** C8. [doAveragingCalibration] does not touch the active offsets: after
    a run over any window, the six offset globals (and every other global,
    the store, the display and the server) are as before; only the MPU6050
    and the clock have moved. [handleCalibrate] assigns the returned offsets
    to the globals exactly when the request is authenticated and the run
    succeeds. *)
Theorem calibration_engine_leaves_offsets
    (String_f : float -> Z -> string) (samples : N) (sampleDelayMs : Z) (st : State) :
  let r := doAveragingCalibration samples sampleDelayMs st in
  offsets (calibration_state r) = offsets st /\
  same_globals st (calibration_state r) /\
  offsets (handleCalibrate String_f st) =
    if checkAuth st && calibration_ok (doAveragingCalibration 800 3 st)
    then calibration_out (doAveragingCalibration 800 3 st)
    else offsets st.
Proof.
  cbv zeta.
  destruct (doAveragingCalibration_result samples sampleDelayMs st) as (_ & _ & Hsame).
  cbv zeta in Hsame. split; [apply Hsame |]. split; [exact Hsame |].
  destruct (checkAuth st) eqn:Hauth; cbn [andb].
  - pose proof (handleCalibrate_authorized String_f st Hauth) as Hh. cbv zeta in Hh.
    destruct (doAveragingCalibration_result 800 3 st) as (_ & _ & Hs).
    cbv zeta in Hs. revert Hh Hs.
    generalize (doAveragingCalibration 800 3 st). intros r Hh Hs.
    destruct (calibration_ok r).
    + destruct Hh as [body ->]. reflexivity.
    + rewrite Hh. cbn [offsets server_send set_server]. apply Hs.
  - rewrite handleCalibrate_unauthorized by exact Hauth. reflexivity.
Qed.

(** * Telemetry *)

(** C3. [readSensors] subtracts the accelerometer offsets from the raw
    sample on all three axes, derives angleX as atan2(accY, accZ) and angleY
    as atan2(-accX, sqrt(accY^2 + accZ^2)) of the corrected values, both
    converted to degrees (the [float] product with 180.0f, divided in
    [double] by PI and stored to a [float]), and passes angleZ through from
    the MPU6050's fused estimate, with no offset applied. *)
Theorem telemetry_composition (atan2 : float -> float -> float) (st : State) :
  let raw := mpu_feed (mpu st) (mpu_updates (mpu st)) in
  let r := fst (readSensors atan2 st) in
  let pitch := atan2 (accY r) (accZ r) in
  let roll := atan2 (F32.neg (accX r))
                (F32.sqrt (F32.add (F32.mul (accY r) (accY r))
                                   (F32.mul (accZ r) (accZ r)))) in
  accX r = F32.sub (getAccX raw) (accOffX (offsets st)) /\
  accY r = F32.sub (getAccY raw) (accOffY (offsets st)) /\
  accZ r = F32.sub (getAccZ raw) (accOffZ (offsets st)) /\
  angleX r = d2f (F64.div (f2d (F32.mul pitch (F32.of_Z 180))) PI) /\
  angleY r = d2f (F64.div (f2d (F32.mul roll (F32.of_Z 180))) PI) /\
  angleZ r = getAngleZ raw /\
  PI = S754_finite false 7074237752028440 (-51).
Proof.
  cbv zeta. unfold readSensors. destruct (bmp_ok st); repeat split.
Qed.

(** C4 as the code has it. When the BMP280 is unavailable the three
    environmental fields of the reading are zero, and the reading carries no
    availability indicator: it is the reading that a present sensor
    measuring zero on all three quantities produces. *)
Theorem unavailable_environment_reads_zero
    (atan2 : float -> float -> float) (st : State) :
  bmp_ok st = false ->
  let r := fst (readSensors atan2 st) in
  temperature r = f0 /\ pressure r = f0 /\ altitude r = f0 /\
  r = fst (readSensors atan2 (with_zero_bmp st)).
Proof.
  intros H. cbv zeta. unfold readSensors. rewrite H. repeat split.
Qed.

(** The unit at power-on, whose BMP280 has not been found, reads zeros. *)
Lemma flat_unit_reads_no_environment :
  bmp_ok flat_unit = false /\
  let r := fst (readSensors atan2_axis flat_unit) in
  temperature r = f0 /\ pressure r = f0 /\ altitude r = f0 /\
  r = fst (readSensors atan2_axis (with_zero_bmp flat_unit)).
Proof.
  split; [reflexivity |].
  exact (unavailable_environment_reads_zero atan2_axis flat_unit eq_refl).
Defined.

(** C4, the statement as first given fails: nothing in the reading tells an
    absent sensor from a present one that measures zero. The two units
    differ in [bmp_ok] and produce the same [SensorReading]. *)
Lemma zero_reading_hides_absence :
  bmp_ok flat_unit = false /\
  bmp_ok (with_zero_bmp flat_unit) = true /\
  fst (readSensors atan2_axis flat_unit)
  = fst (readSensors atan2_axis (with_zero_bmp flat_unit)).
Proof. repeat split. Qed.

(** C10. The gyroscope offsets do not reach the reading: replacing
    [gyrOffX], [gyrOffY], [gyrOffZ] by any values leaves the result of
    [readSensors], and the response of [handleData], unchanged. *)
Theorem gyro_offsets_do_not_reach_the_reading
    (atan2 : float -> float -> float)
    (String_ul : Z -> string) (String_f : float -> Z -> string)
    (gx gy gz : float) (st : State) :
  let st2 := set_offsets (with_gyro_offsets gx gy gz (offsets st)) st in
  fst (readSensors atan2 st2) = fst (readSensors atan2 st) /\
  sent (server (handleData atan2 String_ul String_f st2))
  = sent (server (handleData atan2 String_ul String_f st)).
Proof.
  cbv zeta. split.
  - unfold readSensors. cbn [bmp_ok set_offsets]. destruct (bmp_ok st); reflexivity.
  - unfold handleData, checkAuth. cbn [server set_offsets].
    destruct (negb USE_BASIC_AUTH); [| destruct (negb (hasAuthorization (client (server st))));
      [reflexivity | destruct (credentialsOk (client (server st))); [| reflexivity]]];
      cbn [negb]; unfold readSensors; cbn [bmp_ok set_offsets];
      destruct (bmp_ok st); reflexivity.
Qed.

(** * Persistence of the offsets *)

Lemma new_calls_app (before after : State) (l : list prefs_call) :
  calls (prefs after) = calls (prefs before) ++ l -> new_calls before after = l.
Proof. intros H. unfold new_calls. rewrite H. apply drop_app_length. Qed.

(** C5. Every save opens the namespace ["mpu"] for writing and writes, in
    this order, ax, ay, az, gx, gy, gz and then the presence marker [ok],
    which is the last write before the namespace is closed. The writes
    reach the store: once the six fields are written they hold the six
    offsets while the marker is still what it was before the save, and
    after the save the store holds the six offsets and the marker true,
    the other entries being untouched. *)
Theorem save_writes_fields_then_marker (st : State) :
  let o := offsets st in
  let store := nvs (prefs st) in
  let six_fields :=
    <[("mpu", "gz") := PFloat (gyrOffZ o)]>
      (<[("mpu", "gy") := PFloat (gyrOffY o)]>
        (<[("mpu", "gx") := PFloat (gyrOffX o)]>
          (<[("mpu", "az") := PFloat (accOffZ o)]>
            (<[("mpu", "ay") := PFloat (accOffY o)]>
              (<[("mpu", "ax") := PFloat (accOffX o)]> store))))) in
  let before_marker :=
    prefs_putFloat "gz" (gyrOffZ o)
      (prefs_putFloat "gy" (gyrOffY o)
        (prefs_putFloat "gx" (gyrOffX o)
          (prefs_putFloat "az" (accOffZ o)
            (prefs_putFloat "ay" (accOffY o)
              (prefs_putFloat "ax" (accOffX o) (prefs_begin "mpu" false st)))))) in
  calls (prefs (saveOffsetsToPrefs st)) =
  calls (prefs st) ++
  [ PrefsBegin "mpu" false;
    PutFloat "ax" (accOffX o);
    PutFloat "ay" (accOffY o);
    PutFloat "az" (accOffZ o);
    PutFloat "gx" (gyrOffX o);
    PutFloat "gy" (gyrOffY o);
    PutFloat "gz" (gyrOffZ o);
    PutBool "ok" true;
    PrefsEnd ] /\
  saveOffsetsToPrefs st = prefs_end (prefs_putBool "ok" true before_marker) /\
  nvs (prefs before_marker) = six_fields /\
  nvs (prefs before_marker) !! ("mpu", "ok") = store !! ("mpu", "ok") /\
  nvs (prefs (saveOffsetsToPrefs st)) = <[("mpu", "ok") := PBool true]> six_fields /\
  opened (prefs (saveOffsetsToPrefs st)) = None.
Proof.
  cbv zeta.
  split.
  { cbn [saveOffsetsToPrefs prefs_end prefs_putBool prefs_putFloat prefs_put prefs_begin
         prefs set_prefs calls offsets opened nvs].
    repeat rewrite <- app_assoc. reflexivity. }
  split; [reflexivity |].
  assert (Hsix : nvs (prefs
            (prefs_putFloat "gz" (gyrOffZ (offsets st))
              (prefs_putFloat "gy" (gyrOffY (offsets st))
                (prefs_putFloat "gx" (gyrOffX (offsets st))
                  (prefs_putFloat "az" (accOffZ (offsets st))
                    (prefs_putFloat "ay" (accOffY (offsets st))
                      (prefs_putFloat "ax" (accOffX (offsets st))
                        (prefs_begin "mpu" false st)))))))) =
          <[("mpu", "gz") := PFloat (gyrOffZ (offsets st))]>
            (<[("mpu", "gy") := PFloat (gyrOffY (offsets st))]>
              (<[("mpu", "gx") := PFloat (gyrOffX (offsets st))]>
                (<[("mpu", "az") := PFloat (accOffZ (offsets st))]>
                  (<[("mpu", "ay") := PFloat (accOffY (offsets st))]>
                    (<[("mpu", "ax") := PFloat (accOffX (offsets st))]>
                      (nvs (prefs st)))))))).
  { cbn [prefs_putFloat prefs_put prefs_begin prefs set_prefs calls offsets opened nvs].
    reflexivity. }
  split; [exact Hsix |].
  split.
  { rewrite Hsix. repeat (rewrite lookup_insert_ne by discriminate). reflexivity. }
  split.
  { cbn [saveOffsetsToPrefs prefs_end prefs_putBool prefs_putFloat prefs_put prefs_begin
         prefs set_prefs calls offsets opened nvs]. reflexivity. }
  cbn [saveOffsetsToPrefs prefs_end prefs_putBool prefs_putFloat prefs_put prefs_begin
       prefs set_prefs calls offsets opened nvs]. reflexivity.
Qed.

(** What a save leaves in the store. *)
Lemma saveOffsetsToPrefs_store (st : State) :
  nvs (prefs (saveOffsetsToPrefs st)) =
  <[("mpu", "ok") := PBool true]>
    (<[("mpu", "gz") := PFloat (gyrOffZ (offsets st))]>
      (<[("mpu", "gy") := PFloat (gyrOffY (offsets st))]>
        (<[("mpu", "gx") := PFloat (gyrOffX (offsets st))]>
          (<[("mpu", "az") := PFloat (accOffZ (offsets st))]>
            (<[("mpu", "ay") := PFloat (accOffY (offsets st))]>
              (<[("mpu", "ax") := PFloat (accOffX (offsets st))]> (nvs (prefs st)))))))).
Proof.
  cbn [saveOffsetsToPrefs prefs_end prefs_putBool prefs_putFloat prefs_put prefs_begin
       prefs set_prefs calls offsets opened nvs]. reflexivity.
Qed.

(** What a load does, by the stored value of the marker. *)
Lemma marker_unset_value (store : gmap (string * string) pval) :
  marker_unset store -> marker_value store = false.
Proof. unfold marker_value. intros [-> | ->]; reflexivity. Qed.

Lemma loadOffsetsFromPrefs_unset (st : State) :
  marker_value (nvs (prefs st)) = false ->
  offsets (loadOffsetsFromPrefs st) = offsets st /\
  offsetsLoaded (loadOffsetsFromPrefs st) = offsetsLoaded st /\
  nvs (prefs (loadOffsetsFromPrefs st)) = nvs (prefs st) /\
  new_calls st (loadOffsetsFromPrefs st) =
    [PrefsBegin "mpu" true; GetBool "ok" false; PrefsEnd].
Proof.
  intros H. unfold loadOffsetsFromPrefs.
  cbn [prefs_getBool prefs_begin prefs_log prefs set_prefs nvs opened calls].
  fold (marker_value (nvs (prefs st))). rewrite H.
  repeat split.
  apply new_calls_app.
  cbn [prefs_end prefs_log prefs set_prefs nvs opened calls].
  repeat rewrite <- app_assoc. reflexivity.
Qed.

Lemma loadOffsetsFromPrefs_set (st : State) :
  marker_value (nvs (prefs st)) = true ->
  let store := nvs (prefs st) in
  let o := offsets st in
  offsets (loadOffsetsFromPrefs st) =
    {| accOffX := stored_float store "ax" (accOffX o);
       accOffY := stored_float store "ay" (accOffY o);
       accOffZ := stored_float store "az" (accOffZ o);
       gyrOffX := stored_float store "gx" (gyrOffX o);
       gyrOffY := stored_float store "gy" (gyrOffY o);
       gyrOffZ := stored_float store "gz" (gyrOffZ o) |} /\
  offsetsLoaded (loadOffsetsFromPrefs st) = true /\
  new_calls st (loadOffsetsFromPrefs st) =
    [ PrefsBegin "mpu" true; GetBool "ok" true;
      GetFloat "ax" (stored_float store "ax" (accOffX o));
      GetFloat "ay" (stored_float store "ay" (accOffY o));
      GetFloat "az" (stored_float store "az" (accOffZ o));
      GetFloat "gx" (stored_float store "gx" (gyrOffX o));
      GetFloat "gy" (stored_float store "gy" (gyrOffY o));
      GetFloat "gz" (stored_float store "gz" (gyrOffZ o));
      PrefsEnd ].
Proof.
  intros H. cbv zeta.
  unfold loadOffsetsFromPrefs.
  cbn [prefs_getBool prefs_begin prefs_log prefs set_prefs nvs opened calls].
  fold (marker_value (nvs (prefs st))). rewrite H.
  split; [| split].
  - cbn [prefs_getFloat prefs_end prefs_log prefs set_prefs nvs opened calls offsets
         set_offsets set_offsetsLoaded]. reflexivity.
  - cbn [prefs_getFloat prefs_end prefs_log prefs set_prefs nvs opened calls offsets
         set_offsets set_offsetsLoaded offsetsLoaded]. reflexivity.
  - apply new_calls_app.
    cbn [prefs_getFloat prefs_end prefs_log prefs set_prefs nvs opened calls offsets
         set_offsets set_offsetsLoaded].
    repeat rewrite <- app_assoc. reflexivity.
Qed.

Lemma readSensors_frame (atan2 : float -> float -> float) (st : State) :
  sensors_moved st (snd (readSensors atan2 st)).
Proof.
  unfold readSensors. destruct (bmp_ok st) eqn:Hb; cbn [snd]; repeat split; exact Hb.
Qed.

(** What [setup] leaves in the calibration globals is what the load at its
    start produced. *)
Lemma setup_calibration (atan2 : float -> float -> float) (b : Boot) (st : State) :
  let loaded := loadOffsetsFromPrefs (mpu_update (set_bmp_ok (bmp_begin b) (delay 50 st))) in
  offsets (setup atan2 b st) = offsets loaded /\
  offsetsLoaded (setup atan2 b st) = offsetsLoaded loaded.
Proof.
  cbv zeta. unfold setup.
  set (loaded := loadOffsetsFromPrefs (mpu_update (set_bmp_ok (bmp_begin b) (delay 50 st)))).
  cbv zeta. cbn [lastIrActive set_lastIrActive].
  destruct (level_eqb (boot_pin b) LOW).
  - split; reflexivity.
  - unfold restoreNormalDisplay.
    set (st1 := set_lastIrActive false _).
    pose proof (readSensors_frame atan2 st1) as Hf.
    destruct (readSensors atan2 st1) as [r st2]. cbn [snd] in Hf.
    destruct Hf as (_ & _ & Ho & Hl & _).
    cbn [offsets offsetsLoaded lcd_draw set_lcd]. rewrite Ho, Hl. split; reflexivity.
Qed.

Lemma saved_store_reads (st : State) (d : float) :
  let store := nvs (prefs (saveOffsetsToPrefs st)) in
  store !! ("mpu", "ok") = Some (PBool true) /\
  marker_value store = true /\
  stored_float store "ax" d = accOffX (offsets st) /\
  stored_float store "ay" d = accOffY (offsets st) /\
  stored_float store "az" d = accOffZ (offsets st) /\
  stored_float store "gx" d = gyrOffX (offsets st) /\
  stored_float store "gy" d = gyrOffY (offsets st) /\
  stored_float store "gz" d = gyrOffZ (offsets st).
Proof.
  cbv zeta. rewrite saveOffsetsToPrefs_store. unfold marker_value, stored_float.
  repeat split;
    repeat (rewrite lookup_insert_ne by discriminate);
    rewrite lookup_insert_eq; reflexivity.
Qed.

(** Loading from a store that a save has written gives back the offsets
    that were saved, whatever the globals hold. *)
Lemma load_after_save (st st2 : State) :
  nvs (prefs st2) = nvs (prefs (saveOffsetsToPrefs st)) ->
  offsets (loadOffsetsFromPrefs st2) = offsets st /\
  offsetsLoaded (loadOffsetsFromPrefs st2) = true.
Proof.
  intros Hst.
  assert (Hm : marker_value (nvs (prefs st2)) = true)
    by (rewrite Hst; apply (saved_store_reads st f0)).
  destruct (loadOffsetsFromPrefs_set st2 Hm) as (Ho & Hl & _). cbv zeta in Ho.
  split; [| exact Hl]. rewrite Ho, Hst.
  destruct (saved_store_reads st (accOffX (offsets st2))) as (_ & _ & -> & _).
  destruct (saved_store_reads st (accOffY (offsets st2))) as (_ & _ & _ & -> & _).
  destruct (saved_store_reads st (accOffZ (offsets st2))) as (_ & _ & _ & _ & -> & _).
  destruct (saved_store_reads st (gyrOffX (offsets st2))) as (_ & _ & _ & _ & _ & -> & _).
  destruct (saved_store_reads st (gyrOffY (offsets st2))) as (_ & _ & _ & _ & _ & _ & -> & _).
  destruct (saved_store_reads st (gyrOffZ (offsets st2))) as (_ & _ & _ & _ & _ & _ & _ & ->).
  destruct (offsets st). reflexivity.
Qed.

(** C7. After [saveOffsetsToPrefs] the presence marker [ok] reads true, and
    a load from the written store returns the saved offsets, bit for bit:
    both a load in the running program, whatever the globals have become,
    and the load that [setup] performs after a restart on that flash. *)
Theorem save_then_load_round_trip
    (atan2 : float -> float -> float) (st : State) (o' : Offsets)
    (b : Boot) (mpu_in : nat -> MpuData) (bmp_in : nat -> BmpData) :
  let saved := saveOffsetsToPrefs st in
  let reloaded := loadOffsetsFromPrefs (set_offsets o' saved) in
  let rebooted := setup atan2 b (power_on (nvs (prefs saved)) mpu_in bmp_in) in
  nvs (prefs saved) !! ("mpu", "ok") = Some (PBool true) /\
  offsets reloaded = offsets st /\ offsetsLoaded reloaded = true /\
  offsets rebooted = offsets st /\ offsetsLoaded rebooted = true.
Proof.
  cbv zeta. split; [apply (saved_store_reads st f0) |].
  assert (E1 : forall s : State, nvs (prefs (set_offsets o' s)) = nvs (prefs s))
    by reflexivity.
  assert (E2 : forall store : gmap (string * string) pval,
            nvs (prefs (mpu_update (set_bmp_ok (bmp_begin b)
                                      (delay 50 (power_on store mpu_in bmp_in)))))
            = store) by reflexivity.
  pose proof (load_after_save st (set_offsets o' (saveOffsetsToPrefs st)) (E1 _)) as H12.
  pose proof (load_after_save st _ (E2 (nvs (prefs (saveOffsetsToPrefs st))))) as H34.
  pose proof (setup_calibration atan2 b
                (power_on (nvs (prefs (saveOffsetsToPrefs st))) mpu_in bmp_in)) as Hs.
  cbv zeta in Hs. revert H12 H34 Hs.
  generalize (nvs (prefs (saveOffsetsToPrefs st))). intros store.
  generalize (loadOffsetsFromPrefs (set_offsets o' (saveOffsetsToPrefs st))).
  generalize (setup atan2 b (power_on store mpu_in bmp_in)).
  generalize (loadOffsetsFromPrefs
                (mpu_update (set_bmp_ok (bmp_begin b) (delay 50 (power_on store mpu_in bmp_in))))).
  intros loaded rebooted reloaded [H1 H2] [H3 H4] [Ho Hl].
  split; [exact H1 |]. split; [exact H2 |].
  split; [rewrite Ho; exact H3 | rewrite Hl; exact H4].
Qed.

(** C6. When the presence marker [ok] is absent from the store, or false,
    a load leaves the six offsets and [offsetsLoaded] as they are and reads
    nothing but the marker; a unit that starts on such a store runs with the
    built-in offsets and [offsetsLoaded] false. In every load the marker is
    the first value read, and an offset is read only when it was true. *)
Theorem load_without_marker_keeps_defaults
    (atan2 : float -> float -> float) (st : State)
    (b : Boot) (mpu_in : nat -> MpuData) (bmp_in : nat -> BmpData) :
  marker_unset (nvs (prefs st)) ->
  let st' := loadOffsetsFromPrefs st in
  let booted := setup atan2 b (power_on (nvs (prefs st)) mpu_in bmp_in) in
  offsets st' = offsets st /\ offsetsLoaded st' = offsetsLoaded st /\
  new_calls st st' = [PrefsBegin "mpu" true; GetBool "ok" false; PrefsEnd] /\
  offsets booted = default_offsets /\ offsetsLoaded booted = false /\
  (forall (s : State) (key : string) (v : float),
     In (GetFloat key v) (new_calls s (loadOffsetsFromPrefs s)) ->
     exists rest,
       new_calls s (loadOffsetsFromPrefs s)
       = PrefsBegin "mpu" true :: GetBool "ok" true :: rest).
Proof.
  intros Hun. apply marker_unset_value in Hun. cbv zeta.
  destruct (loadOffsetsFromPrefs_unset st Hun) as (Ho & Hl & _ & Hc).
  split; [exact Ho |]. split; [exact Hl |]. split; [exact Hc |].
  destruct (setup_calibration atan2 b (power_on (nvs (prefs st)) mpu_in bmp_in))
    as [Hbo Hbl].
  cbv zeta in Hbo, Hbl. rewrite Hbo, Hbl.
  set (s0 := mpu_update _).
  assert (Hun0 : marker_value (nvs (prefs s0)) = false) by exact Hun.
  destruct (loadOffsetsFromPrefs_unset s0 Hun0) as (Ho0 & Hl0 & _).
  split; [rewrite Ho0; reflexivity |]. split; [rewrite Hl0; reflexivity |].
  intros s key v Hin.
  destruct (marker_value (nvs (prefs s))) eqn:Hm.
  - destruct (loadOffsetsFromPrefs_set s Hm) as (_ & _ & Hcs). cbv zeta in Hcs.
    rewrite Hcs. eexists. reflexivity.
  - destruct (loadOffsetsFromPrefs_unset s Hm) as (_ & _ & _ & Hcs).
    rewrite Hcs in Hin. cbn [In] in Hin.
    destruct Hin as [H | [H | [H | []]]]; discriminate.
Qed.

(** A unit with an empty flash starts on the built-in offsets. *)
Lemma empty_flash_keeps_defaults :
  marker_unset (nvs (prefs flat_unit)) /\
  let st' := loadOffsetsFromPrefs flat_unit in
  let booted := setup atan2_axis quiet_boot
                  (power_on (nvs (prefs flat_unit)) (fun _ => flat_sample)
                     (fun _ => still_air)) in
  offsets st' = offsets flat_unit /\ offsetsLoaded st' = offsetsLoaded flat_unit /\
  new_calls flat_unit st' = [PrefsBegin "mpu" true; GetBool "ok" false; PrefsEnd] /\
  offsets booted = default_offsets /\ offsetsLoaded booted = false /\
  (forall (s : State) (key : string) (v : float),
     In (GetFloat key v) (new_calls s (loadOffsetsFromPrefs s)) ->
     exists rest,
       new_calls s (loadOffsetsFromPrefs s)
       = PrefsBegin "mpu" true :: GetBool "ok" true :: rest).
Proof.
  assert (H : marker_unset (nvs (prefs flat_unit))) by (left; reflexivity).
  split; [exact H |].
  exact (load_without_marker_keeps_defaults atan2_axis flat_unit quiet_boot
           (fun _ => flat_sample) (fun _ => still_air) H).
Defined.

(** * The display arbiter *)








Lemma loop_stages (atan2 : float -> float -> float) (html : string)
    (String_ul : Z -> string) (String_f : float -> Z -> string)
    (t : Tick) (st : State) :
  loop atan2 html String_ul String_f t st =
  delay 20
    (refresh_stage atan2
       (handleClient atan2 html String_ul String_f (pending t)
          (edge_stage atan2 (set_irActive (alert t) (mpu_update st))))).
Proof. reflexivity. Qed.









(** * The sketch as a whole *)

(** ** Access control *)

Lemma checkAuth_authenticated (st : State) :
  checkAuth st = authenticated (client (server st)).
Proof.
  unfold checkAuth, authenticated, USE_BASIC_AUTH. cbn [negb].
  destruct (hasAuthorization (client (server st))); reflexivity.
Qed.





(** ** What a calibration run consumes *)

Lemma sampling_loop_sensor (n : nat) (ms : Z) (s : Sums) (st : State) :
  let st' := snd (sampling_loop n ms s st) in
  clock st' = clock st + Z.of_nat n * ms /\
  mpu_updates (mpu st') = (mpu_updates (mpu st) + n)%nat /\
  mpu_feed (mpu st') = mpu_feed (mpu st).
Proof.
  cbv zeta. revert s st. induction n as [| n IH]; intros s st.
  - cbn [sampling_loop snd]. repeat split; lia.
  - cbn [sampling_loop].
    destruct (IH (accumulate s (mpu_now (mpu (mpu_update st))))
                 (delay ms (mpu_update st))) as (Hc & Hu & Hf).
    rewrite Hc, Hu, Hf. cbn [delay set_clock clock mpu mpu_update set_mpu mpu_updates mpu_feed].
    repeat split; lia.
Qed.

Lemma doAveragingCalibration_sensor (samples : N) (ms : Z) (st : State) :
  let st' := calibration_state (doAveragingCalibration samples ms st) in
  clock st' = clock st + 200 + Z.of_N samples * ms /\
  mpu_updates (mpu st') = (mpu_updates (mpu st) + N.to_nat samples)%nat /\
  mpu_feed (mpu st') = mpu_feed (mpu st).
Proof.
  cbv zeta. unfold doAveragingCalibration.
  pose proof (sampling_loop_sensor (N.to_nat samples) ms zero_sums (delay 200 st)) as H.
  cbv zeta in H.
  destruct (sampling_loop (N.to_nat samples) ms zero_sums (delay 200 st)) as [s st'].
  cbn [snd] in H. destruct H as (Hc & Hu & Hf).
  destruct (F32.ltb _ fhalf); cbn [calibration_state snd];
    rewrite Hc, Hu, Hf; cbn [delay set_clock clock mpu]; repeat split; lia.
Qed.

Lemma saveOffsetsToPrefs_frame (st : State) :
  let st' := saveOffsetsToPrefs st in
  bmp_ok st' = bmp_ok st /\ lcd_last st' = lcd_last st /\
  offsets st' = offsets st /\ offsetsLoaded st' = offsetsLoaded st /\
  lastIrActive st' = lastIrActive st /\ irActive st' = irActive st /\
  mpu st' = mpu st /\ bmp st' = bmp st /\ lcd st' = lcd st /\
  server st' = server st /\ clock st' = clock st.
Proof. cbv zeta. repeat split. Qed.

(** The outcome of an authenticated [/calibrate] that succeeds. *)
Lemma handleCalibrate_success (String_f : float -> Z -> string) (st : State) :
  checkAuth st = true ->
  calibration_ok (doAveragingCalibration 800 3 st) = true ->
  let r := doAveragingCalibration 800 3 st in
  handleCalibrate String_f st =
  server_send (Send 200 "application/json" (json_offsets String_f (calibration_out r)))
    (saveOffsetsToPrefs (set_offsets (calibration_out r) (calibration_state r))).
Proof.
  intros Hauth Hok. cbv zeta. unfold handleCalibrate. rewrite Hauth. cbn [negb].
  revert Hok. generalize (doAveragingCalibration 800 3 st). intros [[ok out] st1].
  cbn [calibration_ok calibration_out calibration_state fst snd].
  intros ->. cbn [negb]. reflexivity.
Qed.

Lemma handleCalibrate_clock (String_f : float -> Z -> string) (st : State) :
  clock (handleCalibrate String_f st) = clock st + if checkAuth st then 2600 else 0.
Proof.
  destruct (checkAuth st) eqn:Hauth.
  - pose proof (handleCalibrate_authorized String_f st Hauth) as Hh. cbv zeta in Hh.
    destruct (doAveragingCalibration_sensor 800 3 st) as (Hc & _). cbv zeta in Hc.
    revert Hh Hc. generalize (doAveragingCalibration 800 3 st). intros r Hh Hc.
    destruct (calibration_ok r).
    + destruct Hh as [body ->]. cbn [clock server_send set_server].
      destruct (saveOffsetsToPrefs_frame (set_offsets (calibration_out r) (calibration_state r)))
        as (_ & _ & _ & _ & _ & _ & _ & _ & _ & _ & Hk).
      rewrite Hk. cbn [clock set_offsets]. rewrite Hc.
      change (Z.of_N 800 * 3) with 2400. lia.
    + rewrite Hh. cbn [clock server_send set_server]. rewrite Hc.
      change (Z.of_N 800 * 3) with 2400. lia.
  - rewrite handleCalibrate_unauthorized by exact Hauth.
    cbn [clock server_send set_server]. lia.
Qed.

Lemma handleCalibrate_sensor (String_f : float -> Z -> string) (st : State) :
  let st' := handleCalibrate String_f st in
  mpu_updates (mpu st')
  = (mpu_updates (mpu st) + if checkAuth st then N.to_nat 800 else 0)%nat /\
  mpu_feed (mpu st') = mpu_feed (mpu st).
Proof.
  cbv zeta. destruct (checkAuth st) eqn:Hauth.
  - pose proof (handleCalibrate_authorized String_f st Hauth) as Hh. cbv zeta in Hh.
    destruct (doAveragingCalibration_sensor 800 3 st) as (_ & Hu & Hf). cbv zeta in Hu, Hf.
    revert Hh Hu Hf. generalize (doAveragingCalibration 800 3 st). intros r Hh Hu Hf.
    destruct (calibration_ok r).
    + destruct Hh as [body ->].
      destruct (saveOffsetsToPrefs_frame (set_offsets (calibration_out r) (calibration_state r)))
        as (_ & _ & _ & _ & _ & _ & Hm & _).
      cbn [mpu set_offsets] in Hm. revert Hm.
      generalize (saveOffsetsToPrefs (set_offsets (calibration_out r) (calibration_state r))).
      intros saved Hm. cbn [mpu server_send set_server].
      rewrite Hm, Hu, Hf. split; reflexivity.
    + rewrite Hh. cbn [mpu server_send set_server]. rewrite Hu, Hf. split; reflexivity.
  - rewrite handleCalibrate_unauthorized by exact Hauth.
    cbn [mpu server_send set_server]. split; [apply plus_n_O | reflexivity].
Qed.

(** X2. A calibration run reads exactly [samples] measurements from the
    MPU6050, whatever it measures and whether it succeeds or not, and its
    waits add up to 200 ms plus [sampleDelayMs] for each sample, so that it
    blocks the sketch for at least that long. [handleCalibrate] reads 800
    measurements and blocks for at least 2600 ms when the request is
    authenticated; when it is not, it reads none. *)
Theorem calibration_reads_and_blocks
    (String_f : float -> Z -> string) (samples : N) (sampleDelayMs : Z) (st : State) :
  let st' := calibration_state (doAveragingCalibration samples sampleDelayMs st) in
  let served := handleCalibrate String_f st in
  mpu_updates (mpu st') = (mpu_updates (mpu st) + N.to_nat samples)%nat /\
  mpu_feed (mpu st') = mpu_feed (mpu st) /\
  clock st + 200 + Z.of_N samples * sampleDelayMs <= clock st' /\
  mpu_updates (mpu served)
  = (mpu_updates (mpu st) + if checkAuth st then N.to_nat 800 else 0)%nat /\
  mpu_feed (mpu served) = mpu_feed (mpu st) /\
  clock st + (if checkAuth st then 2600 else 0) <= clock served.
Proof.
  cbv zeta.
  destruct (doAveragingCalibration_sensor samples sampleDelayMs st) as (Hc & Hu & Hf).
  cbv zeta in Hc, Hu, Hf.
  destruct (handleCalibrate_sensor String_f st) as (Hu' & Hf'). cbv zeta in Hu', Hf'.
  split; [exact Hu |]. split; [exact Hf |]. split; [rewrite Hc; lia |].
  split; [exact Hu' |]. split; [exact Hf' |].
  rewrite handleCalibrate_clock. lia.
Qed.

(** X3. An authenticated [/calibrate] whose run succeeds puts the computed
    offsets in force, reports the same six values in its JSON body, and
    stores them: a unit restarted on the flash it leaves starts with exactly
    these offsets and with [offsetsLoaded] set. *)
Theorem successful_calibration_survives_restart
    (atan2 : float -> float -> float) (String_f : float -> Z -> string) (st : State)
    (b : Boot) (mpu_in : nat -> MpuData) (bmp_in : nat -> BmpData) :
  checkAuth st = true ->
  calibration_ok (doAveragingCalibration 800 3 st) = true ->
  let out := calibration_out (doAveragingCalibration 800 3 st) in
  let st' := handleCalibrate String_f st in
  let rebooted := setup atan2 b (power_on (nvs (prefs st')) mpu_in bmp_in) in
  offsets st' = out /\
  sent (server st') =
    sent (server st) ++ [Send 200 "application/json" (json_offsets String_f out)] /\
  offsets rebooted = out /\ offsetsLoaded rebooted = true.
Proof.
  intros Hauth Hok. cbv zeta.
  rewrite (handleCalibrate_success String_f st Hauth Hok).
  destruct (doAveragingCalibration_result 800 3 st) as (_ & _ & Hsame).
  cbv zeta in Hsame. revert Hsame.
  generalize (doAveragingCalibration 800 3 st). intros r Hsame.
  destruct Hsame as (_ & _ & _ & _ & _ & _ & _ & _ & _ & Hsrv).
  revert Hsrv. generalize (calibration_state r), (calibration_out r).
  intros st2 out Hsrv.
  destruct (saveOffsetsToPrefs_frame (set_offsets out st2))
    as (_ & _ & Ho & _ & _ & _ & _ & _ & _ & Hs & _).
  pose proof (load_after_save (set_offsets out st2)) as Hload.
  revert Ho Hs Hload. generalize (saveOffsetsToPrefs (set_offsets out st2)).
  intros saved Ho Hs Hload.
  cbn [offsets server set_offsets] in Ho, Hs, Hload.
  cbn [offsets server prefs sent server_send set_server].
  split; [exact Ho |]. split; [now rewrite Hs, Hsrv |].
  destruct (setup_calibration atan2 b (power_on (nvs (prefs saved)) mpu_in bmp_in))
    as [Hbo Hbl].
  cbv zeta in Hbo, Hbl. rewrite Hbo, Hbl.
  apply Hload. reflexivity.
Qed.

(** The level unit calibrates, and restarts on the offsets it computed. *)
Lemma level_unit_keeps_its_calibration :
  checkAuth level_unit = true /\
  calibration_ok (doAveragingCalibration 800 3 level_unit) = true /\
  let out := calibration_out (doAveragingCalibration 800 3 level_unit) in
  let st' := handleCalibrate String_f_mark level_unit in
  let rebooted := setup atan2_axis quiet_boot
                    (power_on (nvs (prefs st')) (fun _ => flat_sample)
                       (fun _ => still_air)) in
  offsets st' = out /\
  sent (server st') =
    sent (server level_unit)
    ++ [Send 200 "application/json" (json_offsets String_f_mark out)] /\
  offsets rebooted = out /\ offsetsLoaded rebooted = true.
Proof.
  assert (H1 : checkAuth level_unit = true) by reflexivity.
  assert (H2 : calibration_ok (doAveragingCalibration 800 3 level_unit) = true)
    by (vm_compute; reflexivity).
  split; [exact H1 |]. split; [exact H2 |].
  exact (successful_calibration_survives_restart atan2_axis String_f_mark level_unit
           quiet_boot (fun _ => flat_sample) (fun _ => still_air) H1 H2).
Defined.

(** ** The passes of [loop] *)

Lemma undisturbed_refl (st : State) : undisturbed st st.
Proof. repeat split. Qed.

Lemma undisturbed_trans (a b c : State) :
  undisturbed a b -> undisturbed b c -> undisturbed a c.
Proof.
  unfold undisturbed. intros (? & ? & ? & ?) (? & ? & ? & ?).
  repeat split; congruence.
Qed.

Lemma readSensors_undisturbed (atan2 : float -> float -> float) (st : State) :
  undisturbed st (snd (readSensors atan2 st)).
Proof.
  destruct (readSensors_frame atan2 st) as (_ & _ & ? & ? & _ & _ & ? & _ & _ & ?).
  repeat split; assumption.
Qed.

Lemma server_send_undisturbed (r : Response) (st : State) :
  undisturbed st (server_send r st).
Proof. repeat split. Qed.

Lemma restoreNormalDisplay_undisturbed (atan2 : float -> float -> float) (st : State) :
  undisturbed st (restoreNormalDisplay atan2 st).
Proof.
  unfold restoreNormalDisplay.
  pose proof (readSensors_undisturbed atan2 st) as H.
  destruct (readSensors atan2 st) as [r st1]. cbn [snd] in H.
  eapply undisturbed_trans; [exact H | repeat split].
Qed.

Lemma edge_stage_undisturbed (atan2 : float -> float -> float) (st : State) :
  undisturbed st (edge_stage atan2 st).
Proof.
  unfold edge_stage.
  destruct (negb (Bool.eqb (irActive st) (lastIrActive st))); [| apply undisturbed_refl].
  destruct (irActive st).
  - repeat split.
  - pose proof (restoreNormalDisplay_undisturbed atan2 st) as H.
    revert H. generalize (restoreNormalDisplay atan2 st). intros s1 H.
    eapply undisturbed_trans; [exact H | repeat split].
Qed.

Lemma refresh_stage_undisturbed (atan2 : float -> float -> float) (st : State) :
  undisturbed st (refresh_stage atan2 st).
Proof.
  unfold refresh_stage. destruct (refresh_due st); [| apply undisturbed_refl].
  pose proof (readSensors_undisturbed atan2 st) as H.
  destruct (readSensors atan2 st) as [r st1]. cbn [snd] in H.
  eapply undisturbed_trans; [exact H | repeat split].
Qed.

Lemma handleData_undisturbed (atan2 : float -> float -> float)
    (String_ul : Z -> string) (String_f : float -> Z -> string) (st : State) :
  undisturbed st (handleData atan2 String_ul String_f st).
Proof.
  unfold handleData. destruct (negb (checkAuth st)).
  - apply server_send_undisturbed.
  - pose proof (readSensors_undisturbed atan2 st) as H.
    destruct (readSensors atan2 st) as [r st1]. cbn [snd] in H.
    eapply undisturbed_trans; [exact H | apply server_send_undisturbed].
Qed.

(** The request that [handleClient] dispatches is the client of the
    handlers. *)
Lemma handleClient_route (atan2 : float -> float -> float) (html : string)
    (String_ul : Z -> string) (String_f : float -> Z -> string)
    (r : Request) (st : State) :
  let st1 := set_server {| client := r; sent := sent (server st) |} st in
  checkAuth st1 = authenticated r /\
  handleClient atan2 html String_ul String_f (Some r) st =
    if String.eqb (uri r) "/" then handleRoot html st1
    else if String.eqb (uri r) "/data" then handleData atan2 String_ul String_f st1
    else if String.eqb (uri r) "/calibrate" then handleCalibrate String_f st1
    else server_send (Send 404 "text/plain" "Not found") st1.
Proof. cbv zeta. split; [apply checkAuth_authenticated | reflexivity]. Qed.

Lemma calibrates_route (r : Request) :
  calibrates (Some r) = true ->
  String.eqb (uri r) "/" = false /\ String.eqb (uri r) "/data" = false /\
  String.eqb (uri r) "/calibrate" = true /\ authenticated r = true.
Proof.
  cbn [calibrates]. intros H. apply andb_true_iff in H. destruct H as [Hu Ha].
  pose proof Hu as Hu'. apply String.eqb_eq in Hu'. rewrite Hu'.
  repeat split; auto.
Qed.

Lemma handleClient_undisturbed (atan2 : float -> float -> float) (html : string)
    (String_ul : Z -> string) (String_f : float -> Z -> string)
    (req : option Request) (st : State) :
  calibrates req = false ->
  undisturbed st (handleClient atan2 html String_ul String_f req st).
Proof.
  intros Hc. destruct req as [r |]; [| apply undisturbed_refl].
  destruct (handleClient_route atan2 html String_ul String_f r st) as [Hauth ->].
  cbv zeta in Hauth. revert Hauth.
  assert (H1 : undisturbed st (set_server {| client := r; sent := sent (server st) |} st))
    by (repeat split).
  revert H1. generalize (set_server {| client := r; sent := sent (server st) |} st).
  intros st1 H1 Hauth.
  eapply undisturbed_trans; [exact H1 |].
  cbn [calibrates] in Hc.
  destruct (String.eqb (uri r) "/").
  { unfold handleRoot. destruct (negb (checkAuth st1)); apply server_send_undisturbed. }
  destruct (String.eqb (uri r) "/data"); [apply handleData_undisturbed |].
  destruct (String.eqb (uri r) "/calibrate"); [| apply server_send_undisturbed].
  cbn [andb] in Hc. rewrite <- Hauth in Hc.
  rewrite handleCalibrate_unauthorized by exact Hc. apply server_send_undisturbed.
Qed.

Lemma handleClient_clock (atan2 : float -> float -> float) (html : string)
    (String_ul : Z -> string) (String_f : float -> Z -> string)
    (req : option Request) (st : State) :
  clock (handleClient atan2 html String_ul String_f req st)
  = clock st + if calibrates req then 2600 else 0.
Proof.
  destruct (calibrates req) eqn:Hc.
  - destruct req as [r |]; [| discriminate].
    destruct (calibrates_route r Hc) as (H1 & H2 & H3 & H4).
    destruct (handleClient_route atan2 html String_ul String_f r st) as [Hauth ->].
    cbv zeta in Hauth. rewrite H1, H2, H3. rewrite H4 in Hauth. revert Hauth.
    assert (Hk : clock (set_server {| client := r; sent := sent (server st) |} st) = clock st)
      by reflexivity.
    revert Hk. generalize (set_server {| client := r; sent := sent (server st) |} st).
    intros st1 Hk Hauth. rewrite handleCalibrate_clock, Hauth, Hk. reflexivity.
  - destruct (handleClient_undisturbed atan2 html String_ul String_f req st Hc)
      as (_ & _ & _ & Hk).
    rewrite Hk. lia.
Qed.

(** A pass of [loop] on the calibration in force, the store and the clock. *)
Lemma loop_undisturbed (atan2 : float -> float -> float) (html : string)
    (String_ul : Z -> string) (String_f : float -> Z -> string)
    (t : Tick) (st : State) :
  calibrates (pending t) = false ->
  let st' := loop atan2 html String_ul String_f t st in
  offsets st' = offsets st /\ offsetsLoaded st' = offsetsLoaded st /\
  prefs st' = prefs st /\ clock st' = clock st + 20.
Proof.
  intros Hc. cbv zeta. rewrite loop_stages.
  assert (H1 : undisturbed st (set_irActive (alert t) (mpu_update st))) by (repeat split).
  revert H1. generalize (set_irActive (alert t) (mpu_update st)). intros st1 H1.
  pose proof (edge_stage_undisturbed atan2 st1) as H2.
  revert H2. generalize (edge_stage atan2 st1). intros st2 H2.
  pose proof (handleClient_undisturbed atan2 html String_ul String_f (pending t) st2 Hc) as H3.
  revert H3. generalize (handleClient atan2 html String_ul String_f (pending t) st2).
  intros st3 H3.
  pose proof (refresh_stage_undisturbed atan2 st3) as H4.
  revert H4. generalize (refresh_stage atan2 st3). intros st4 H4.
  destruct (undisturbed_trans _ _ _ (undisturbed_trans _ _ _ H1 H2)
              (undisturbed_trans _ _ _ H3 H4)) as (Ho & Hl & Hp & Hk).
  cbn [delay set_clock offsets offsetsLoaded prefs clock].
  rewrite Ho, Hl, Hp, Hk. repeat split.
Qed.

(** X4. The calibration in force changes only through an authenticated
    [/calibrate]: over any number of passes of [loop] none of which serves
    one, whatever the alert input does and whatever else is requested, the
    six offsets, [offsetsLoaded] and the whole Preferences object are as at
    the start. *)
Theorem offsets_change_only_by_authorized_calibration
    (atan2 : float -> float -> float) (html : string)
    (String_ul : Z -> string) (String_f : float -> Z -> string)
    (ts : list Tick) (st : State) :
  Forall (fun t => calibrates (pending t) = false) ts ->
  let st' := run atan2 html String_ul String_f ts st in
  offsets st' = offsets st /\ offsetsLoaded st' = offsetsLoaded st /\
  prefs st' = prefs st.
Proof.
  cbv zeta. revert st. induction ts as [| t ts IH]; intros st Hall.
  - repeat split.
  - inversion Hall as [| ? ? Ht Hts]; subst. cbn [run].
    destruct (loop_undisturbed atan2 html String_ul String_f t st Ht) as (Ho & Hl & Hp & _).
    cbv zeta in Ho, Hl, Hp. revert Ho Hl Hp.
    generalize (loop atan2 html String_ul String_f t st). intros st1 Ho Hl Hp.
    destruct (IH st1 Hts) as (Ho' & Hl' & Hp').
    rewrite Ho', Hl', Hp'. auto.
Qed.

(** Three passes of the booted unit, with a rejected [/calibrate] and a
    served [/data], leave its calibration alone. *)
Lemma served_unit_keeps_its_offsets :
  let ts := [tick false None; tick true (Some (intruder "/calibrate"));
             tick false (Some (authorized "/data"))] in
  Forall (fun t => calibrates (pending t) = false) ts /\
  let st' := run atan2_axis "" String_ul_mark String_f_mark ts booted_unit in
  offsets st' = offsets booted_unit /\ offsetsLoaded st' = offsetsLoaded booted_unit /\
  prefs st' = prefs booted_unit.
Proof.
  cbv zeta.
  assert (H : Forall (fun t => calibrates (pending t) = false)
                [tick false None; tick true (Some (intruder "/calibrate"));
                 tick false (Some (authorized "/data"))])
    by (repeat constructor).
  split; [exact H |].
  exact (offsets_change_only_by_authorized_calibration atan2_axis "" String_ul_mark
           String_f_mark _ booted_unit H).
Defined.

Lemma loop_clock (atan2 : float -> float -> float) (html : string)
    (String_ul : Z -> string) (String_f : float -> Z -> string)
    (t : Tick) (st : State) :
  clock (loop atan2 html String_ul String_f t st)
  = clock st + if calibrates (pending t) then 2620 else 20.
Proof.
  rewrite loop_stages.
  assert (H1 : clock (set_irActive (alert t) (mpu_update st)) = clock st) by reflexivity.
  revert H1. generalize (set_irActive (alert t) (mpu_update st)). intros st1 H1.
  destruct (edge_stage_undisturbed atan2 st1) as (_ & _ & _ & H2).
  revert H2. generalize (edge_stage atan2 st1). intros st2 H2.
  pose proof (handleClient_clock atan2 html String_ul String_f (pending t) st2) as H3.
  revert H3. generalize (handleClient atan2 html String_ul String_f (pending t) st2).
  intros st3 H3.
  destruct (refresh_stage_undisturbed atan2 st3) as (_ & _ & _ & H4).
  revert H4. generalize (refresh_stage atan2 st3). intros st4 H4.
  cbn [delay set_clock clock]. rewrite H4, H3, H2, H1.
  destruct (calibrates (pending t)); lia.
Qed.

(** X5. A pass of [loop] lasts at least 20 ms, and a pass that serves an
    authenticated [/calibrate] lasts at least 2620 ms, since the calibration
    runs inside the pass. Over any passes, the time that goes by is at
    least 20 ms for each pass and 2600 ms more for each calibration
    served. *)
Theorem pass_lasts_at_least_its_waits
    (atan2 : float -> float -> float) (html : string)
    (String_ul : Z -> string) (String_f : float -> Z -> string)
    (ts : list Tick) (st : State) :
  (forall t, clock st + (if calibrates (pending t) then 2620 else 20)
             <= clock (loop atan2 html String_ul String_f t st)) /\
  clock st + 20 * Z.of_nat (length ts)
  + 2600 * Z.of_nat (length (List.filter (fun t => calibrates (pending t)) ts))
  <= clock (run atan2 html String_ul String_f ts st).
Proof.
  split.
  - intros t. rewrite loop_clock. lia.
  - revert st. induction ts as [| t ts IH]; intros st.
    + cbn [run length List.filter Z.of_nat]. lia.
    + cbn [run length List.filter].
      specialize (IH (loop atan2 html String_ul String_f t st)).
      rewrite loop_clock in IH.
      destruct (calibrates (pending t)); cbn [length] in *; lia.
Qed.

(** ** The refresh timer *)






(** ** Responses *)

Lemma handleData_sent (atan2 : float -> float -> float)
    (String_ul : Z -> string) (String_f : float -> Z -> string) (st : State) :
  exists resp, sent (server (handleData atan2 String_ul String_f st))
               = sent (server st) ++ [resp].
Proof.
  unfold handleData. destruct (negb (checkAuth st)).
  - eexists. reflexivity.
  - destruct (readSensors_frame atan2 st) as (_ & _ & _ & _ & _ & _ & _ & _ & Hs & _).
    destruct (readSensors atan2 st) as [r st1]. cbn [snd] in Hs.
    eexists. cbn [server server_send set_server sent]. rewrite Hs. reflexivity.
Qed.

Lemma handleCalibrate_sent (String_f : float -> Z -> string) (st : State) :
  exists resp, sent (server (handleCalibrate String_f st)) = sent (server st) ++ [resp].
Proof.
  destruct (checkAuth st) eqn:Hauth.
  - pose proof (handleCalibrate_authorized String_f st Hauth) as Hh. cbv zeta in Hh.
    destruct (doAveragingCalibration_result 800 3 st) as (_ & _ & Hs).
    cbv zeta in Hs. revert Hh Hs.
    generalize (doAveragingCalibration 800 3 st). intros r Hh Hs.
    destruct Hs as (_ & _ & _ & _ & _ & _ & _ & _ & _ & Hsrv).
    destruct (calibration_ok r).
    + destruct Hh as [body ->].
      destruct (saveOffsetsToPrefs_frame (set_offsets (calibration_out r) (calibration_state r)))
        as (_ & _ & _ & _ & _ & _ & _ & _ & _ & Hk & _).
      revert Hk. generalize (saveOffsetsToPrefs
                               (set_offsets (calibration_out r) (calibration_state r))).
      intros saved Hk. cbn [server set_offsets] in Hk.
      eexists. cbn [server server_send set_server sent]. rewrite Hk, Hsrv. reflexivity.
    + rewrite Hh. eexists. cbn [server server_send set_server sent].
      rewrite Hsrv. reflexivity.
  - rewrite handleCalibrate_unauthorized by exact Hauth. eexists. reflexivity.
Qed.

Lemma handleClient_sent (atan2 : float -> float -> float) (html : string)
    (String_ul : Z -> string) (String_f : float -> Z -> string)
    (req : option Request) (st : State) :
  match req with
  | Some r =>
      exists resp, sent (server (handleClient atan2 html String_ul String_f req st))
                   = sent (server st) ++ [resp]
  | None => handleClient atan2 html String_ul String_f req st = st
  end.
Proof.
  destruct req as [r |]; [| reflexivity].
  destruct (handleClient_route atan2 html String_ul String_f r st) as [_ ->].
  assert (H1 : sent (server (set_server {| client := r; sent := sent (server st) |} st))
               = sent (server st)) by reflexivity.
  revert H1. generalize (set_server {| client := r; sent := sent (server st) |} st).
  intros st1 H1. rewrite <- H1.
  destruct (String.eqb (uri r) "/").
  { unfold handleRoot. destruct (negb (checkAuth st1)); eexists; reflexivity. }
  destruct (String.eqb (uri r) "/data"); [apply handleData_sent |].
  destruct (String.eqb (uri r) "/calibrate"); [apply handleCalibrate_sent |].
  eexists. reflexivity.
Qed.

Lemma edge_stage_server (atan2 : float -> float -> float) (st : State) :
  server (edge_stage atan2 st) = server st.
Proof.
  unfold edge_stage.
  destruct (negb (Bool.eqb (irActive st) (lastIrActive st))); [| reflexivity].
  destruct (irActive st); [reflexivity |].
  unfold restoreNormalDisplay.
  destruct (readSensors_frame atan2 st) as (_ & _ & _ & _ & _ & _ & _ & _ & Hs & _).
  destruct (readSensors atan2 st) as [r st1]. cbn [snd] in Hs.
  cbn [server set_lastIrActive lcd_draw set_lcd]. exact Hs.
Qed.

Lemma refresh_stage_server (atan2 : float -> float -> float) (st : State) :
  server (refresh_stage atan2 st) = server st.
Proof.
  unfold refresh_stage. destruct (refresh_due st); [| reflexivity].
  destruct (readSensors_frame atan2 st) as (_ & _ & _ & _ & _ & _ & _ & _ & Hs & _).
  destruct (readSensors atan2 st) as [r st1]. cbn [snd] in Hs.
  cbn [server set_lcd_last updateLCD lcd_draw set_lcd]. exact Hs.
Qed.

Lemma loop_sent (atan2 : float -> float -> float) (html : string)
    (String_ul : Z -> string) (String_f : float -> Z -> string)
    (t : Tick) (st : State) :
  exists rs, sent (server (loop atan2 html String_ul String_f t st))
             = sent (server st) ++ rs /\
             length rs = if has_request t then 1%nat else 0%nat.
Proof.
  rewrite loop_stages.
  assert (H1 : server (set_irActive (alert t) (mpu_update st)) = server st) by reflexivity.
  revert H1. generalize (set_irActive (alert t) (mpu_update st)). intros st1 H1.
  pose proof (edge_stage_server atan2 st1) as H2.
  revert H2. generalize (edge_stage atan2 st1). intros st2 H2.
  pose proof (handleClient_sent atan2 html String_ul String_f (pending t) st2) as H3.
  revert H3. generalize (handleClient atan2 html String_ul String_f (pending t) st2).
  intros st3 H3.
  pose proof (refresh_stage_server atan2 st3) as H4.
  revert H4. generalize (refresh_stage atan2 st3). intros st4 H4.
  cbn [server delay set_clock]. rewrite H4. unfold has_request.
  destruct (pending t) as [r |].
  - destruct H3 as [resp H3]. exists [resp]. rewrite H3, H2, H1. auto.
  - exists []. rewrite H3, H2, H1, app_nil_r. auto.
Qed.

(** X8. Every request is answered exactly once and nothing is sent
    unasked: over any passes of [loop] the list of responses only grows, by
    one response for each pass that finds a request pending. *)
Theorem every_request_gets_one_response
    (atan2 : float -> float -> float) (html : string)
    (String_ul : Z -> string) (String_f : float -> Z -> string)
    (ts : list Tick) (st : State) :
  exists rs,
    sent (server (run atan2 html String_ul String_f ts st)) = sent (server st) ++ rs /\
    length rs = length (List.filter has_request ts).
Proof.
  revert st. induction ts as [| t ts IH]; intros st.
  - exists []. cbn [run]. now rewrite app_nil_r.
  - cbn [run List.filter].
    destruct (loop_sent atan2 html String_ul String_f t st) as (rs1 & H1 & L1).
    revert H1. generalize (loop atan2 html String_ul String_f t st). intros st1 H1.
    destruct (IH st1) as (rs2 & H2 & L2).
    exists (rs1 ++ rs2). rewrite H2, H1, <- app_assoc. split; [reflexivity |].
    rewrite length_app, L1, L2. destruct (has_request t); reflexivity.
Qed.

(** ** The store *)

(** X9. A load only reads. Whatever the store holds, it is left as it was
    and the Preferences handle is closed on return. When the marker [ok] is
    stored true, each offset is taken from the store if a float is stored
    under its key and otherwise keeps its current value, key by key, and
    [offsetsLoaded] is set; with any other marker nothing changes. *)
Theorem load_only_reads_and_falls_back_per_key (st : State) :
  let store := nvs (prefs st) in
  let o := offsets st in
  let st' := loadOffsetsFromPrefs st in
  nvs (prefs st') = store /\
  opened (prefs st') = None /\
  offsets st' =
    (if marker_value store then
       {| accOffX := stored_float store "ax" (accOffX o);
          accOffY := stored_float store "ay" (accOffY o);
          accOffZ := stored_float store "az" (accOffZ o);
          gyrOffX := stored_float store "gx" (gyrOffX o);
          gyrOffY := stored_float store "gy" (gyrOffY o);
          gyrOffZ := stored_float store "gz" (gyrOffZ o) |}
     else o) /\
  offsetsLoaded st' = (marker_value store || offsetsLoaded st).
Proof.
  cbv zeta.
  assert (Hstore : nvs (prefs (loadOffsetsFromPrefs st)) = nvs (prefs st) /\
                   opened (prefs (loadOffsetsFromPrefs st)) = None).
  { unfold loadOffsetsFromPrefs.
    cbn [prefs_getBool prefs_begin prefs_log prefs set_prefs nvs opened calls].
    destruct (match nvs (prefs st) !! ("mpu", "ok") with
              | Some (PBool b) => b
              | _ => false
              end); split; reflexivity. }
  destruct Hstore as [Hn Hop]. split; [exact Hn |]. split; [exact Hop |].
  destruct (marker_value (nvs (prefs st))) eqn:Hm.
  - destruct (loadOffsetsFromPrefs_set st Hm) as (Ho & Hl & _). cbv zeta in Ho.
    rewrite Ho, Hl. split; reflexivity.
  - destruct (loadOffsetsFromPrefs_unset st Hm) as (Ho & Hl & _).
    rewrite Ho, Hl. split; reflexivity.
Qed.

Lemma saveOffsetsToPrefs_twice (st : State) :
  nvs (prefs (saveOffsetsToPrefs (saveOffsetsToPrefs st)))
  = nvs (prefs (saveOffsetsToPrefs st)).
Proof.
  rewrite (saveOffsetsToPrefs_store (saveOffsetsToPrefs st)).
  destruct (saveOffsetsToPrefs_frame st) as (_ & _ & -> & _).
  rewrite (saveOffsetsToPrefs_store st).
  generalize (nvs (prefs st)). intros m.
  apply map_eq. intros k.
  repeat match goal with
         | |- context [<[?k' := _]> _ !! k] =>
             destruct (decide (k' = k)) as [<- |];
             [repeat first [rewrite lookup_insert_eq
                           | rewrite lookup_insert_ne by discriminate]; reflexivity
             | rewrite !(lookup_insert_ne _ k' k) by assumption]
         end.
  repeat rewrite lookup_insert_ne by assumption. reflexivity.
Qed.

(** X10. A save writes the seven keys of the namespace ["mpu"] and
    nothing else: every other entry of the store is as before; the handle is
    closed on return; and saving again without a change of the offsets
    leaves the store as the first save left it. *)
Theorem save_touches_only_its_seven_keys (st : State) :
  let st' := saveOffsetsToPrefs st in
  (forall ns key, ns <> "mpu" \/ ~ In key offset_keys ->
     nvs (prefs st') !! (ns, key) = nvs (prefs st) !! (ns, key)) /\
  (forall key, In key offset_keys -> is_Some (nvs (prefs st') !! ("mpu", key))) /\
  opened (prefs st') = None /\
  nvs (prefs (saveOffsetsToPrefs st')) = nvs (prefs st').
Proof.
  cbv zeta. split; [| split; [| split]].
  - intros ns key Hk. rewrite saveOffsetsToPrefs_store.
    repeat (rewrite lookup_insert_ne;
            [| intros He; injection He as <- <-; destruct Hk as [Hk | Hk];
               [now apply Hk | apply Hk; cbn; tauto]]).
    reflexivity.
  - intros key Hk. rewrite saveOffsetsToPrefs_store. cbn [offset_keys In] in Hk.
    destruct Hk as [<- | [<- | [<- | [<- | [<- | [<- | [<- | []]]]]]]];
      repeat first [rewrite lookup_insert_eq | rewrite lookup_insert_ne by discriminate];
      eexists; reflexivity.
  - reflexivity.
  - apply saveOffsetsToPrefs_twice.
Qed.

(** ** Readings that are not numbers *)

Lemma sum_from_nan (l : list float) : fold_left add_sample l S754_nan = S754_nan.
Proof. induction l as [| x l IH]; [reflexivity | exact IH]. Qed.

Lemma sum_with_nan (l : list float) (a : double) :
  Exists (fun x => x = S754_nan) l -> fold_left add_sample l a = S754_nan.
Proof.
  intros H. revert a. induction H as [x l Hx | x l _ IH]; intros a; cbn [fold_left].
  - subst x. replace (add_sample a S754_nan) with S754_nan
      by (destruct a; reflexivity).
    apply sum_from_nan.
  - apply IH.
Qed.

Lemma mean_with_nan (l : list float) :
  Exists (fun x => x = S754_nan) l -> mean l = S754_nan.
Proof. intros H. unfold mean. now rewrite sum_with_nan. Qed.

(** The corrected acceleration of a reading. *)
Lemma readSensors_acc (atan2 : float -> float -> float) (st : State) :
  let raw := mpu_feed (mpu st) (mpu_updates (mpu st)) in
  let r := fst (readSensors atan2 st) in
  accX r = F32.sub (getAccX raw) (accOffX (offsets st)) /\
  accY r = F32.sub (getAccY raw) (accOffY (offsets st)) /\
  accZ r = F32.sub (getAccZ raw) (accOffZ (offsets st)).
Proof. cbv zeta. unfold readSensors. destruct (bmp_ok st); repeat split. Qed.

(** X11. The sanity check of the calibration does not catch a reading
    that is not a number. If one Z acceleration among the 800 samples of an
    authenticated [/calibrate] is NaN, the run reports success, NaN becomes
    the Z offset in force and is written to the store, and the corrected Z
    acceleration of every later reading is NaN. *)
Theorem nan_reading_is_calibrated_in
    (atan2 : float -> float -> float) (String_f : float -> Z -> string) (st : State) :
  checkAuth st = true ->
  Exists (fun d => getAccZ d = S754_nan) (window 800 st) ->
  let st' := handleCalibrate String_f st in
  calibration_ok (doAveragingCalibration 800 3 st) = true /\
  accOffZ (offsets st') = S754_nan /\
  nvs (prefs st') !! ("mpu", "az") = Some (PFloat S754_nan) /\
  marker_value (nvs (prefs st')) = true /\
  forall st2, offsets st2 = offsets st' ->
    accZ (fst (readSensors atan2 st2)) = S754_nan.
Proof.
  intros Hauth Hnan. cbv zeta.
  assert (Hmean : mean (map getAccZ (window 800 st)) = S754_nan).
  { apply mean_with_nan. apply List.Exists_map. exact Hnan. }
  destruct (doAveragingCalibration_result 800 3 st) as (Hout & Hok & _).
  cbv zeta in Hout, Hok. change (N.to_nat 800) with 800%nat in Hout, Hok.
  rewrite Hmean in Hok, Hout. change (negb _) with true in Hok.
  assert (Hz : accOffZ (calibration_out (doAveragingCalibration 800 3 st)) = S754_nan)
    by (rewrite Hout; reflexivity).
  clear Hout.
  rewrite (handleCalibrate_success String_f st Hauth Hok).
  revert Hok Hz. generalize (doAveragingCalibration 800 3 st). intros r Hok Hz.
  revert Hz. generalize (calibration_state r), (calibration_out r). intros st1 out Hz.
  destruct (saveOffsetsToPrefs_frame (set_offsets out st1)) as (_ & _ & Ho & _).
  destruct (saved_store_reads (set_offsets out st1) f0) as (_ & Hm & _).
  pose proof (saveOffsetsToPrefs_store (set_offsets out st1)) as Hstore.
  cbv zeta in Hm. revert Ho Hm Hstore.
  generalize (saveOffsetsToPrefs (set_offsets out st1)). intros saved Ho Hm Hstore.
  cbn [offsets set_offsets] in Ho, Hstore.
  cbn [offsets prefs server_send set_server].
  split; [exact Hok |]. split; [now rewrite Ho |].
  split.
  { rewrite Hstore. repeat (rewrite lookup_insert_ne by discriminate).
    rewrite lookup_insert_eq, Hz. reflexivity. }
  split; [exact Hm |].
  intros st2 H2. destruct (readSensors_acc atan2 st2) as (_ & _ & ->).
  rewrite H2, Ho, Hz. unfold F32.sub.
  destruct (getAccZ _); reflexivity.
Qed.

(** One faulty measurement among the 800 spoils the calibration of the
    level unit. *)
Lemma glitch_unit_stores_nan :
  checkAuth glitch_unit = true /\
  Exists (fun d => getAccZ d = S754_nan) (window 800 glitch_unit) /\
  let st' := handleCalibrate String_f_mark glitch_unit in
  calibration_ok (doAveragingCalibration 800 3 glitch_unit) = true /\
  accOffZ (offsets st') = S754_nan /\
  nvs (prefs st') !! ("mpu", "az") = Some (PFloat S754_nan) /\
  marker_value (nvs (prefs st')) = true /\
  forall st2, offsets st2 = offsets st' ->
    accZ (fst (readSensors atan2_axis st2)) = S754_nan.
Proof.
  assert (H1 : checkAuth glitch_unit = true) by reflexivity.
  assert (H2 : Exists (fun d => getAccZ d = S754_nan) (window 800 glitch_unit)).
  { apply List.Exists_exists. exists faulty_sample. split; [| reflexivity].
    unfold window. apply List.in_map_iff. exists 5%nat. split; [reflexivity |].
    apply List.in_seq. lia. }
  split; [exact H1 |]. split; [exact H2 |].
  exact (nan_reading_is_calibrated_in atan2_axis String_f_mark glitch_unit H1 H2).
Defined.

(** * Magnitudes through the calibration arithmetic *)

Lemma normal32_inv (b : float) :
  normal32 b = true ->
  exists s m e, b = S754_finite s m e /\ bounded F32.prec F32.emax m e = true /\
                2 ^ 23 <= Zpos m < 2 ^ 24 /\ -149 <= e <= 104.
Proof.
  destruct b as [| | | s m e]; try discriminate. cbn [normal32]. intros H.
  apply andb_true_iff in H. destruct H as [Hb Hm]. apply Z.leb_le in Hm.
  pose proof (bounded_inv _ _ (proj1 F32_bounds) m e Hb) as ([He1 He2] & Hm2 & _).
  rewrite emin32 in He1. unfold F32.prec, F32.emax in *.
  exists s, m, e. repeat split; auto; lia.
Qed.

Lemma representable32 (mB eB : Z) :
  2 ^ 23 <= mB < 2 ^ 24 -> -149 <= eB <= 104 ->
  Fl.representable F32.prec F32.emax (mB * 2 ^ (eB + 149)).
Proof.
  intros HmB HeB. exists mB, eB. rewrite emin32. unfold F32.prec, F32.emax.
  repeat split; try lia; f_equal; f_equal; lia.
Qed.

(** A multiple of a [float] magnitude is a [double] magnitude while the
    multiplied mantissa has at most 53 bits. *)
Lemma representable64_multiple (k mB eB : Z) :
  0 < k -> 0 < mB -> k * mB < 2 ^ 53 -> -149 <= eB <= 104 ->
  Fl.representable F64.prec F64.emax (k * (mB * 2 ^ (eB + 1074))).
Proof.
  intros Hk HmB Hlt HeB.
  replace (k * (mB * 2 ^ (eB + 1074)))
    with (k * mB * 2 ^ (eB - emin F64.prec F64.emax))
    by (rewrite emin64; replace (eB - -1074) with (eB + 1074) by lia; ring).
  apply representable_int; try apply F64_bounds.
  - change (2 ^ F64.prec) with (2 ^ 53). nia.
  - rewrite emin64. unfold F64.prec, F64.emax. lia.
Qed.

Lemma pow2_1074 (eB : Z) : -149 <= eB -> 2 ^ (eB + 1074) = 2 ^ (eB + 149) * 2 ^ 925.
Proof. intros H. rewrite <- Z.pow_add_r by lia. f_equal. lia. Qed.

Lemma f2d_within_bound (mB eB : Z) (x : float) :
  2 ^ 23 <= mB < 2 ^ 24 -> -149 <= eB <= 104 ->
  Fl.within F32.prec F32.emax (mB * 2 ^ (eB + 149)) x ->
  Fl.within F64.prec F64.emax (mB * 2 ^ (eB + 1074)) (f2d x).
Proof.
  intros HmB HeB [Hv Hm].
  pose proof (Z.pow_pos_nonneg 2 (eB + 1074) ltac:(lia) ltac:(lia)) as Hp.
  assert (HmB0 : 0 < mB) by (change (2 ^ 23) with 8388608 in HmB; lia).
  destruct x as [s | s | | s m e]; cbn [Fl.finite_valid] in Hv; try discriminate.
  - split; [reflexivity |]. cbn [Fl.mag]. apply Z.mul_nonneg_nonneg; lia.
  - cbn [Fl.mag] in Hm. rewrite emin32 in Hm.
    pose proof (bounded_inv _ _ (proj1 F32_bounds) m e Hv) as ([He1 He2] & _ & _).
    rewrite emin32 in He1.
    unfold f2d, convert.
    apply binary_normalize_within; try apply F64_bounds.
    + replace (mB * 2 ^ (eB + 1074)) with (1 * (mB * 2 ^ (eB + 1074))) by lia.
      apply representable64_multiple; lia.
    + rewrite emin64. lia.
    + rewrite emin64, pow2_1074 by lia.
      replace (Z.abs (cond_Zopp s (Z.pos m))) with (Z.pos m) by (destruct s; cbn; lia).
      replace (e - -1074) with (e - -149 + 925) by lia.
      rewrite Z.pow_add_r by lia.
      pose proof (Z.pow_pos_nonneg 2 925 ltac:(lia) ltac:(lia)).
      rewrite !Z.mul_assoc. apply Z.mul_le_mono_nonneg_r; [lia | exact Hm].
Qed.

Lemma d2f_within_bound (mB eB : Z) (x : double) :
  2 ^ 23 <= mB < 2 ^ 24 -> -149 <= eB <= 104 ->
  Fl.within F64.prec F64.emax (mB * 2 ^ (eB + 1074)) x ->
  Fl.within F32.prec F32.emax (mB * 2 ^ (eB + 149)) (d2f x).
Proof.
  intros HmB HeB [Hv Hm].
  pose proof (Z.pow_pos_nonneg 2 (eB + 149) ltac:(lia) ltac:(lia)) as Hp.
  assert (HmB0 : 0 < mB) by (change (2 ^ 23) with 8388608 in HmB; lia).
  destruct x as [s | s | | s m e]; cbn [Fl.finite_valid] in Hv; try discriminate.
  - split; [reflexivity |]. cbn [Fl.mag]. apply Z.mul_nonneg_nonneg; lia.
  - cbn [Fl.mag] in Hm. rewrite emin64 in Hm.
    pose proof (bounded_inv _ _ (proj1 F64_bounds) m e Hv) as ([He1 He2] & _ & _).
    rewrite emin64 in He1.
    unfold d2f, convert.
    apply (binary_normalize_within_gen F32.prec F32.emax (proj1 F32_bounds)
             _ e (mB * 2 ^ (eB + 149)) (-1074)).
    + now apply representable32.
    + lia.
    + rewrite emin32. lia.
    + rewrite emin32. change (-149 - -1074) with 925.
      rewrite <- Z.mul_assoc, <- pow2_1074 by lia.
      replace (Z.abs (cond_Zopp s (Z.pos m))) with (Z.pos m) by (destruct s; cbn; lia).
      exact Hm.
Qed.

(** The running sum of [k] readings within a bound stays within [k] times
    the bound. *)
Lemma sum_within_bound (mB eB : Z) (l : list float) (k : Z) (a : double) :
  2 ^ 23 <= mB < 2 ^ 24 -> -149 <= eB <= 104 ->
  Forall (Fl.within F32.prec F32.emax (mB * 2 ^ (eB + 149))) l -> 0 <= k ->
  (k + Z.of_nat (length l)) * 2 ^ 24 <= 2 ^ 53 ->
  Fl.within F64.prec F64.emax (k * (mB * 2 ^ (eB + 1074))) a ->
  Fl.within F64.prec F64.emax ((k + Z.of_nat (length l)) * (mB * 2 ^ (eB + 1074)))
    (fold_left add_sample l a).
Proof.
  intros HmB HeB. revert k a. induction l as [| x l IH]; intros k a Hall Hk Hlen Ha.
  - cbn [fold_left length]. now rewrite Z.add_0_r.
  - inversion Hall as [| ? ? Hx Hl]; subst.
    cbn [fold_left length] in *. rewrite Nat2Z.inj_succ in *.
    replace (k + Z.succ (Z.of_nat (length l))) with (k + 1 + Z.of_nat (length l)) in * by lia.
    apply IH; auto; try lia.
    unfold add_sample, F64.add.
    apply (SFadd_within F64.prec F64.emax (proj1 F64_bounds)
             (k * (mB * 2 ^ (eB + 1074))) (mB * 2 ^ (eB + 1074))); auto.
    + now apply f2d_within_bound.
    + apply representable64_multiple; try lia.
      change (2 ^ 24) with 16777216 in *. change (2 ^ 53) with 9007199254740992 in *.
      clear - HmB Hlen Hk. nia.
    + lia.
Qed.

(** The mean of readings within a bound is within the bound. *)
Lemma mean_within_bound (mB eB : Z) (l : list float) :
  2 ^ 23 <= mB < 2 ^ 24 -> -149 <= eB <= 104 ->
  l <> [] -> Z.of_nat (length l) * 2 ^ 24 <= 2 ^ 53 ->
  Forall (Fl.within F32.prec F32.emax (mB * 2 ^ (eB + 149))) l ->
  Fl.within F32.prec F32.emax (mB * 2 ^ (eB + 149)) (mean l).
Proof.
  intros HmB HeB Hne Hlen Hall.
  unfold mean. apply d2f_within_bound; auto.
  set (n := Z.of_nat (length l)) in *.
  assert (Hn : 0 < n) by (unfold n; destruct l; [congruence | cbn [length]; lia]).
  set (B := mB * 2 ^ (eB + 1074)).
  assert (Hsum : Fl.within F64.prec F64.emax (n * B) (fold_left add_sample l d0)).
  { replace n with (0 + n) by lia. unfold n, B. apply sum_within_bound; auto; try lia.
    split; [reflexivity |]. cbn. lia. }
  assert (Hn53 : n < 2 ^ 53).
  { change (2 ^ 24) with 16777216 in Hlen. change (2 ^ 53) with 9007199254740992 in *. lia. }
  assert (Hu : u2d (N.of_nat (length l)) = Fl.int_float F64.prec n).
  { rewrite u2d_int_float.
    - f_equal. unfold n. lia.
    - change (2 ^ 53)%N with 9007199254740992%N.
      change (2 ^ 53) with 9007199254740992 in Hn53. unfold n in Hn53. lia. }
  rewrite Hu.
  destruct (mag_int_float F64.prec F64.emax (proj1 F64_bounds) (proj2 F64_bounds) n)
    as [Hfv Hmag].
  { change (2 ^ F64.prec) with (2 ^ 53). lia. }
  unfold F64.div.
  apply (SFdiv_within F64.prec F64.emax (proj1 F64_bounds) (proj2 F64_bounds)
           (n * B)); auto.
  - rewrite Hmag, emin64. change (- -1074) with 1074.
    pose proof (Z.pow_pos_nonneg 2 1074 ltac:(lia) ltac:(lia)). nia.
  - replace B with (1 * B) by lia. unfold B.
    apply representable64_multiple; lia.
  - rewrite Hmag. lia.
Qed.

(** Comparison with a normal bound, in terms of magnitudes. *)
Lemma abs_le_within (x b : float) :
  normal32 b = true -> abs_le x b -> Fl.within F32.prec F32.emax (mag32 b) x.
Proof.
  intros Hb [Hv Hle].
  destruct (normal32_inv b Hb) as (sb & mb & eb & -> & Hbb & Hmb & Heb).
  unfold mag32. cbn [Fl.mag]. rewrite emin32.
  change (2 ^ 23) with 8388608 in Hmb. change (2 ^ 24) with 16777216 in Hmb.
  pose proof (Z.pow_pos_nonneg 2 (eb - -149) ltac:(lia) ltac:(lia)) as Hpb.
  unfold F32.abs, SFleb in Hle.
  destruct x as [s | s | | s m e]; cbn [SFabs SFcompare] in Hle; try discriminate.
  - split; [reflexivity |]. cbn [Fl.mag]. nia.
  - unfold F32.valid in Hv. cbn [valid_binary] in Hv.
    pose proof (bounded_inv _ _ (proj1 F32_bounds) m e Hv) as ([He1 He2] & Hm & _).
    rewrite emin32 in He1. change (2 ^ F32.prec) with 16777216 in Hm.
    split; [exact Hv |]. cbn [Fl.mag]. rewrite emin32.
    pose proof (Z.pow_pos_nonneg 2 (e - -149) ltac:(lia) ltac:(lia)) as Hpe.
    destruct (Z.compare_spec e eb) as [-> | Hlt | Hgt]; try discriminate.
    + destruct (Pos.compare_cont Eq m mb) eqn:Hc; try discriminate.
      * apply Pos.compare_eq in Hc. subst m. lia.
      * apply (proj1 (Pos.compare_lt_iff _ _)), Pos2Z.pos_lt_pos in Hc.
        apply Z.mul_le_mono_nonneg_r; lia.
    + replace (eb - -149) with (eb - e + (e - -149)) by lia.
      rewrite Z.pow_add_r by lia.
      assert (H2 : 2 ^ 1 <= 2 ^ (eb - e)) by (apply Z.pow_le_mono_r; lia).
      change (2 ^ 1) with 2 in H2.
      rewrite Z.mul_assoc. apply Z.mul_le_mono_nonneg_r; [lia |].
      clear - Hm Hmb H2. nia.
Qed.

Lemma within_abs_le (x b : float) :
  normal32 b = true -> Fl.within F32.prec F32.emax (mag32 b) x -> abs_le x b.
Proof.
  intros Hb [Hv Hle].
  destruct (normal32_inv b Hb) as (sb & mb & eb & -> & Hbb & Hmb & Heb).
  unfold mag32 in Hle. cbn [Fl.mag] in Hle. rewrite emin32 in Hle.
  change (2 ^ 23) with 8388608 in Hmb. change (2 ^ 24) with 16777216 in Hmb.
  pose proof (Z.pow_pos_nonneg 2 (eb - -149) ltac:(lia) ltac:(lia)) as Hpb.
  unfold abs_le, F32.valid, F32.abs, SFleb.
  destruct x as [s | s | | s m e]; cbn [Fl.finite_valid] in Hv; try discriminate.
  - split; reflexivity.
  - split; [exact Hv |]. cbn [SFabs SFcompare].
    pose proof (bounded_inv _ _ (proj1 F32_bounds) m e Hv) as ([He1 He2] & Hm & Hfull).
    rewrite emin32 in He1, Hfull. change (2 ^ (F32.prec - 1)) with 8388608 in Hfull.
    cbn [Fl.mag] in Hle. rewrite emin32 in Hle.
    pose proof (Z.pow_pos_nonneg 2 (e - -149) ltac:(lia) ltac:(lia)) as Hpe.
    destruct (Z.compare_spec e eb) as [-> | Hlt | Hgt]; try reflexivity.
    + destruct (Pos.compare_cont Eq m mb) eqn:Hc; try reflexivity. exfalso.
      apply (proj1 (Pos.compare_gt_iff _ _)), Pos2Z.pos_lt_pos in Hc.
      assert (Z.pos mb * 2 ^ (eb - -149) < Z.pos m * 2 ^ (eb - -149))
        by (apply Z.mul_lt_mono_pos_r; lia).
      lia.
    + exfalso. specialize (Hfull ltac:(lia)).
      revert Hle. replace (e - -149) with (e - eb + (eb - -149)) by lia.
      rewrite Z.pow_add_r by lia.
      assert (H2 : 2 ^ 1 <= 2 ^ (e - eb)) by (apply Z.pow_le_mono_r; lia).
      change (2 ^ 1) with 2 in H2. rewrite Z.mul_assoc. intros Hle.
      assert (Z.pos mb * 2 ^ (eb - -149) < Z.pos m * 2 ^ (e - eb) * 2 ^ (eb - -149)).
      { apply Z.mul_lt_mono_pos_r; [lia |]. clear - Hfull Hmb H2. nia. }
      lia.
Qed.

Lemma normal32_representable (b : float) :
  normal32 b = true -> Fl.representable F32.prec F32.emax (mag32 b).
Proof.
  intros Hb. destruct (normal32_inv b Hb) as (sb & mb & eb & -> & _ & Hmb & Heb).
  unfold mag32. cbn [Fl.mag]. rewrite emin32.
  replace (eb - -149) with (eb + 149) by lia. now apply representable32.
Qed.

(** A difference stays within a representable bound on the sum of the
    magnitudes. *)
Lemma SFsub_within (prec emax : Z) (X Y B : Z) (x y : spec_float) :
  1 < prec -> prec < emax ->
  Fl.within prec emax X x -> Fl.within prec emax Y y ->
  Fl.representable prec emax B -> X + Y <= B ->
  Fl.within prec emax B (SFsub prec emax x y).
Proof.
  intros Hprec Hemax [Hfx Hx] [Hfy Hy] HB HXY.
  pose proof (mag_nonneg prec emax x Hfx) as Hx0.
  pose proof (mag_nonneg prec emax y Hfy) as Hy0.
  destruct x as [sx | sx | | sx mx ex]; try discriminate;
    destruct y as [sy | sy | | sy my ey]; try discriminate.
  - cbn [SFsub]. destruct sx, sy; split; try reflexivity; cbn [Fl.mag] in *; lia.
  - cbn [SFsub]. split; [exact Hfy | cbn [Fl.mag] in *; lia].
  - cbn [SFsub]. split; [exact Hfx | lia].
  - cbn [Fl.finite_valid] in Hfx, Hfy. cbn [Fl.mag] in *.
    pose proof (bounded_inv prec emax Hprec mx ex Hfx) as ([Hex1 _] & _ & _).
    pose proof (bounded_inv prec emax Hprec my ey Hfy) as ([Hey1 _] & _ & _).
    cbn [SFsub]. cbv zeta.
    set (ez := Z.min ex ey).
    pose proof (shl_align_spec mx ex ez) as Hsx.
    pose proof (shl_align_spec my ey ez) as Hsy.
    destruct (shl_align mx ex ez) as [mx' ex'], (shl_align my ey ez) as [my' ey'].
    destruct Hsx as [Hex' Hmx'], Hsy as [Hey' Hmy']. cbn [fst].
    assert (ex' = ez) by (unfold ez in *; lia).
    assert (ey' = ez) by (unfold ez in *; lia). subst ex' ey'.
    apply binary_normalize_within; try assumption; [unfold ez; lia |].
    assert (Hpz : 0 < 2 ^ (ez - emin prec emax))
      by (apply Z.pow_pos_nonneg; unfold ez; lia).
    assert (H1 : Zpos mx' * 2 ^ (ez - emin prec emax) = Zpos mx * 2 ^ (ex - emin prec emax)).
    { rewrite Hmx', <- Z.mul_assoc, <- Z.pow_add_r by (unfold ez; lia).
      f_equal. f_equal. lia. }
    assert (H2 : Zpos my' * 2 ^ (ez - emin prec emax) = Zpos my * 2 ^ (ey - emin prec emax)).
    { rewrite Hmy', <- Z.mul_assoc, <- Z.pow_add_r by (unfold ez; lia).
      f_equal. f_equal. lia. }
    assert (Habs : Z.abs (cond_Zopp sx (Zpos mx') - cond_Zopp sy (Zpos my'))
                   <= Zpos mx' + Zpos my').
    { destruct sx, sy; cbn [cond_Zopp]; lia. }
    nia.
Qed.

Lemma sub_f0 (x : float) : F32.sub x f0 = x.
Proof. destruct x as [[] | [] | |]; reflexivity. Qed.

(** The mean of numbers within a normal bound is a number within that
    bound, for up to 2^29 of them. *)
Lemma mean_abs_le (b : float) (l : list float) :
  normal32 b = true -> l <> [] -> Z.of_nat (length l) * 2 ^ 24 <= 2 ^ 53 ->
  Forall (fun x => abs_le x b) l -> abs_le (mean l) b.
Proof.
  intros Hb Hne Hlen Hall. apply within_abs_le; [exact Hb |].
  assert (Hw : Forall (Fl.within F32.prec F32.emax (mag32 b)) l).
  { eapply Forall_impl; [exact Hall |]. intros x. now apply abs_le_within. }
  destruct (normal32_inv b Hb) as (sb & mb & eb & -> & _ & Hmb & Heb).
  unfold mag32 in *. cbn [Fl.mag] in *. rewrite emin32 in *.
  replace (eb - -149) with (eb + 149) in * by lia.
  now apply mean_within_bound.
Qed.

(** X13. The calibration arithmetic keeps the offsets in the range of the
    readings. For a window of 1 to 2^29 samples whose six channels are all
    numbers of magnitude at most [b], a normal [float], the three gyroscope
    offsets and the X and Y accelerometer offsets are numbers of magnitude
    at most [b], and the Z accelerometer offset is a number of magnitude at
    most any normal [float] [c] with [|b| + 1 <= |c|]: no sum overflows and
    no offset is infinite or NaN. *)
Theorem calibration_offsets_stay_in_range
    (samples : N) (sampleDelayMs : Z) (st : State) (b c : float) :
  (0 < samples <= 2 ^ 29)%N ->
  normal32 b = true -> normal32 c = true -> mag32 b + mag32 f1 <= mag32 c ->
  Forall (sample_within b) (window (N.to_nat samples) st) ->
  let out := calibration_out (doAveragingCalibration samples sampleDelayMs st) in
  abs_le (accOffX out) b /\ abs_le (accOffY out) b /\ abs_le (accOffZ out) c /\
  abs_le (gyrOffX out) b /\ abs_le (gyrOffY out) b /\ abs_le (gyrOffZ out) b.
Proof.
  intros [Hpos Hmax] Hb Hc Hbc Hall. cbv zeta.
  destruct (doAveragingCalibration_result samples sampleDelayMs st) as (-> & _ & _).
  cbn [accOffX accOffY accOffZ gyrOffX gyrOffY gyrOffZ].
  set (w := window (N.to_nat samples) st) in *.
  assert (Hne : w <> []).
  { intros He. apply (f_equal (@length _)) in He. unfold w in He.
    rewrite length_window in He. cbn [length] in He. lia. }
  assert (Hlen : Z.of_nat (length w) * 2 ^ 24 <= 2 ^ 53).
  { unfold w. rewrite length_window.
    change (2 ^ 29)%N with 536870912%N in Hmax.
    change (2 ^ 24) with 16777216. change (2 ^ 53) with 9007199254740992. lia. }
  assert (Hch : forall f : MpuData -> float,
             (forall d, sample_within b d -> abs_le (f d) b) ->
             abs_le (mean (map f w)) b).
  { intros f Hf. apply mean_abs_le; auto.
    - intros He. apply Hne. now apply map_eq_nil in He.
    - now rewrite length_map.
    - apply Forall_map. eapply Forall_impl; [exact Hall |]. exact Hf. }
  rewrite !sub_f0.
  split; [apply Hch; intros d H; apply H |].
  split; [apply Hch; intros d H; apply H |].
  split.
  { apply within_abs_le; [exact Hc |]. unfold F32.sub.
    apply (SFsub_within F32.prec F32.emax (mag32 b) (mag32 f1)); try apply F32_bounds.
    - apply abs_le_within; [exact Hb |]. apply Hch. intros d H. apply H.
    - split; [reflexivity | unfold mag32; lia].
    - now apply normal32_representable.
    - exact Hbc. }
  split; [apply Hch; intros d H; apply H |].
  split; apply Hch; intros d H; apply H.
Qed.

(** The readings of the level unit are within 16 g and 16 deg/s; so are its
    offsets, the Z offset within 17. *)
Lemma level_unit_offsets_stay_in_range :
  (0 < 800 <= 2 ^ 29)%N /\
  normal32 (F32.of_Z 16) = true /\ normal32 (F32.of_Z 17) = true /\
  mag32 (F32.of_Z 16) + mag32 f1 <= mag32 (F32.of_Z 17) /\
  Forall (sample_within (F32.of_Z 16)) (window (N.to_nat 800) level_unit) /\
  let out := calibration_out (doAveragingCalibration 800 3 level_unit) in
  abs_le (accOffX out) (F32.of_Z 16) /\ abs_le (accOffY out) (F32.of_Z 16) /\
  abs_le (accOffZ out) (F32.of_Z 17) /\
  abs_le (gyrOffX out) (F32.of_Z 16) /\ abs_le (gyrOffY out) (F32.of_Z 16) /\
  abs_le (gyrOffZ out) (F32.of_Z 16).
Proof.
  assert (H1 : (0 < 800 <= 2 ^ 29)%N) by (split; [reflexivity | discriminate]).
  assert (H2 : normal32 (F32.of_Z 16) = true) by reflexivity.
  assert (H3 : normal32 (F32.of_Z 17) = true) by reflexivity.
  assert (H4 : mag32 (F32.of_Z 16) + mag32 f1 <= mag32 (F32.of_Z 17))
    by (vm_compute; discriminate).
  assert (H5 : Forall (sample_within (F32.of_Z 16)) (window (N.to_nat 800) level_unit)).
  { apply Forall_window. intros k. repeat split. }
  split; [exact H1 |]. split; [exact H2 |]. split; [exact H3 |].
  split; [exact H4 |]. split; [exact H5 |].
  exact (calibration_offsets_stay_in_range 800 3 level_unit (F32.of_Z 16) (F32.of_Z 17)
           H1 H2 H3 H4 H5).
Defined.

(** * Exact results of the calibration arithmetic *)

Section Exact.
Variables prec emax : Z.
Hypothesis Hprec : 1 < prec.
Hypothesis Hemax : prec < emax.

Lemma scaled_spec (s : bool) (n e : Z) :
  0 < n < 2 ^ prec -> emin prec emax + prec <= e <= emax - prec ->
  exists c, scaled prec s n e = S754_finite s c (e - (prec - Zdigits2 n)) /\
            Zpos c = n * 2 ^ (prec - Zdigits2 n) /\
            bounded prec emax c (e - (prec - Zdigits2 n)) = true.
Proof.
  intros [Hn1 Hn2] [He1 He2].
  pose proof (Zdigits2_bounds n Hn1) as [Hd1 Hd2].
  pose proof (Zdigits2_pos n Hn1) as Hd0.
  assert (Hdp : Zdigits2 n <= prec) by (apply Zdigits2_le; lia).
  pose proof (pow2_pos (prec - Zdigits2 n) ltac:(lia)) as Hpp.
  exists (Z.to_pos (n * 2 ^ (prec - Zdigits2 n))).
  assert (Hc : Zpos (Z.to_pos (n * 2 ^ (prec - Zdigits2 n))) = n * 2 ^ (prec - Zdigits2 n)).
  { apply Z2Pos.id. nia. }
  repeat split.
  - exact Hc.
  - unfold bounded, canonical_mantissa. apply andb_true_iff. split.
    + apply Z.eqb_eq.
      change (Zpos (digits2_pos (Z.to_pos (n * 2 ^ (prec - Zdigits2 n)))))
        with (Zdigits2 (Zpos (Z.to_pos (n * 2 ^ (prec - Zdigits2 n))))).
      rewrite Hc, Zdigits2_mul_pow2 by lia.
      unfold SpecFloat.fexp. lia.
    + apply Z.leb_le. lia.
Qed.

(** Rounding a value [n * 2^e] whose normal form is a number returns that
    normal form. *)
Lemma binary_round_scaled (s : bool) (p : positive) (ex n e lo : Z) :
  0 < n < 2 ^ prec -> emin prec emax + prec <= e <= emax - prec ->
  lo <= ex -> lo <= emin prec emax ->
  Zpos p * 2 ^ (ex - lo) = n * 2 ^ (e - lo) ->
  binary_round prec emax s p ex = scaled prec s n e.
Proof.
  intros Hn He Hlo1 Hlo2 Hv.
  destruct (scaled_spec s n e Hn He) as (c & -> & Hc & Hb).
  pose proof (Zdigits2_pos n ltac:(lia)) as Hd0.
  assert (Hdp : Zdigits2 n <= prec) by (apply Zdigits2_le; lia).
  apply (binary_round_exact prec emax s p c ex _ lo Hb); try lia.
  rewrite Hv, Hc, <- Z.mul_assoc, <- Z.pow_add_r by lia.
  f_equal. f_equal. lia.
Qed.

(** Numbers of one sign and one scale add exactly while the sum has at
    most [prec] bits. *)
Lemma SFadd_scaled (s : bool) (a b e : Z) :
  0 < a -> 0 < b -> a + b < 2 ^ prec ->
  emin prec emax + prec <= e <= emax - prec ->
  SFadd prec emax (scaled prec s a e) (scaled prec s b e) = scaled prec s (a + b) e.
Proof.
  intros Ha Hb Hab He.
  destruct (scaled_spec s a e ltac:(lia) He) as (ca & -> & Hca & Hba).
  destruct (scaled_spec s b e ltac:(lia) He) as (cb & -> & Hcb & Hbb).
  pose proof (Zdigits2_pos a Ha) as Hda0. pose proof (Zdigits2_pos b Hb) as Hdb0.
  pose proof (Zdigits2_le a prec ltac:(lia) ltac:(lia)) as Hda.
  pose proof (Zdigits2_le b prec ltac:(lia) ltac:(lia)) as Hdb.
  cbn [SFadd]. cbv zeta.
  set (ea := e - (prec - Zdigits2 a)) in *. set (eb := e - (prec - Zdigits2 b)) in *.
  set (ez := Z.min ea eb).
  pose proof (shl_align_spec ca ea ez) as Hsa.
  pose proof (shl_align_spec cb eb ez) as Hsb.
  destruct (shl_align ca ea ez) as [ma ea'], (shl_align cb eb ez) as [mb eb'].
  destruct Hsa as [Hea' Hma], Hsb as [Heb' Hmb]. cbn [fst].
  assert (ea' = ez) by (unfold ez in *; lia).
  assert (eb' = ez) by (unfold ez in *; lia). clear Hea' Heb'. subst ea' eb'.
  assert (Hez : emin prec emax <= ez) by (unfold ez, ea, eb; lia).
  assert (Hval : Zpos (ma + mb) * 2 ^ (ez - emin prec emax)
                 = (a + b) * 2 ^ (e - emin prec emax)).
  { rewrite Pos2Z.inj_add, Hma, Hmb, Hca, Hcb, Z.mul_add_distr_r.
    rewrite <- !Z.mul_assoc, <- !Z.pow_add_r by (unfold ea, eb in *; lia).
    replace (prec - Zdigits2 a + (ea - ez + (ez - emin prec emax)))
      with (e - emin prec emax) by (unfold ea; lia).
    replace (prec - Zdigits2 b + (eb - ez + (ez - emin prec emax)))
      with (e - emin prec emax) by (unfold eb; lia).
    ring. }
  destruct s; cbn [cond_Zopp].
  - change (Z.neg ma + Z.neg mb) with (Z.neg (ma + mb)). cbn [binary_normalize].
    apply (binary_round_scaled true (ma + mb) ez (a + b) e (emin prec emax));
      auto; lia.
  - change (Z.pos ma + Z.pos mb) with (Z.pos (ma + mb)). cbn [binary_normalize].
    apply (binary_round_scaled false (ma + mb) ez (a + b) e (emin prec emax));
      auto; lia.
Qed.

(** Rounding an exact value that a number [c * 2^g] represents, given with
    a smaller exponent, returns that number. *)
Lemma binary_round_aux_exact (s : bool) (p c : positive) (e g : Z) :
  bounded prec emax c g = true -> e <= g ->
  Zpos p = Zpos c * 2 ^ (g - e) ->
  binary_round_aux prec emax s (Zpos p) e loc_Exact = S754_finite s c g.
Proof.
  intros Hb Hge Hp. pose proof Hb as Hb'.
  unfold bounded, canonical_mantissa in Hb'.
  apply andb_true_iff in Hb'. destruct Hb' as [Hc He].
  apply Z.eqb_eq in Hc. apply Z.leb_le in He.
  assert (Hdig : Zpos (digits2_pos p) + e = Zpos (digits2_pos c) + g).
  { assert (H1 : Zdigits2 (Zpos p) = Zdigits2 (Zpos c * 2 ^ (g - e))) by (now rewrite Hp).
    rewrite Zdigits2_mul_pow2 in H1 by lia. cbn [Zdigits2] in H1. lia. }
  unfold binary_round_aux, shr_fexp. cbn [Zdigits2].
  rewrite Hdig, Hc.
  pose proof (pow2_pos (g - e) ltac:(lia)) as Hpge.
  pose proof (holds_shr (Zpos p) 1 (shr_record_of_loc (Zpos p) loc_Exact) e (g - e)
                ltac:(lia) ltac:(lia)
                (holds_of_loc (Zpos p) 1 (Zpos p) loc_Exact
                   ltac:(now rewrite Z.div_1_r) ltac:(auto))) as [[Hm Hx] Hexp].
  destruct (shr (shr_record_of_loc (Zpos p) loc_Exact) e (g - e)) as [mrs e'].
  cbn [fst snd] in Hm, Hx, Hexp.
  rewrite Z.max_l in Hm, Hx, Hexp by lia. rewrite Z.mul_1_l in Hm, Hx.
  assert (e' = g) by lia. clear Hexp. subst e'.
  assert (Hmc : shr_m mrs = Zpos c).
  { rewrite Hm, Hp. apply Z.div_mul. lia. }
  assert (Hmod : Zpos p mod 2 ^ (g - e) = 0).
  { rewrite Hp. apply Z.mod_mul. lia. }
  destruct (Hx Hmod) as [Hr Hs]. clear Hm Hx.
  destruct mrs as [m r s']. cbn [shr_m shr_r shr_s] in *. subst m r s'.
  cbn [loc_of_shr_record round_nearest_even Zdigits2 shr_record_of_loc].
  rewrite Hc, Z.sub_diag. cbn [shr shr_m].
  replace (g <=? emax - prec) with true by (symmetry; apply Z.leb_le; lia).
  reflexivity.
Qed.

Lemma Zdigits2_mul (a b : Z) :
  0 < a -> 0 < b ->
  Zdigits2 a <= Zdigits2 (a * b) <= Zdigits2 a + Zdigits2 b.
Proof.
  intros Ha Hb.
  pose proof (Zdigits2_bounds a Ha) as [Ha1 Ha2].
  pose proof (Zdigits2_bounds b Hb) as [Hb1 Hb2].
  pose proof (Zdigits2_pos a Ha) as Hda. pose proof (Zdigits2_pos b Hb) as Hdb.
  split.
  - apply Zdigits2_mono. nia.
  - apply Zdigits2_le; [| lia]. split; [nia |].
    rewrite Z.pow_add_r by lia.
    pose proof (pow2_pos (Zdigits2 a) ltac:(lia)).
    pose proof (pow2_pos (Zdigits2 b) ltac:(lia)).
    clear - Ha Hb Ha2 Hb2 H H0. nia.
Qed.

(** The quotient of [n * m] units by the integer [n] is [m] units,
    exactly. *)
Lemma SFdiv_scaled (s : bool) (n m e : Z) :
  0 < n -> 0 < m -> n * m < 2 ^ prec ->
  emin prec emax + prec <= e <= emax - prec ->
  emin prec emax + prec <= 0 <= emax - prec ->
  SFdiv prec emax (scaled prec s (n * m) e) (scaled prec false n 0) = scaled prec s m e.
Proof.
  intros Hn Hm Hnm He H0.
  assert (Hn2 : n < 2 ^ prec) by nia.
  assert (Hm2 : m < 2 ^ prec) by nia.
  destruct (scaled_spec s (n * m) e ltac:(nia) He) as (c1 & -> & Hc1 & Hb1).
  destruct (scaled_spec false n 0 ltac:(lia) H0) as (c2 & -> & Hc2 & Hb2).
  destruct (scaled_spec s m e ltac:(lia) He) as (c3 & -> & Hc3 & Hb3).
  destruct (Zdigits2_mul n m Hn Hm) as [Hd1 Hd2].
  pose proof (Zdigits2_pos n Hn) as Hdn. pose proof (Zdigits2_pos m Hm) as Hdm.
  pose proof (Zdigits2_le (n * m) prec ltac:(nia) ltac:(lia)) as Hdnm.
  pose proof (Zdigits2_le n prec ltac:(lia) ltac:(lia)) as Hdn2.
  pose proof (Zdigits2_le m prec ltac:(lia) ltac:(lia)) as Hdm2.
  set (d1 := Zdigits2 (n * m)) in *. set (d2 := Zdigits2 n) in *.
  set (d3 := Zdigits2 m) in *.
  assert (Hdc1 : Zdigits2 (Zpos c1) = prec).
  { rewrite Hc1, Zdigits2_mul_pow2 by (try nia; lia). fold d1. lia. }
  assert (Hdc2 : Zdigits2 (Zpos c2) = prec).
  { rewrite Hc2, Zdigits2_mul_pow2 by lia. fold d2. lia. }
  cbn [SFdiv]. unfold SFdiv_core_binary. cbv zeta.
  rewrite Hdc1, Hdc2.
  replace (prec + (e - (prec - d1)) - (prec + (0 - (prec - d2)))) with (e + d1 - d2) by lia.
  replace (e - (prec - d1) - (0 - (prec - d2))) with (e + d1 - d2) by lia.
  unfold SpecFloat.fexp.
  replace (Z.min (Z.max (e + d1 - d2 - prec) (emin prec emax)) (e + d1 - d2))
    with (e + d1 - d2 - prec) by lia.
  replace (e + d1 - d2 - (e + d1 - d2 - prec)) with prec by lia.
  destruct prec as [| pp | pp] eqn:Epp; try lia. rewrite <- Epp in *.
  replace (Z.pos pp) with prec by lia. clear Epp pp.
  rewrite Z.shiftl_mul_pow2 by lia.
  set (q := m * 2 ^ (prec - d1 + d2)).
  assert (Hq0 : 0 < q) by (unfold q; pose proof (pow2_pos (prec - d1 + d2) ltac:(lia)); nia).
  assert (Hmul : Zpos c1 * 2 ^ prec = q * Zpos c2).
  { unfold q. rewrite Hc1, Hc2.
    replace (2 ^ prec) with (2 ^ (d1 - d1 + prec)) by (f_equal; lia).
    transitivity (n * m * (2 ^ (prec - d1) * 2 ^ prec)); [ring_simplify; f_equal; f_equal; lia |].
    transitivity (n * m * (2 ^ (prec - d1 + d2) * 2 ^ (prec - d2))); [| ring].
    rewrite <- !Z.pow_add_r by lia. f_equal. f_equal. lia. }
  assert (Hq : fst (Z.div_eucl (Zpos c1 * 2 ^ prec) (Zpos c2)) = q).
  { change (fst (Z.div_eucl (Zpos c1 * 2 ^ prec) (Zpos c2)))
      with ((Zpos c1 * 2 ^ prec) / Zpos c2).
    rewrite Hmul. apply Z.div_mul. lia. }
  assert (Hr : snd (Z.div_eucl (Zpos c1 * 2 ^ prec) (Zpos c2)) = 0).
  { change (snd (Z.div_eucl (Zpos c1 * 2 ^ prec) (Zpos c2)))
      with ((Zpos c1 * 2 ^ prec) mod Zpos c2).
    rewrite Hmul. apply Z.mod_mul. lia. }
  destruct (Z.div_eucl (Zpos c1 * 2 ^ prec) (Zpos c2)) as [q' r'].
  cbn [fst snd] in Hq, Hr. subst q' r'.
  rewrite new_location_exact, xorb_false_r.
  destruct q as [| qp | qp] eqn:Eq; try lia.
  apply binary_round_aux_exact; [exact Hb3 | fold d3; lia |].
  rewrite Hc3. fold d3. unfold q in Eq. rewrite <- Eq.
  rewrite <- Z.mul_assoc, <- Z.pow_add_r by lia. f_equal. f_equal. lia.
Qed.
End Exact.

(** ** The mean of a constant channel *)

Lemma bounded32_range (m : positive) (e : Z) :
  bounded F32.prec F32.emax m e = true ->
  0 < Zpos m < 2 ^ 24 /\ -149 <= e <= 104.
Proof.
  intros Hb.
  pose proof (bounded_inv _ _ (proj1 F32_bounds) m e Hb) as ([He1 He2] & Hm & _).
  rewrite emin32 in He1. unfold F32.prec, F32.emax in *. lia.
Qed.

(** The promotion to [double] is exact. *)
Lemma f2d_scaled (s : bool) (m : positive) (e : Z) :
  bounded F32.prec F32.emax m e = true ->
  f2d (S754_finite s m e) = scaled F64.prec s (Zpos m) e.
Proof.
  intros Hb. destruct (bounded32_range m e Hb) as [Hm He].
  change (2 ^ 24) with 16777216 in Hm.
  unfold f2d, convert.
  assert (H : forall s', binary_round F64.prec F64.emax s' m e
                         = scaled F64.prec s' (Zpos m) e).
  { intros s'.
    apply (binary_round_scaled F64.prec F64.emax (proj1 F64_bounds) s' m e (Zpos m) e
             (emin F64.prec F64.emax)); rewrite ?emin64; unfold F64.prec, F64.emax;
      try lia; change (2 ^ 53) with 9007199254740992; lia. }
  destruct s; cbn [cond_Zopp binary_normalize]; apply H.
Qed.

(** The cast of an exact [float] value back from [double] returns it. *)
Lemma d2f_scaled (s : bool) (m : positive) (e : Z) :
  bounded F32.prec F32.emax m e = true ->
  d2f (scaled F64.prec s (Zpos m) e) = S754_finite s m e.
Proof.
  intros Hb. destruct (bounded32_range m e Hb) as [Hm He].
  change (2 ^ 24) with 16777216 in Hm.
  destruct (scaled_spec F64.prec F64.emax (proj1 F64_bounds) s (Zpos m) e) as (c & -> & Hc & _).
  { change (2 ^ F64.prec) with 9007199254740992. lia. }
  { rewrite emin64. unfold F64.prec, F64.emax. lia. }
  pose proof (Zdigits2_pos (Zpos m) ltac:(lia)) as Hd0.
  pose proof (Zdigits2_le (Zpos m) 24 ltac:(change (2 ^ 24) with 16777216; lia) ltac:(lia))
    as Hd24.
  unfold d2f, convert.
  assert (H : forall s', binary_round F32.prec F32.emax s' c (e - (F64.prec - Zdigits2 (Zpos m)))
                         = S754_finite s' m e).
  { intros s'.
    apply (binary_round_exact F32.prec F32.emax s' c m _ e
             (e - (F64.prec - Zdigits2 (Zpos m))) Hb); unfold F64.prec in *; try lia.
    rewrite Z.sub_diag, Z.mul_1_r, Hc. f_equal. f_equal. lia. }
  destruct s; cbn [cond_Zopp binary_normalize]; apply H.
Qed.

Lemma int_float_scaled (n : Z) :
  0 < n -> Fl.int_float F64.prec n = scaled F64.prec false n 0.
Proof.
  intros Hn. destruct n as [| p | p]; try lia.
  unfold Fl.int_float, scaled. f_equal. lia.
Qed.

(** Adding [k] copies of one number gives [k] times the number, exactly. *)
Lemma sum_of_constant (s : bool) (m : positive) (e : Z) (l : list float) (k : Z) :
  bounded F32.prec F32.emax m e = true ->
  Forall (fun x => x = S754_finite s m e) l -> 0 < k ->
  (k + Z.of_nat (length l)) * 2 ^ 24 <= 2 ^ 53 ->
  fold_left add_sample l (scaled F64.prec s (k * Zpos m) e)
  = scaled F64.prec s ((k + Z.of_nat (length l)) * Zpos m) e.
Proof.
  intros Hb. destruct (bounded32_range m e Hb) as [Hm He].
  change (2 ^ 24) with 16777216 in *. change (2 ^ 53) with 9007199254740992.
  revert k. induction l as [| x l IH]; intros k Hall Hk Hlen.
  - cbn [fold_left length]. now rewrite Z.add_0_r.
  - inversion Hall as [| ? ? Hx Hl]; subst.
    cbn [fold_left length] in *. rewrite Nat2Z.inj_succ in *.
    unfold add_sample at 2. rewrite (f2d_scaled s m e Hb). unfold F64.add.
    assert (H1 : 0 < k * Zpos m) by (apply Z.mul_pos_pos; lia).
    assert (H2 : k * Zpos m + Zpos m < 2 ^ F64.prec).
    { change (2 ^ F64.prec) with 9007199254740992.
      assert ((k + 1) * Zpos m < (k + 1) * 16777216)
        by (apply Z.mul_lt_mono_pos_l; lia).
      lia. }
    assert (H3 : emin F64.prec F64.emax + F64.prec <= e <= F64.emax - F64.prec)
      by (rewrite emin64; unfold F64.prec, F64.emax; lia).
    rewrite (SFadd_scaled F64.prec F64.emax (proj1 F64_bounds) s (k * Zpos m) (Zpos m) e
               H1 ltac:(lia) H2 H3).
    replace (k * Zpos m + Zpos m) with ((k + 1) * Zpos m) by ring.
    rewrite IH; auto; try lia. f_equal. lia.
Qed.

(** The mean of 1 to 2^29 copies of a finite number is that number. *)
Lemma mean_of_constant (s : bool) (m : positive) (e : Z) (l : list float) :
  bounded F32.prec F32.emax m e = true ->
  l <> [] -> Z.of_nat (length l) * 2 ^ 24 <= 2 ^ 53 ->
  Forall (fun x => x = S754_finite s m e) l ->
  mean l = S754_finite s m e.
Proof.
  intros Hb Hne Hlen Hall. destruct (bounded32_range m e Hb) as [Hm He].
  destruct l as [| x l]; [congruence |]. clear Hne.
  inversion Hall as [| ? ? Hx Hl]; subst. unfold float in *.
  unfold mean. cbn [fold_left length] in *. rewrite Nat2Z.inj_succ in Hlen.
  change (2 ^ 24) with 16777216 in *. change (2 ^ 53) with 9007199254740992 in *.
  set (n := 1 + Z.of_nat (length l)).
  assert (Hn : 0 < n /\ n * 16777216 <= 9007199254740992) by (unfold n; lia).
  replace (add_sample d0 (S754_finite s m e)) with (scaled F64.prec s (1 * Zpos m) e).
  2: { unfold add_sample. rewrite (f2d_scaled s m e Hb), Z.mul_1_l. reflexivity. }
  rewrite (sum_of_constant s m e l 1 Hb Hl ltac:(lia)
             ltac:(unfold float; change (2 ^ 24) with 16777216;
                   change (2 ^ 53) with 9007199254740992; lia)).
  unfold float.
  fold n.
  assert (Hu : u2d (N.of_nat (S (length l))) = scaled F64.prec false n 0).
  { rewrite u2d_int_float.
    - replace (Z.of_N (N.of_nat (S (length l)))) with n by (unfold n; lia).
      apply int_float_scaled. lia.
    - change (2 ^ 53)%N with 9007199254740992%N. lia. }
  rewrite Hu. unfold F64.div. clearbody n.
  assert (H2 : n * Zpos m < 2 ^ F64.prec).
  { change (2 ^ F64.prec) with 9007199254740992.
    assert (n * Zpos m < n * 16777216) by (apply Z.mul_lt_mono_pos_l; lia).
    lia. }
  assert (H3 : emin F64.prec F64.emax + F64.prec <= e <= F64.emax - F64.prec)
    by (rewrite emin64; unfold F64.prec, F64.emax; lia).
  assert (H4 : emin F64.prec F64.emax + F64.prec <= 0 <= F64.emax - F64.prec)
    by (rewrite emin64; unfold F64.prec, F64.emax; lia).
  rewrite (SFdiv_scaled F64.prec F64.emax (proj1 F64_bounds) (proj2 F64_bounds)
             s n (Zpos m) e
             ltac:(lia) ltac:(lia) H2 H3 H4).
  now apply d2f_scaled.
Qed.

(** The mean of 1 to 2^29 zeros, of either sign, is +0. *)
Lemma mean_of_zeros (l : list float) :
  l <> [] -> Z.of_nat (length l) * 2 ^ 24 <= 2 ^ 53 ->
  Forall (fun x => feq x f0) l -> mean l = f0.
Proof.
  intros Hne Hlen Hall. unfold mean. rewrite sum_of_zeros by exact Hall.
  set (n := Z.of_nat (length l)) in *.
  assert (Hn : 0 < n) by (unfold n; destruct l; [congruence | cbn [length]; lia]).
  change (2 ^ 24) with 16777216 in *. change (2 ^ 53) with 9007199254740992 in *.
  rewrite u2d_int_float
    by (change (2 ^ 53)%N with 9007199254740992%N; unfold n in Hlen; lia).
  replace (Z.of_N (N.of_nat (length l))) with n by (unfold n; lia).
  destruct n as [| p | p]; try lia. reflexivity.
Qed.

Lemma feq_refl (x : float) : number x -> feq x x.
Proof.
  unfold number, feq, SFeqb.
  destruct x as [s | s | | s m e]; cbn [Fl.finite_valid]; try discriminate.
  - reflexivity.
  - intros _. cbn [SFcompare]. rewrite Z.compare_refl.
    change (Pos.compare_cont Eq m m) with (Pos.compare m m).
    rewrite Pos.compare_refl. destruct s; reflexivity.
Qed.

(** The mean of a channel that reads the number [c] every time is [c],
    with +0 for a zero of either sign. *)
Lemma mean_of_number (c : float) (l : list float) :
  number c -> l <> [] -> Z.of_nat (length l) * 2 ^ 24 <= 2 ^ 53 ->
  Forall (fun x => x = c) l ->
  mean l = unsigned_zero c.
Proof.
  intros Hc Hne Hlen Hall. unfold number in Hc.
  destruct c as [s | s | | s m e]; cbn [Fl.finite_valid] in Hc; try discriminate.
  - apply mean_of_zeros; auto.
    eapply Forall_impl; [exact Hall |]. intros x ->. reflexivity.
  - now apply mean_of_constant.
Qed.

Lemma feq_unsigned_zero (c : float) : number c -> feq (unsigned_zero c) c.
Proof.
  intros Hc. destruct c as [s | s | | s m e]; try (now apply feq_refl).
  reflexivity.
Qed.

(** What a run over a window of one repeated reading returns. *)
Lemma stationary_offsets (samples : N) (ms : Z) (st : State) (c : MpuData) :
  (0 < samples <= 2 ^ 29)%N -> numeric_sample c ->
  Forall (same_reading c) (window (N.to_nat samples) st) ->
  let r := doAveragingCalibration samples ms st in
  calibration_out r =
    {| accOffX := unsigned_zero (getAccX c);
       accOffY := unsigned_zero (getAccY c);
       accOffZ := F32.sub (getAccZ c) f1;
       gyrOffX := unsigned_zero (getGyroX c);
       gyrOffY := unsigned_zero (getGyroY c);
       gyrOffZ := unsigned_zero (getGyroZ c) |} /\
  calibration_ok r = negb (F32.ltb (F32.abs (getAccZ c)) fhalf).
Proof.
  intros [Hpos Hmax] (Nax & Nay & Naz & Ngx & Ngy & Ngz) Hall. cbv zeta.
  destruct (doAveragingCalibration_result samples ms st) as (-> & -> & _).
  set (w := window (N.to_nat samples) st) in *.
  assert (Hne : w <> []).
  { intros He. apply (f_equal (@length _)) in He. unfold w in He.
    rewrite length_window in He. cbn [length] in He. lia. }
  assert (Hlen : Z.of_nat (length w) * 2 ^ 24 <= 2 ^ 53).
  { unfold w. rewrite length_window.
    change (2 ^ 29)%N with 536870912%N in Hmax.
    change (2 ^ 24) with 16777216. change (2 ^ 53) with 9007199254740992. lia. }
  assert (Hch : forall f : MpuData -> float,
             number (f c) -> (forall d, same_reading c d -> f d = f c) ->
             mean (map f w) = unsigned_zero (f c)).
  { intros f Hn Hf. apply mean_of_number; auto.
    - intros He. apply Hne. now apply map_eq_nil in He.
    - now rewrite length_map.
    - apply Forall_map. eapply Forall_impl; [exact Hall |]. exact Hf. }
  rewrite !sub_f0.
  rewrite (Hch getAccX Nax) by (intros d H; apply H).
  rewrite (Hch getAccY Nay) by (intros d H; apply H).
  rewrite (Hch getAccZ Naz) by (intros d H; apply H).
  rewrite (Hch getGyroX Ngx) by (intros d H; apply H).
  rewrite (Hch getGyroY Ngy) by (intros d H; apply H).
  rewrite (Hch getGyroZ Ngz) by (intros d H; apply H).
  split; [f_equal |]; destruct (getAccZ c); reflexivity.
Qed.

(** X14. A sensor at rest calibrates exactly. When every sample of a
    window of 1 to 2^29 samples reads the same six numbers, no rounding
    error enters the sums, the quotients or the casts: the gyroscope
    offsets and the X and Y accelerometer offsets compare equal to the
    readings of their channels (bit for bit, but for a reading of -0, which
    gives +0), the Z accelerometer offset is the Z reading minus 1.0f, and
    the run is accepted exactly when the Z reading is at least 0.5 in
    magnitude. *)
Theorem stationary_calibration_is_exact
    (samples : N) (sampleDelayMs : Z) (st : State) (c : MpuData) :
  (0 < samples <= 2 ^ 29)%N -> numeric_sample c ->
  Forall (same_reading c) (window (N.to_nat samples) st) ->
  let r := doAveragingCalibration samples sampleDelayMs st in
  let out := calibration_out r in
  feq (accOffX out) (getAccX c) /\ feq (accOffY out) (getAccY c) /\
  accOffZ out = F32.sub (getAccZ c) f1 /\
  feq (gyrOffX out) (getGyroX c) /\ feq (gyrOffY out) (getGyroY c) /\
  feq (gyrOffZ out) (getGyroZ c) /\
  calibration_ok r = negb (F32.ltb (F32.abs (getAccZ c)) fhalf).
Proof.
  intros Hs Hc Hall. cbv zeta.
  destruct (stationary_offsets samples sampleDelayMs st c Hs Hc Hall) as [-> ->].
  destruct Hc as (Nax & Nay & Naz & Ngx & Ngy & Ngz).
  cbn [accOffX accOffY accOffZ gyrOffX gyrOffY gyrOffZ].
  repeat split; now apply feq_unsigned_zero.
Qed.

(** The biased unit at rest: its offsets are its readings. *)
Lemma biased_unit_calibrates_exactly :
  (0 < 800 <= 2 ^ 29)%N /\ numeric_sample biased_sample /\
  Forall (same_reading biased_sample) (window (N.to_nat 800) biased_unit) /\
  let r := doAveragingCalibration 800 3 biased_unit in
  let out := calibration_out r in
  feq (accOffX out) (getAccX biased_sample) /\ feq (accOffY out) (getAccY biased_sample) /\
  accOffZ out = F32.sub (getAccZ biased_sample) f1 /\
  feq (gyrOffX out) (getGyroX biased_sample) /\
  feq (gyrOffY out) (getGyroY biased_sample) /\
  feq (gyrOffZ out) (getGyroZ biased_sample) /\
  calibration_ok r = negb (F32.ltb (F32.abs (getAccZ biased_sample)) fhalf).
Proof.
  assert (H1 : (0 < 800 <= 2 ^ 29)%N) by (split; [reflexivity | discriminate]).
  assert (H2 : numeric_sample biased_sample) by (repeat split).
  assert (H3 : Forall (same_reading biased_sample) (window (N.to_nat 800) biased_unit)).
  { apply Forall_window. intros k. repeat split. }
  split; [exact H1 |]. split; [exact H2 |]. split; [exact H3 |].
  exact (stationary_calibration_is_exact 800 3 biased_unit biased_sample H1 H2 H3).
Defined.

(** ** Exact differences *)

(** A difference whose exact value is a number is that number. The values
    are compared in units of [2^lo]. *)
Lemma SFsub_value (prec emax : Z) (sx sy sz : bool) (mx my c : positive)
    (ex ey g lo : Z) :
  lo <= ex -> lo <= ey -> lo <= g -> bounded prec emax c g = true ->
  cond_Zopp sx (Zpos mx * 2 ^ (ex - lo)) - cond_Zopp sy (Zpos my * 2 ^ (ey - lo))
  = cond_Zopp sz (Zpos c * 2 ^ (g - lo)) ->
  SFsub prec emax (S754_finite sx mx ex) (S754_finite sy my ey) = S754_finite sz c g.
Proof.
  intros Hx Hy Hg Hb Hv. cbn [SFsub]. cbv zeta.
  set (ez := Z.min ex ey).
  pose proof (shl_align_spec mx ex ez) as Hsx.
  pose proof (shl_align_spec my ey ez) as Hsy.
  destruct (shl_align mx ex ez) as [mx' ex'], (shl_align my ey ez) as [my' ey'].
  destruct Hsx as [Hex' Hmx'], Hsy as [Hey' Hmy']. cbn [fst].
  assert (ex' = ez) by (unfold ez in *; lia).
  assert (ey' = ez) by (unfold ez in *; lia). clear Hex' Hey'. subst ex' ey'.
  assert (Hez : lo <= ez) by (unfold ez; lia).
  pose proof (pow2_pos (ez - lo) ltac:(lia)) as HP.
  pose proof (pow2_pos (g - lo) ltac:(lia)) as HC.
  assert (HA : Zpos mx' * 2 ^ (ez - lo) = Zpos mx * 2 ^ (ex - lo)).
  { rewrite Hmx', <- Z.mul_assoc, <- Z.pow_add_r by (unfold ez; lia).
    f_equal. f_equal. lia. }
  assert (HB : Zpos my' * 2 ^ (ez - lo) = Zpos my * 2 ^ (ey - lo)).
  { rewrite Hmy', <- Z.mul_assoc, <- Z.pow_add_r by (unfold ez; lia).
    f_equal. f_equal. lia. }
  rewrite <- HA, <- HB in Hv. clear HA HB Hmx' Hmy'.
  assert (HM : (cond_Zopp sx (Zpos mx') - cond_Zopp sy (Zpos my')) * 2 ^ (ez - lo)
               = cond_Zopp sz (Zpos c * 2 ^ (g - lo))).
  { rewrite <- Hv. unfold cond_Zopp. destruct sx, sy; ring. }
  clear Hv. revert HM.
  generalize (cond_Zopp sx (Zpos mx') - cond_Zopp sy (Zpos my')). intros M HM.
  assert (HCpos : 0 < Zpos c * 2 ^ (g - lo)) by (apply Z.mul_pos_pos; lia).
  destruct M as [| p | p]; cbn [binary_normalize].
  - exfalso. rewrite Z.mul_0_l in HM. unfold cond_Zopp in HM. destruct sz; lia.
  - assert (sz = false).
    { destruct sz; [| reflexivity]. exfalso. unfold cond_Zopp in HM.
      assert (0 < Zpos p * 2 ^ (ez - lo)) by (apply Z.mul_pos_pos; lia). lia. }
    subst sz. cbn [cond_Zopp] in HM.
    now apply (binary_round_exact prec emax false p c ez g lo).
  - assert (sz = true).
    { destruct sz; [reflexivity |]. exfalso. unfold cond_Zopp in HM.
      assert (0 < Zpos p * 2 ^ (ez - lo)) by (apply Z.mul_pos_pos; lia). lia. }
    subst sz. unfold cond_Zopp in HM.
    apply (binary_round_exact prec emax true p c ez g lo); auto. lia.
Qed.

Lemma SFsub_self (prec emax : Z) (s : bool) (m : positive) (e : Z) :
  SFsub prec emax (S754_finite s m e) (S754_finite s m e) = S754_zero false.
Proof.
  cbn [SFsub]. cbv zeta. rewrite Z.sub_diag. reflexivity.
Qed.

(** A [float] between 0.5 and 2. *)
Lemma around_one_inv (m : positive) (e : Z) :
  bounded F32.prec F32.emax m e = true ->
  SFleb fhalf (S754_finite false m e) = true ->
  SFleb (S754_finite false m e) f2 = true ->
  8388608 <= Zpos m < 16777216 /\
  (e = -24 \/ e = -23 \/ (e = -22 /\ m = 8388608%positive)).
Proof.
  intros Hb Hlo Hhi.
  pose proof (bounded_inv _ _ (proj1 F32_bounds) m e Hb) as ([He1 He2] & Hm & Hfull).
  rewrite emin32 in He1, Hfull. change (2 ^ F32.prec) with 16777216 in Hm.
  change (2 ^ (F32.prec - 1)) with 8388608 in Hfull.
  unfold SFleb in Hlo, Hhi.
  change fhalf with (S754_finite false 8388608 (-24)) in Hlo.
  change f2 with (S754_finite false 8388608 (-22)) in Hhi.
  cbn [SFcompare] in Hlo, Hhi.
  destruct (Z.compare_spec (-24) e) as [E1 | E1 | E1]; try discriminate;
    destruct (Z.compare_spec e (-22)) as [E2 | E2 | E2]; try discriminate;
    try lia.
  all: specialize (Hfull ltac:(lia)); split; [lia |]; right; right; split; [exact E2 |];
    destruct (Pos.compare_cont Eq m 8388608) eqn:Hc; try discriminate;
    [ now apply Pos.compare_eq in Hc
    | apply (proj1 (Pos.compare_lt_iff _ _)), Pos2Z.pos_lt_pos in Hc; lia ].
Qed.

Lemma sub_one_then_back_aux (m : positive) (e : Z) :
  bounded F32.prec F32.emax m e = true -> e = -24 \/ e = -23 ->
  8388608 <= Zpos m < 16777216 -> Zpos m * 2 ^ (e + 24) <> 16777216 ->
  F32.sub (S754_finite false m e) (F32.sub (S754_finite false m e) f1) = f1.
Proof.
  intros Hb He Hm Hne.
  set (N1 := Zpos m * 2 ^ (e + 24) - 16777216).
  assert (HN : 0 < Z.abs N1 < 16777216).
  { unfold N1. destruct He as [-> | ->].
    - change (2 ^ (-24 + 24)) with 1 in *. lia.
    - change (2 ^ (-23 + 24)) with 2 in *. lia. }
  destruct (scaled_spec F32.prec F32.emax (proj1 F32_bounds) (N1 <? 0) (Z.abs N1) (-24))
    as (c1 & _ & Hc1 & Hb1).
  { change (2 ^ F32.prec) with 16777216. lia. }
  { rewrite emin32. unfold F32.prec, F32.emax. lia. }
  pose proof (Zdigits2_pos (Z.abs N1) ltac:(lia)) as Hd0.
  pose proof (Zdigits2_le (Z.abs N1) 24 ltac:(change (2 ^ 24) with 16777216; lia)
                ltac:(lia)) as Hd24.
  revert Hc1 Hb1 Hd0 Hd24. generalize (Zdigits2 (Z.abs N1)). intros d Hc1 Hb1 Hd0 Hd24.
  unfold F32.prec in Hc1. change (F32.prec - d) with (24 - d) in Hb1.
  set (g1 := -24 - (24 - d)) in *.
  assert (Hc1' : Zpos c1 * 2 ^ (g1 - -48) = Z.abs N1 * 16777216).
  { rewrite Hc1, <- Z.mul_assoc, <- Z.pow_add_r by (unfold g1; lia).
    replace (24 - d + (g1 - -48)) with 24 by (unfold g1; lia). reflexivity. }
  assert (Hx : Zpos m * 2 ^ (e - -48) = (N1 + 16777216) * 16777216).
  { unfold N1. destruct He as [-> | ->].
    - change (2 ^ (-24 - -48)) with 16777216. change (2 ^ (-24 + 24)) with 1. lia.
    - change (2 ^ (-23 - -48)) with 33554432. change (2 ^ (-23 + 24)) with 2. lia. }
  assert (Hsign : cond_Zopp (N1 <? 0) (Z.abs N1 * 16777216) = N1 * 16777216).
  { unfold cond_Zopp. destruct (N1 <? 0) eqn:Hs;
      [apply Z.ltb_lt in Hs | apply Z.ltb_ge in Hs]; lia. }
  clearbody N1.
  assert (H1 : F32.sub (S754_finite false m e) f1 = S754_finite (N1 <? 0) c1 g1).
  { change f1 with (S754_finite false 8388608 (-23)). unfold F32.sub.
    apply (SFsub_value F32.prec F32.emax false false (N1 <? 0) m 8388608 c1
             e (-23) g1 (-48)); try (unfold g1; lia); [exact Hb1 |].
    rewrite Hc1', Hsign, Hx. cbn [cond_Zopp].
    change (Z.pos 8388608 * 2 ^ (-23 - -48)) with (16777216 * 16777216). lia. }
  rewrite H1. change f1 with (S754_finite false 8388608 (-23)). unfold F32.sub.
  apply (SFsub_value F32.prec F32.emax false (N1 <? 0) false m c1 8388608
           e g1 (-23) (-48)); try (unfold g1; lia); [reflexivity |].
  rewrite Hc1', Hsign, Hx. cbn [cond_Zopp].
  change (Z.pos 8388608 * 2 ^ (-23 - -48)) with (16777216 * 16777216). lia.
Qed.

(** Subtracting from a reading between 0.5 and 2 its excess over 1.0f
    gives exactly 1.0f. *)
Lemma sub_one_then_back (x : float) :
  F32.valid x = true -> SFleb fhalf x = true -> SFleb x f2 = true ->
  F32.sub x (F32.sub x f1) = f1.
Proof.
  intros Hv Hlo Hhi.
  destruct x as [s | s | | s m e]; try discriminate.
  { destruct s; discriminate. }
  destruct s; [discriminate |].
  unfold F32.valid in Hv. cbn [valid_binary] in Hv.
  destruct (around_one_inv m e Hv Hlo Hhi) as (Hm & [He | [He | [He ->]]]).
  - apply sub_one_then_back_aux; auto. subst e. change (2 ^ (-24 + 24)) with 1. lia.
  - destruct (Z.eq_dec (Zpos m) 8388608) as [Heq | Hneq].
    + injection Heq as ->. subst e. reflexivity.
    + apply sub_one_then_back_aux; auto. subst e. change (2 ^ (-23 + 24)) with 2. lia.
  - subst e. reflexivity.
Qed.

(** ** Telemetry after a calibration at rest *)

Lemma handleCalibrate_success_offsets (String_f : float -> Z -> string) (st : State) :
  checkAuth st = true ->
  calibration_ok (doAveragingCalibration 800 3 st) = true ->
  offsets (handleCalibrate String_f st)
  = calibration_out (doAveragingCalibration 800 3 st).
Proof.
  intros Hauth Hok. rewrite (handleCalibrate_success String_f st Hauth Hok).
  generalize (doAveragingCalibration 800 3 st). intros r.
  generalize (calibration_state r), (calibration_out r). intros st1 out.
  destruct (saveOffsetsToPrefs_frame (set_offsets out st1)) as (_ & _ & Ho & _).
  revert Ho. generalize (saveOffsetsToPrefs (set_offsets out st1)). intros saved Ho.
  cbn [offsets server_send set_server]. exact Ho.
Qed.

Lemma sub_unsigned_zero (x : float) : number x -> feq (F32.sub x (unsigned_zero x)) f0.
Proof.
  unfold number. destruct x as [s | s | | s m e]; cbn [Fl.finite_valid]; try discriminate.
  - intros _. destruct s; reflexivity.
  - intros _. cbn [unsigned_zero]. unfold F32.sub. rewrite SFsub_self. reflexivity.
Qed.

Lemma at_least_half (x : float) :
  F32.valid x = true -> SFleb fhalf x = true ->
  F32.ltb (F32.abs x) fhalf = false.
Proof.
  intros Hv Hlo. unfold F32.ltb, SFltb, F32.abs. unfold SFleb in Hlo.
  change fhalf with (S754_finite false 8388608 (-24)) in *.
  destruct x as [s | s | | s m e]; try discriminate; try reflexivity.
  destruct s; [discriminate |]. cbn [SFabs]. cbn [SFcompare] in *.
  destruct (Z.compare_spec e (-24)) as [E | E | E]; try reflexivity.
  - subst e. rewrite Z.compare_refl in Hlo.
    destruct (Pos.compare_cont Eq m 8388608) eqn:Hc; try reflexivity. exfalso.
    apply (proj1 (Pos.compare_lt_iff _ _)) in Hc.
    destruct (Pos.compare_cont Eq 8388608 m) eqn:Hc2; try discriminate.
    + apply Pos.compare_eq in Hc2. subst m. exact (Pos.lt_irrefl _ Hc).
    + apply (proj1 (Pos.compare_lt_iff _ _)) in Hc2.
      exact (Pos.lt_irrefl _ (Pos.lt_trans _ _ _ Hc Hc2)).
  - exfalso. rewrite (proj2 (Z.compare_gt_iff _ _)) in Hlo by lia. discriminate.
Qed.

(** X15. Calibration at rest makes the telemetry read level. If the unit
    is at rest during an authenticated [/calibrate], every sample reading
    the same six numbers with the Z acceleration between 0.5 and 2 g, the
    run succeeds and, on any later measurement that reads the same, the
    corrected acceleration of [readSensors] compares equal to 0 on X and Y
    and is exactly 1.0f on Z. *)
Theorem stationary_unit_reads_level_after_calibration
    (atan2 : float -> float -> float) (String_f : float -> Z -> string)
    (st : State) (c : MpuData) :
  checkAuth st = true -> numeric_sample c ->
  SFleb fhalf (getAccZ c) = true -> SFleb (getAccZ c) f2 = true ->
  Forall (same_reading c) (window 800 st) ->
  let st' := handleCalibrate String_f st in
  calibration_ok (doAveragingCalibration 800 3 st) = true /\
  forall st2 : State,
    offsets st2 = offsets st' ->
    same_reading c (mpu_feed (mpu st2) (mpu_updates (mpu st2))) ->
    let r := fst (readSensors atan2 st2) in
    feq (accX r) f0 /\ feq (accY r) f0 /\ accZ r = f1.
Proof.
  intros Hauth Hc Hlo Hhi Hall. cbv zeta.
  assert (Hv : F32.valid (getAccZ c) = true).
  { destruct Hc as (_ & _ & Hz & _). unfold number in Hz. unfold F32.valid.
    destruct (getAccZ c); try discriminate; try reflexivity. exact Hz. }
  destruct (stationary_offsets 800 3 st c ltac:(split; [reflexivity | discriminate])
              Hc Hall) as [Hout Hok].
  cbv zeta in Hout, Hok. rewrite (at_least_half _ Hv Hlo) in Hok. cbn [negb] in Hok.
  split; [exact Hok |].
  rewrite (handleCalibrate_success_offsets String_f st Hauth Hok), Hout.
  intros st2 Ho (Hx & Hy & Hz & _).
  destruct (readSensors_acc atan2 st2) as (-> & -> & ->).
  rewrite Ho, Hx, Hy, Hz. cbn [accOffX accOffY accOffZ].
  destruct Hc as (Nx & Ny & _).
  split; [now apply sub_unsigned_zero |]. split; [now apply sub_unsigned_zero |].
  now apply sub_one_then_back.
Qed.

(** The biased unit, calibrated at rest, reads (0, 0, 1) g. *)
Lemma biased_unit_reads_level :
  checkAuth biased_unit = true /\ numeric_sample biased_sample /\
  SFleb fhalf (getAccZ biased_sample) = true /\
  SFleb (getAccZ biased_sample) f2 = true /\
  Forall (same_reading biased_sample) (window 800 biased_unit) /\
  let st' := handleCalibrate String_f_mark biased_unit in
  calibration_ok (doAveragingCalibration 800 3 biased_unit) = true /\
  forall st2 : State,
    offsets st2 = offsets st' ->
    same_reading biased_sample (mpu_feed (mpu st2) (mpu_updates (mpu st2))) ->
    let r := fst (readSensors atan2_axis st2) in
    feq (accX r) f0 /\ feq (accY r) f0 /\ accZ r = f1.
Proof.
  assert (H1 : checkAuth biased_unit = true) by reflexivity.
  assert (H2 : numeric_sample biased_sample) by (repeat split).
  assert (H3 : SFleb fhalf (getAccZ biased_sample) = true) by reflexivity.
  assert (H4 : SFleb (getAccZ biased_sample) f2 = true) by reflexivity.
  assert (H5 : Forall (same_reading biased_sample) (window 800 biased_unit)).
  { apply Forall_window. intros k. repeat split. }
  split; [exact H1 |]. split; [exact H2 |]. split; [exact H3 |].
  split; [exact H4 |]. split; [exact H5 |].
  exact (stationary_unit_reads_level_after_calibration atan2_axis String_f_mark
           biased_unit biased_sample H1 H2 H3 H4 H5).
Defined.

(** * The characters on the display *)

Lemma Lcd16x2_print_line (s : list Ascii.ascii) (g : Lcd16x2.Glass) :
  (Lcd16x2.column g + length s < 40)%nat ->
  (length (if Lcd16x2.on_line1 g then Lcd16x2.line1 g else Lcd16x2.line0 g) = 40)%nat ->
  let g' := Lcd16x2.print s g in
  let old := if Lcd16x2.on_line1 g then Lcd16x2.line1 g else Lcd16x2.line0 g in
  let new := take (Lcd16x2.column g) old ++ s ++ drop (Lcd16x2.column g + length s) old in
  Lcd16x2.on_line1 g' = Lcd16x2.on_line1 g /\
  Lcd16x2.column g' = (Lcd16x2.column g + length s)%nat /\
  Lcd16x2.line0 g' = (if Lcd16x2.on_line1 g then Lcd16x2.line0 g else new) /\
  Lcd16x2.line1 g' = (if Lcd16x2.on_line1 g then new else Lcd16x2.line1 g).
Proof.
  cbv zeta. revert g. induction s as [| ch s IH]; intros g Hfit Hlen.
  - cbn [Lcd16x2.print length]. rewrite Nat.add_0_r. cbn [app].
    rewrite take_drop. destruct (Lcd16x2.on_line1 g); auto.
  - cbn [Lcd16x2.print length] in *.
    assert (Hne : Nat.eqb (S (Lcd16x2.column g)) 40 = false) by (apply Nat.eqb_neq; lia).
    destruct g as [l0 l1 r c]. cbn [Lcd16x2.column Lcd16x2.on_line1 Lcd16x2.line0
                                    Lcd16x2.line1] in *.
    unfold Lcd16x2.write. cbn [Lcd16x2.column Lcd16x2.on_line1 Lcd16x2.line0
                               Lcd16x2.line1]. rewrite Hne.
    match goal with |- context [Lcd16x2.print s ?g1] => specialize (IH g1) end.
    cbn [Lcd16x2.column Lcd16x2.on_line1 Lcd16x2.line0 Lcd16x2.line1] in IH.
    destruct r.
    + destruct IH as (Hr & Hc & H0 & H1); [lia | now rewrite length_insert |].
      rewrite Hr, Hc, H0, H1. repeat split; try lia.
      rewrite (take_S_r (<[c:=ch]> l1) c ch) by (apply list_lookup_insert_eq; lia).
      rewrite take_insert_ge by lia. rewrite drop_insert_lt by lia.
      rewrite <- app_assoc. cbn [app].
      replace (c + S (length s))%nat with (S c + length s)%nat by lia. reflexivity.
    + destruct IH as (Hr & Hc & H0 & H1); [lia | now rewrite length_insert |].
      rewrite Hr, Hc, H0, H1. repeat split; try lia.
      rewrite (take_S_r (<[c:=ch]> l0) c ch) by (apply list_lookup_insert_eq; lia).
      rewrite take_insert_ge by lia. rewrite drop_insert_lt by lia.
      rewrite <- app_assoc. cbn [app].
      replace (c + S (length s))%nat with (S c + length s)%nat by lia. reflexivity.
Qed.

Lemma Lcd16x2_print_app (a b : list Ascii.ascii) (g : Lcd16x2.Glass) :
  Lcd16x2.print (a ++ b) g = Lcd16x2.print b (Lcd16x2.print a g).
Proof. revert g. induction a as [| ch a IH]; intros g; [reflexivity | apply IH]. Qed.

Lemma Lcd16x2_left16_length (text : list Ascii.ascii) :
  (length text <= 16)%nat -> length (Lcd16x2.left16 text) = 16%nat.
Proof. intros H. unfold Lcd16x2.left16. rewrite length_app, repeat_length. lia. Qed.

Lemma Lcd16x2_row_text_length (formatted : list Ascii.ascii) :
  length (Lcd16x2.row_text formatted) = 16%nat.
Proof.
  unfold Lcd16x2.row_text, Lcd16x2.snprintf17. apply Lcd16x2_left16_length.
  rewrite length_take. lia.
Qed.

(** Writing a text of at most 16 characters at the start of a line and
    filling up with spaces replaces the 16 visible cells of that line and
    nothing else. *)
Lemma Lcd16x2_write_line (row1 : bool) (text : list Ascii.ascii) (g : Lcd16x2.Glass) :
  (length text <= 16)%nat -> Lcd16x2.well_formed g ->
  let g' := Lcd16x2.fill (length text)
              (Lcd16x2.print text (Lcd16x2.setCursor 0 row1 g)) in
  Lcd16x2.well_formed g' /\
  take 16 (Lcd16x2.line0 g')
  = (if row1 then take 16 (Lcd16x2.line0 g) else Lcd16x2.left16 text) /\
  take 16 (Lcd16x2.line1 g')
  = (if row1 then Lcd16x2.left16 text else take 16 (Lcd16x2.line1 g)).
Proof.
  intros Hlen [H0 H1]. cbv zeta. unfold Lcd16x2.fill.
  rewrite <- Lcd16x2_print_app. fold (Lcd16x2.left16 text).
  pose proof (Lcd16x2_left16_length text Hlen) as H16.
  revert H16. generalize (Lcd16x2.left16 text). intros t H16.
  destruct (Lcd16x2_print_line t (Lcd16x2.setCursor 0 row1 g)) as (_ & _ & Hl0 & Hl1).
  { cbn [Lcd16x2.setCursor Lcd16x2.column]. lia. }
  { cbn [Lcd16x2.setCursor Lcd16x2.on_line1 Lcd16x2.line0 Lcd16x2.line1].
    destruct row1; assumption. }
  cbv zeta in Hl0, Hl1.
  cbn [Lcd16x2.setCursor Lcd16x2.on_line1 Lcd16x2.line0 Lcd16x2.line1 Lcd16x2.column]
    in Hl0, Hl1.
  unfold Lcd16x2.well_formed. rewrite Hl0, Hl1, H16. clear Hl0 Hl1.
  destruct row1.
  - rewrite take_0. cbn [app Nat.add]. repeat split; auto.
    + rewrite length_app, length_drop. rewrite H16, H1. reflexivity.
    + now apply take_app_length'.
  - rewrite take_0. cbn [app Nat.add]. repeat split; auto.
    + rewrite length_app, length_drop. rewrite H16, H0. reflexivity.
    + now apply take_app_length'.
Qed.

Lemma Lcd16x2_two_lines (t0 t1 : list Ascii.ascii) (g : Lcd16x2.Glass) :
  (length t0 <= 16)%nat -> (length t1 <= 16)%nat -> Lcd16x2.well_formed g ->
  let g' := Lcd16x2.fill (length t1)
              (Lcd16x2.print t1
                 (Lcd16x2.setCursor 0 true
                    (Lcd16x2.fill (length t0)
                       (Lcd16x2.print t0 (Lcd16x2.setCursor 0 false g))))) in
  Lcd16x2.well_formed g' /\
  Lcd16x2.visible g' = (Lcd16x2.left16 t0, Lcd16x2.left16 t1).
Proof.
  intros L0 L1 Hg. cbv zeta.
  destruct (Lcd16x2_write_line false t0 g L0 Hg) as (Hw1 & Ha & _).
  cbv zeta in Hw1, Ha. revert Hw1 Ha.
  generalize (Lcd16x2.fill (length t0) (Lcd16x2.print t0 (Lcd16x2.setCursor 0 false g))).
  intros g1 Hw1 Ha.
  destruct (Lcd16x2_write_line true t1 g1 L1 Hw1) as (Hw2 & Hb & Hc).
  cbv zeta in Hw2, Hb, Hc. split; [exact Hw2 |].
  unfold Lcd16x2.visible. now rewrite Hb, Hc, Ha.
Qed.

(** Two texts of exactly 16 characters, written one on each line. *)
Lemma Lcd16x2_two_full_lines (t0 t1 : list Ascii.ascii) (g : Lcd16x2.Glass) :
  length t0 = 16%nat -> length t1 = 16%nat -> Lcd16x2.well_formed g ->
  let g' := Lcd16x2.print t1 (Lcd16x2.setCursor 0 true
              (Lcd16x2.print t0 (Lcd16x2.setCursor 0 false g))) in
  Lcd16x2.well_formed g' /\ Lcd16x2.visible g' = (t0, t1).
Proof.
  intros L0 L1 Hg. cbv zeta.
  destruct (Lcd16x2_two_lines t0 t1 g ltac:(lia) ltac:(lia) Hg) as [Hw Hv].
  cbv zeta in Hw, Hv. unfold Lcd16x2.fill, Lcd16x2.left16 in Hw, Hv.
  rewrite L0, L1 in Hw, Hv. cbn [Nat.sub repeat Lcd16x2.print] in Hw, Hv.
  rewrite !app_nil_r in Hv. auto.
Qed.

(** X16. Each render procedure rewrites all 32 visible cells of the
    display: what the glass shows after [updateLCD], [restoreNormalDisplay]
    or [showIrAlert] does not depend on what it showed before. The two
    telemetry lines are the formatted texts cut to 16 characters and padded
    with spaces to exactly 16; the alert lines are the two messages padded
    to 16. *)
Theorem render_procedures_overwrite_the_glass
    (fmt_T_A fmt_X_Y : float -> float -> list Ascii.ascii)
    (s : SensorReading) (g : Lcd16x2.Glass) :
  Lcd16x2.well_formed g ->
  let telemetry := (Lcd16x2.row_text (fmt_T_A (temperature s) (altitude s)),
                    Lcd16x2.row_text (fmt_X_Y (angleX s) (angleY s))) in
  Lcd16x2.visible (Lcd16x2.updateLCD fmt_T_A fmt_X_Y s g) = telemetry /\
  Lcd16x2.visible (Lcd16x2.restoreNormalDisplay fmt_T_A fmt_X_Y s g) = telemetry /\
  Lcd16x2.visible (Lcd16x2.showIrAlert g)
  = (Lcd16x2.chars "IR Triggered    ", Lcd16x2.chars "Alert !!!       ") /\
  length (fst telemetry) = 16%nat /\ length (snd telemetry) = 16%nat /\
  Lcd16x2.well_formed (Lcd16x2.updateLCD fmt_T_A fmt_X_Y s g) /\
  Lcd16x2.well_formed (Lcd16x2.showIrAlert g).
Proof.
  intros Hg. cbv zeta. cbn [fst snd].
  assert (Ht : forall t0 t1 : list Ascii.ascii,
             let g' := Lcd16x2.fill (length (Lcd16x2.snprintf17 t1))
                         (Lcd16x2.print (Lcd16x2.snprintf17 t1)
                            (Lcd16x2.setCursor 0 true
                               (Lcd16x2.fill (length (Lcd16x2.snprintf17 t0))
                                  (Lcd16x2.print (Lcd16x2.snprintf17 t0)
                                     (Lcd16x2.setCursor 0 false g))))) in
             Lcd16x2.well_formed g' /\
             Lcd16x2.visible g' = (Lcd16x2.row_text t0, Lcd16x2.row_text t1)).
  { intros t0 t1. apply Lcd16x2_two_lines; auto;
      unfold Lcd16x2.snprintf17; rewrite length_take; lia. }
  destruct (Ht (fmt_T_A (temperature s) (altitude s)) (fmt_X_Y (angleX s) (angleY s)))
    as [Hw Hv].
  cbv zeta in Hw, Hv.
  unfold Lcd16x2.updateLCD, Lcd16x2.restoreNormalDisplay. cbv zeta.
  split; [exact Hv |]. split; [exact Hv |].
  assert (Halert : Lcd16x2.well_formed (Lcd16x2.showIrAlert g) /\
                   Lcd16x2.visible (Lcd16x2.showIrAlert g)
                   = (Lcd16x2.chars "IR Triggered    ", Lcd16x2.chars "Alert !!!       ")).
  { assert (E0 : Lcd16x2.snprintf17 (Lcd16x2.left16 (Lcd16x2.chars "IR Triggered"))
                 = Lcd16x2.chars "IR Triggered    ") by reflexivity.
    assert (E1 : Lcd16x2.snprintf17 (Lcd16x2.left16 (Lcd16x2.chars "Alert !!!"))
                 = Lcd16x2.chars "Alert !!!       ") by reflexivity.
    assert (L0 : length (Lcd16x2.chars "IR Triggered    ") = 16%nat) by reflexivity.
    assert (L1 : length (Lcd16x2.chars "Alert !!!       ") = 16%nat) by reflexivity.
    unfold Lcd16x2.showIrAlert. cbv zeta. rewrite E0, E1.
    revert L0 L1. generalize (Lcd16x2.chars "IR Triggered    "),
                             (Lcd16x2.chars "Alert !!!       ").
    intros t0 t1 L0 L1. now apply Lcd16x2_two_full_lines. }
  split; [apply Halert |].
  split; [apply Lcd16x2_row_text_length |].
  split; [apply Lcd16x2_row_text_length |].
  split; [exact Hw | apply Halert].
Qed.

(** On a cleared display the procedures show their texts. *)
Lemma cleared_glass_shows_the_texts :
  Lcd16x2.well_formed Lcd16x2.cleared /\
  let s := fst (readSensors atan2_axis flat_unit) in
  let telemetry := (Lcd16x2.row_text (Lcd16x2.fmt_T_A_mark (temperature s) (altitude s)),
                    Lcd16x2.row_text (Lcd16x2.fmt_X_Y_mark (angleX s) (angleY s))) in
  Lcd16x2.visible (Lcd16x2.updateLCD Lcd16x2.fmt_T_A_mark Lcd16x2.fmt_X_Y_mark s
                     Lcd16x2.cleared) = telemetry /\
  Lcd16x2.visible (Lcd16x2.restoreNormalDisplay Lcd16x2.fmt_T_A_mark Lcd16x2.fmt_X_Y_mark s
                     Lcd16x2.cleared) = telemetry /\
  Lcd16x2.visible (Lcd16x2.showIrAlert Lcd16x2.cleared)
  = (Lcd16x2.chars "IR Triggered    ", Lcd16x2.chars "Alert !!!       ") /\
  length (fst telemetry) = 16%nat /\ length (snd telemetry) = 16%nat /\
  Lcd16x2.well_formed (Lcd16x2.updateLCD Lcd16x2.fmt_T_A_mark Lcd16x2.fmt_X_Y_mark s
                         Lcd16x2.cleared) /\
  Lcd16x2.well_formed (Lcd16x2.showIrAlert Lcd16x2.cleared).
Proof.
  assert (H : Lcd16x2.well_formed Lcd16x2.cleared) by (split; reflexivity).
  split; [exact H |].
  exact (render_procedures_overwrite_the_glass Lcd16x2.fmt_T_A_mark Lcd16x2.fmt_X_Y_mark
           (fst (readSensors atan2_axis flat_unit)) Lcd16x2.cleared H).
Defined.

(** * The serial logger *)

(** ** The CSV logger *)





